(** * TradingAgents: the safe JSON loader, the JSONL validator, the
      directory report and the date-range filter

    Shallow embedding of [tradingagents/dataflows/json_validator.py] and
    [tradingagents/dataflows/finnhub_utils.py].

    Layout of the development:
    - Python values the code manipulates: [str] as a list of code points,
      exceptions, the JSON document type, the log records;
    - the text layer of [open(path, "r", encoding="utf-8", errors=...)]:
      UTF-8 decoding under the three error handlers and universal newlines;
    - the decoder of the standard [json] module ([PyJson]), which the
      repository only calls;
    - the repository's functions, parametric in the decoder and in the
      file system they run against;
    - the properties. *)

From stdpp Require Import gmap list fin_maps strings.
From Stdlib Require Import ZArith NArith Strings.Byte Sorting.Sorted Lia.

#[local] Set Warnings "-register-all".
#[local] Open Scope N_scope.

(** ** Python strings *)

(** A Python [str] is a sequence of Unicode code points. *)
Abbreviation pystr := (list N).

(** ASCII literals of the source, as code points. *)
Fixpoint py (s : string) : pystr :=
  match s with
  | EmptyString => []
  | String a r => Ascii.N_of_ascii a :: py r
  end.

(** [a <= b] on [str]: lexicographic on code points. *)
Fixpoint str_le (a b : pystr) : bool :=
  match a, b with
  | [], _ => true
  | _ :: _, [] => false
  | x :: a', y :: b' =>
      if x <? y then true else if y <? x then false else str_le a' b'
  end.

Definition str_eqb (a b : pystr) : bool := bool_decide (a = b).

(** [s.startswith(p)] *)
Fixpoint startswith (p s : pystr) : bool :=
  match p, s with
  | [], _ => true
  | _ :: _, [] => false
  | x :: p', y :: s' => (x =? y) && startswith p' s'
  end.

(** [s.endswith(p)] *)
Definition endswith (p s : pystr) : bool := startswith (rev p) (rev s).

(** [s.replace(old, new)] for a pattern [old] of one character. *)
Fixpoint str_replace (old : N) (new : pystr) (s : pystr) : pystr :=
  match s with
  | [] => []
  | c :: r => if c =? old then new ++ str_replace old new r
              else c :: str_replace old new r
  end.

(** [str.isspace] on one character: the characters [str.strip()] removes
    when it is called without argument. *)
Definition py_isspace (c : N) : bool :=
  ((0x09 <=? c) && (c <=? 0x0D)) || ((0x1C <=? c) && (c <=? 0x20))
  || (c =? 0x85) || (c =? 0xA0) || (c =? 0x1680)
  || ((0x2000 <=? c) && (c <=? 0x200A))
  || (c =? 0x2028) || (c =? 0x2029) || (c =? 0x202F) || (c =? 0x205F)
  || (c =? 0x3000).

(** [s.lstrip()] and [s.strip()] *)
Fixpoint lstrip (s : pystr) : pystr :=
  match s with
  | [] => []
  | c :: r => if py_isspace c then lstrip r else s
  end.

Definition strip (s : pystr) : pystr := rev (lstrip (rev (lstrip s))).

(** Truth value of a [str]: non-empty. *)
Definition str_truthy (s : pystr) : bool :=
  match s with [] => false | _ => true end.

(** ** Exceptions and results *)

(** The exception classes the modelled operations raise.  All of them are
    subclasses of [Exception]; [JSONDecodeError] is the one the handlers
    of the source single out. *)
Inductive exn : Set :=
| JSONDecodeError
| UnicodeDecodeError
| OSError
| RecursionError
| ValueError
| TypeError
| AttributeError.

(** The two classes the [except] clauses of the source name.  Every
    modelled exception is an instance of [Exception]. *)
Inductive pyclass : Set := ExceptionClass | JSONDecodeErrorClass.

Definition isinstance (e : exn) (c : pyclass) : bool :=
  match c, e with
  | ExceptionClass, _ => true
  | JSONDecodeErrorClass, JSONDecodeError => true
  | JSONDecodeErrorClass, _ => false
  end.

(** What running a block of Python gives: a value, or a raised exception. *)
Inductive outcome (A : Type) : Type :=
| Return (a : A)
| Raise (e : exn).
Arguments Return {A} a.
Arguments Raise {A} e.

#[global] Instance outcome_ret : MRet outcome := @Return.
#[global] Instance outcome_bind : MBind outcome := λ A B f m,
  match m with
  | Return a => f a
  | Raise e => Raise e
  end.
#[global] Instance outcome_fmap : FMap outcome := λ A B f m,
  match m with
  | Return a => Return (f a)
  | Raise e => Raise e
  end.

(** ** Logging *)

Inductive level : Set := DEBUG | INFO | WARNING | ERROR.

(** One constructor per message template of the two modules; the
    arguments are the values the f-string interpolates (an exception is
    recorded by its class). *)
Inductive message : Set :=
| FileNotFound (file_path : pystr)
| JsonDecodeErrorIn (file_path : pystr) (e : exn)
| ErrorLoading (file_path : pystr) (e : exn)
| IgnoreStrategyFailed (e : exn)
| AllStrategiesFailed (file_path : pystr) (e : exn)
| FileDoesNotExist (file_path : pystr)
| InvalidJsonIn (file_path : pystr) (e : exn)
| ErrorValidating (file_path : pystr) (e : exn)
| LineHasJsonError (i : nat) (e : exn)
| StoppedValidation (max_errors : Z)
| ErrorReading (file_path : pystr) (e : exn)
| FoundInvalidLines (n : nat) (file_path : pystr)
| DataDirectoryMissing (data_dir : pystr)
| NoDataLoaded (data_path : pystr).

Definition record : Set := level * message.

(** A function that logs: its value and the records it emitted, oldest
    first. *)
Definition Logged (A : Type) : Type := A * list record.

#[global] Instance Logged_ret : MRet Logged := λ A a, (a, []).
#[global] Instance Logged_bind : MBind Logged := λ A B f m,
  let '(a, l1) := m in let '(b, l2) := f a in (b, l1 ++ l2).

Definition logger (lv : level) (m : message) : Logged unit := (tt, [(lv, m)]).

Notation "m ;; k" := (mbind (λ _ : unit, k) m)
  (at level 100, k at level 200, right associativity, only parsing).

(** ** JSON documents *)

(** The values [json.load] builds.  A [dict] is a finite map (equality of
    Python dicts ignores insertion order).  A [float] is kept as the text
    it was read from: no claim below computes with floats. *)
Inductive json : Type :=
| JNull
| JBool (b : bool)
| JInt (z : Z)
| JFloat (lexeme : pystr)
| JStr (s : pystr)
| JList (l : list json)
| JDict (m : gmap pystr json).

(** [len(v)]: defined on strings, lists and dicts; [TypeError] on the
    rest ([None], [bool], [int] and [float] have no [len]). *)
Definition py_len (v : json) : outcome nat :=
  match v with
  | JStr s => Return (length s)
  | JList l => Return (length l)
  | JDict m => Return (size m)
  | _ => Raise TypeError
  end.

(** ** The text layer of [open(path, "r", encoding="utf-8", errors=...)] *)

(** The [errors=] argument of [open]. *)
Inductive errors : Set := Strict | Ignore | Replace.

Definition is_cont (b : N) : bool := (0x80 <=? b) && (b <=? 0xBF).

(** Range of the second byte after the lead byte [b0] of a three- or
    four-byte sequence (overlong forms, surrogates and code points above
    U+10FFFF are excluded there). *)
Definition second_ok (b0 b1 : N) : bool :=
  if b0 =? 0xE0 then (0xA0 <=? b1) && (b1 <=? 0xBF)
  else if b0 =? 0xED then (0x80 <=? b1) && (b1 <=? 0x9F)
  else if b0 =? 0xF0 then (0x90 <=? b1) && (b1 <=? 0xBF)
  else if b0 =? 0xF4 then (0x80 <=? b1) && (b1 <=? 0x8F)
  else is_cont b1.

Definition low6 (b : N) : N := N.land b 0x3F.

Definition cp2 (b0 b1 : N) : N :=
  N.lor (N.shiftl (N.land b0 0x1F) 6) (low6 b1).
Definition cp3 (b0 b1 b2 : N) : N :=
  N.lor (N.shiftl (N.land b0 0x0F) 12) (N.lor (N.shiftl (low6 b1) 6) (low6 b2)).
Definition cp4 (b0 b1 b2 b3 : N) : N :=
  N.lor (N.shiftl (N.land b0 0x07) 18)
    (N.lor (N.shiftl (low6 b1) 12) (N.lor (N.shiftl (low6 b2) 6) (low6 b3))).

(** A decoded character in front of the rest of the decoding. *)
Definition emit (c : N) (k : outcome pystr) : outcome pystr := cons c <$> k.

(** An undecodable run of bytes, the rest of the decoding being [k]:
    [strict] raises, [ignore] drops the run, [replace] puts U+FFFD. *)
Definition undecodable (mode : errors) (k : outcome pystr) : outcome pystr :=
  match mode with
  | Strict => Raise UnicodeDecodeError
  | Ignore => k
  | Replace => emit 0xFFFD k
  end.

(** The UTF-8 codec.  An ill-formed sequence is reported up to, and
    without, the first byte that cannot continue it; decoding resumes at
    that byte. *)
Fixpoint utf8_decode (mode : errors) (bs : list byte) : outcome pystr :=
  match bs with
  | [] => Return []
  | x0 :: r0 =>
    let b0 := Byte.to_N x0 in
    if b0 <? 0x80 then emit b0 (utf8_decode mode r0)
    else if (0xC2 <=? b0) && (b0 <=? 0xDF) then
      match r0 with
      | [] => undecodable mode (Return [])
      | x1 :: r1 =>
        let b1 := Byte.to_N x1 in
        if is_cont b1 then emit (cp2 b0 b1) (utf8_decode mode r1)
        else undecodable mode (utf8_decode mode r0)
      end
    else if (0xE0 <=? b0) && (b0 <=? 0xEF) then
      match r0 with
      | [] => undecodable mode (Return [])
      | x1 :: r1 =>
        let b1 := Byte.to_N x1 in
        if second_ok b0 b1 then
          match r1 with
          | [] => undecodable mode (Return [])
          | x2 :: r2 =>
            let b2 := Byte.to_N x2 in
            if is_cont b2 then emit (cp3 b0 b1 b2) (utf8_decode mode r2)
            else undecodable mode (utf8_decode mode r1)
          end
        else undecodable mode (utf8_decode mode r0)
      end
    else if (0xF0 <=? b0) && (b0 <=? 0xF4) then
      match r0 with
      | [] => undecodable mode (Return [])
      | x1 :: r1 =>
        let b1 := Byte.to_N x1 in
        if second_ok b0 b1 then
          match r1 with
          | [] => undecodable mode (Return [])
          | x2 :: r2 =>
            let b2 := Byte.to_N x2 in
            if is_cont b2 then
              match r2 with
              | [] => undecodable mode (Return [])
              | x3 :: r3 =>
                let b3 := Byte.to_N x3 in
                if is_cont b3 then
                  emit (cp4 b0 b1 b2 b3) (utf8_decode mode r3)
                else undecodable mode (utf8_decode mode r2)
              end
            else undecodable mode (utf8_decode mode r1)
          end
        else undecodable mode (utf8_decode mode r0)
      end
    else undecodable mode (utf8_decode mode r0)
  end.

(** Universal newlines ([newline=None], the default of [open]): on
    input, ["\r\n"] and a lone ["\r"] become ["\n"]. *)
Fixpoint universal_newlines (s : pystr) : pystr :=
  match s with
  | [] => []
  | c :: r =>
    if c =? 13 then
      10 :: match r with
            | [] => []
            | d :: r' => if d =? 10 then universal_newlines r'
                         else universal_newlines r
            end
    else c :: universal_newlines r
  end.

(** Iterating over a text file: the lines, each with its final ["\n"]
    (the last one may lack it). *)
Fixpoint readlines (s : pystr) : list pystr :=
  match s with
  | [] => []
  | c :: r =>
    if c =? 10 then [c] :: readlines r
    else match readlines r with
         | [] => [[c]]
         | l :: ls => (c :: l) :: ls
         end
  end.

(** [enumerate(lines, start)] *)
Fixpoint enumerate {A} (start : nat) (l : list A) : list (nat * A) :=
  match l with
  | [] => []
  | x :: r => (start, x) :: enumerate (S start) r
  end.

(** ** The file system *)

Inductive node : Set :=
| Directory
| RegularFile (readable : bool) (content : list byte).

(** What the functions see of their environment: the node at a path, and
    what [os.walk] yields from a directory, as triples
    [(root, dirs, files)]. *)
Record world : Type := World {
  fs : pystr → option node;
  os_walk : pystr → list (pystr * list pystr * list pystr)
}.

(** [os.path.exists(path)] *)
Definition os_path_exists (w : world) (path : pystr) : bool :=
  match fs w path with Some _ => true | None => false end.

(** [os.path.join(a, b)] on POSIX. *)
Definition os_path_join (a b : pystr) : pystr :=
  if startswith (py "/") b then b
  else if negb (str_truthy a) || endswith (py "/") a then a ++ b
  else a ++ py "/" ++ b.

(** [open(path, "r", encoding="utf-8", errors=mode)] followed by
    [f.read()]: the whole text of the file, or the [OSError] of [open]
    (no such file, a directory, no permission), or the
    [UnicodeDecodeError] of a strict read. *)
Definition open_read (w : world) (path : pystr) (mode : errors)
  : outcome pystr :=
  match fs w path with
  | Some (RegularFile true content) =>
      universal_newlines <$> utf8_decode mode content
  | _ => Raise OSError
  end.

(** ** The decoder of the standard [json] module *)

(** The repository never parses JSON itself: it calls [json.load] and
    [json.loads].  [PyJson] follows the accelerated decoder of CPython
    ([json/decoder.py] with the scanner of [_json.c]) on the input as a
    list of code points: [scan_once] reads one value and returns what is
    left of the text.  [limit] is the number of nested containers the
    interpreter's recursion limit still allows; beyond it the decoder
    raises [RecursionError].  Every other failure is a
    [JSONDecodeError] (the [StopIteration] of the scanner included, which
    [raw_decode] turns into one). *)
Module PyJson.

Definition is_ws (c : N) : bool :=
  (c =? 32) || (c =? 9) || (c =? 10) || (c =? 13).

Fixpoint skip_ws (s : pystr) : pystr :=
  match s with
  | [] => []
  | c :: r => if is_ws c then skip_ws r else s
  end.

Definition is_digit (c : N) : bool := (48 <=? c) && (c <=? 57).

Definition hex_val (c : N) : option N :=
  if is_digit c then Some (c - 48)
  else if (97 <=? c) && (c <=? 102) then Some (c - 87)
  else if (65 <=? c) && (c <=? 70) then Some (c - 55)
  else None.

(** The four hex digits of a [\uXXXX] escape. *)
Definition decode_uXXXX (s : pystr) : option (N * pystr) :=
  match s with
  | h1 :: h2 :: h3 :: h4 :: r =>
    match hex_val h1, hex_val h2, hex_val h3, hex_val h4 with
    | Some a, Some b, Some c, Some d =>
        Some (((a * 16 + b) * 16 + c) * 16 + d, r)
    | _, _, _, _ => None
    end
  | _ => None
  end.

(** The [BACKSLASH] table. *)
Definition backslash (c : N) : option N :=
  if c =? 34 then Some 34          (* quote *)
  else if c =? 92 then Some 92     (* backslash *)
  else if c =? 47 then Some 47     (* slash *)
  else if c =? 98 then Some 8      (* backspace *)
  else if c =? 102 then Some 12    (* form feed *)
  else if c =? 110 then Some 10    (* line feed *)
  else if c =? 114 then Some 13    (* carriage return *)
  else if c =? 116 then Some 9     (* tab *)
  else None.

Definition is_high_surrogate (c : N) : bool := (0xD800 <=? c) && (c <=? 0xDBFF).
Definition is_low_surrogate (c : N) : bool := (0xDC00 <=? c) && (c <=? 0xDFFF).
Definition join_surrogates (hi lo : N) : N :=
  0x10000 + N.lor (N.shiftl (hi - 0xD800) 10) (lo - 0xDC00).

(** [scanstring(s, end, strict)], from the character after the opening
    quote: the decoded string and the text after the closing quote. *)
Fixpoint scanstring (strict : bool) (s : pystr) : outcome (pystr * pystr) :=
  match s with
  | [] => Raise JSONDecodeError                     (* unterminated *)
  | c :: r =>
    if c =? 34 then Return ([], r)
    else if c =? 92 then
      match r with
      | [] => Raise JSONDecodeError                 (* unterminated *)
      | e :: r1 =>
        if e =? 117 then
          match r1 with
          | h1 :: h2 :: h3 :: h4 :: r2 =>
            match decode_uXXXX (h1 :: h2 :: h3 :: h4 :: r2) with
            | None => Raise JSONDecodeError         (* invalid \uXXXX *)
            | Some (u, _) =>
              match r2 with
              | b :: u' :: k1 :: k2 :: k3 :: k4 :: r3 =>
                if is_high_surrogate u && (b =? 92) && (u' =? 117) then
                  match decode_uXXXX (k1 :: k2 :: k3 :: k4 :: r3) with
                  | None => Raise JSONDecodeError   (* invalid \uXXXX *)
                  | Some (u2, _) =>
                    if is_low_surrogate u2 then
                      '(str, rest) ← scanstring strict r3;
                      Return (join_surrogates u u2 :: str, rest)
                    else
                      '(str, rest) ← scanstring strict r2;
                      Return (u :: str, rest)
                  end
                else
                  '(str, rest) ← scanstring strict r2;
                  Return (u :: str, rest)
              | _ =>
                '(str, rest) ← scanstring strict r2;
                Return (u :: str, rest)
              end
            end
          | _ => Raise JSONDecodeError              (* invalid \uXXXX *)
          end
        else
          match backslash e with
          | None => Raise JSONDecodeError           (* invalid \escape *)
          | Some c' =>
            '(str, rest) ← scanstring strict r1;
            Return (c' :: str, rest)
          end
      end
    else if (c <=? 0x1F) && strict then
      Raise JSONDecodeError                         (* control character *)
    else
      '(str, rest) ← scanstring strict r;
      Return (c :: str, rest)
  end.

(** Digits in front of [s], and the rest. *)
Fixpoint span_digits (s : pystr) : pystr * pystr :=
  match s with
  | [] => ([], [])
  | c :: r =>
    if is_digit c then let '(ds, rest) := span_digits r in (c :: ds, rest)
    else ([], s)
  end.

(** [int(digits)] for a run of decimal digits, most significant first. *)
Definition int_of_digits (ds : pystr) : Z :=
  fold_left (λ acc c, (acc * 10 + Z.of_N (c - 48))%Z) ds 0%Z.

(** The integer part, an optional minus sign and then either a single
    zero or a digit from 1 to 9 with any digits after it: sign, digits
    and the rest. *)
Definition match_integer (s : pystr) : option (bool * pystr * pystr) :=
  let '(neg, s1) :=
    match s with
    | c :: r => if c =? 45 then (true, r) else (false, s)
    | [] => (false, s)
    end in
  match s1 with
  | [] => None
  | c :: r =>
    if c =? 48 then Some (neg, [c], r)
    else if is_digit c then
      let '(ds, rest) := span_digits r in Some (neg, c :: ds, rest)
    else None
  end.

(** The optional fraction: a dot and at least one digit. *)
Definition match_frac (s : pystr) : pystr * pystr :=
  match s with
  | c :: d :: r =>
    if (c =? 46) && is_digit d then
      let '(ds, rest) := span_digits r in (c :: d :: ds, rest)
    else ([], s)
  | _ => ([], s)
  end.

(** The optional exponent: e or E, an optional sign, at least one
    digit. *)
Definition match_exp (s : pystr) : pystr * pystr :=
  match s with
  | c :: r =>
    if (c =? 101) || (c =? 69) then
      match r with
      | d :: r' =>
        if (d =? 45) || (d =? 43) then
          match span_digits r' with
          | ([], _) => ([], s)
          | (ds, rest) => (c :: d :: ds, rest)
          end
        else
          match span_digits r with
          | ([], _) => ([], s)
          | (ds, rest) => (c :: ds, rest)
          end
      | [] => ([], s)
      end
    else ([], s)
  | [] => ([], s)
  end.

(** A number: an [int] when it has neither fraction nor exponent, a
    [float] otherwise. *)
Definition match_number (s : pystr) : option (json * pystr) :=
  match match_integer s with
  | None => None
  | Some (neg, ds, r) =>
    let '(frac, r1) := match_frac r in
    let '(exp, r2) := match_exp r1 in
    match frac, exp with
    | [], [] =>
        Some (JInt (if neg then - int_of_digits ds else int_of_digits ds)%Z, r2)
    | _, _ =>
        Some (JFloat ((if neg then [45] else []) ++ ds ++ frac ++ exp), r2)
    end
  end.

(** One scanner, as [JSONArray] and [JSONObject] receive it. *)
Abbreviation scanner := (pystr → outcome (json * pystr)).

(** The loop of [JSONArray], entered on the first character of an
    element.  [fuel] bounds the number of elements; the length of the
    text is enough, each element taking at least one character. *)
Fixpoint array_loop (scan : scanner) (fuel : nat) (s : pystr)
    (acc : list json) : outcome (json * pystr) :=
  match fuel with
  | O => Raise JSONDecodeError
  | S fuel' =>
    '(val, r) ← scan s;
    match skip_ws r with
    | [] => Raise JSONDecodeError                   (* expecting ',' *)
    | c :: r1 =>
      if c =? 93 then Return (JList (rev (val :: acc)), r1)
      else if c =? 44 then array_loop scan fuel' (skip_ws r1) (val :: acc)
      else Raise JSONDecodeError                    (* expecting ',' *)
    end
  end.

(** [JSONArray], from the character after the bracket. *)
Definition parse_array (scan : scanner) (s : pystr) : outcome (json * pystr) :=
  match skip_ws s with
  | [] => Raise JSONDecodeError                     (* expecting value *)
  | c :: r =>
    if c =? 93 then Return (JList [], r)
    else array_loop scan (length (c :: r)) (c :: r) []
  end.

(** The loop of [JSONObject], entered on the first character of a
    key.  A key that comes twice keeps its last value. *)
Fixpoint object_loop (scan : scanner) (strict : bool) (fuel : nat)
    (s : pystr) (acc : gmap pystr json) : outcome (json * pystr) :=
  match fuel with
  | O => Raise JSONDecodeError
  | S fuel' =>
    match s with
    | [] => Raise JSONDecodeError                   (* expecting name *)
    | q :: r =>
      if q =? 34 then
        '(key, r1) ← scanstring strict r;
        match skip_ws r1 with
        | [] => Raise JSONDecodeError               (* expecting ':' *)
        | c :: r2 =>
          if c =? 58 then
            '(val, r3) ← scan (skip_ws r2);
            match skip_ws r3 with
            | [] => Raise JSONDecodeError           (* expecting ',' *)
            | d :: r4 =>
              if d =? 125 then Return (JDict (<[key := val]> acc), r4)
              else if d =? 44 then
                object_loop scan strict fuel' (skip_ws r4) (<[key := val]> acc)
              else Raise JSONDecodeError            (* expecting ',' *)
            end
          else Raise JSONDecodeError                (* expecting ':' *)
        end
      else Raise JSONDecodeError                    (* expecting name *)
    end
  end.

(** [JSONObject], from the character after the brace. *)
Definition parse_object (scan : scanner) (strict : bool) (s : pystr)
  : outcome (json * pystr) :=
  match skip_ws s with
  | [] => Raise JSONDecodeError                     (* expecting name *)
  | c :: r =>
    if c =? 125 then Return (JDict ∅, r)
    else object_loop scan strict (length (c :: r)) (c :: r) ∅
  end.

(** [scan_once(string, idx)] *)
Fixpoint scan_once (strict : bool) (limit : nat) (s : pystr)
  : outcome (json * pystr) :=
  match s with
  | [] => Raise JSONDecodeError                     (* expecting value *)
  | c :: r =>
    if c =? 34 then
      '(str, rest) ← scanstring strict r; Return (JStr str, rest)
    else if c =? 123 then
      match limit with
      | O => Raise RecursionError
      | S limit' => parse_object (scan_once strict limit') strict r
      end
    else if c =? 91 then
      match limit with
      | O => Raise RecursionError
      | S limit' => parse_array (scan_once strict limit') r
      end
    else if startswith (py "null") s then Return (JNull, drop 4 s)
    else if startswith (py "true") s then Return (JBool true, drop 4 s)
    else if startswith (py "false") s then Return (JBool false, drop 5 s)
    else if startswith (py "NaN") s then Return (JFloat (py "NaN"), drop 3 s)
    else if startswith (py "Infinity") s then
      Return (JFloat (py "Infinity"), drop 8 s)
    else if startswith (py "-Infinity") s then
      Return (JFloat (py "-Infinity"), drop 9 s)
    else
      match match_number s with
      | Some res => Return res
      | None => Raise JSONDecodeError               (* expecting value *)
      end
  end.

(** [json.loads(s, strict=strict)]: no byte order mark, one value
    between optional white space, nothing after it. *)
Definition loads (limit : nat) (strict : bool) (s : pystr) : outcome json :=
  if startswith [0xFEFF] s then Raise JSONDecodeError
  else
    '(obj, r) ← scan_once strict limit (skip_ws s);
    match skip_ws r with
    | [] => Return obj
    | _ :: _ => Raise JSONDecodeError               (* extra data *)
    end.

End PyJson.

(** ** [tradingagents/dataflows/json_validator.py] *)

(** [sanitize_json_string(json_string)]: remove the NUL characters. *)
Definition sanitize_json_string (json_string : pystr) : pystr :=
  str_replace 0 [] json_string.

(** The report of [validate_data_directory]: per kind of file, the
    counters and the list of what failed. *)
Record file_stats (A : Type) : Type := FileStats {
  total : nat;
  valid : nat;
  invalid : list A
}.
Arguments FileStats {A} total valid invalid.
Arguments total {A} f.
Arguments valid {A} f.
Arguments invalid {A} f.

Record results : Type := Results {
  results_valid : bool;
  json_files : file_stats pystr;
  jsonl_files : file_stats (pystr * list nat)
}.

(** The value [validate_data_directory] returns: the dict with the
    ["error"] key when the directory is missing, the full report
    otherwise. *)
Inductive report : Type :=
| DirectoryNotFound
| Report (r : results).

Section Validator.

(** [json.loads(s, strict=strict)]; [json.load(f, ...)] is
    [json.loads(f.read(), ...)]. *)
Context (json_loads : bool → pystr → outcome json).
Context (w : world).

(** [validate_json_file(file_path)] *)
Definition validate_json_file (file_path : pystr) : Logged (outcome bool) :=
  if negb (os_path_exists w file_path) then
    logger ERROR (FileDoesNotExist file_path) ;;
    mret (Return false)
  else
    match s ← open_read w file_path Strict; json_loads true s with
    | Return _ => mret (Return true)
    | Raise e =>
      if isinstance e JSONDecodeErrorClass then
        logger ERROR (InvalidJsonIn file_path e) ;;
        mret (Return false)
      else if isinstance e ExceptionClass then
        logger ERROR (ErrorValidating file_path e) ;;
        mret (Return false)
      else mret (Raise e)
    end.

(** [load_json_safe], from the comment [# Strategy 3] on. *)
Definition load_strategy_3 (file_path : pystr) (default : json)
  : Logged (outcome json) :=
  match content ← open_read w file_path Replace;
        json_loads false (sanitize_json_string content) with
  | Return v => mret (Return v)
  | Raise e =>
    if isinstance e ExceptionClass then
      logger ERROR (AllStrategiesFailed file_path e) ;;
      mret (Return default)
    else mret (Raise e)
  end.

(** [load_json_safe], from the comment [# Strategy 2] on. *)
Definition load_strategy_2 (file_path : pystr) (default : json)
  : Logged (outcome json) :=
  match s ← open_read w file_path Ignore; json_loads false s with
  | Return v => mret (Return v)
  | Raise e =>
    if isinstance e ExceptionClass then
      logger WARNING (IgnoreStrategyFailed e) ;;
      load_strategy_3 file_path default
    else mret (Raise e)
  end.

(** [load_json_safe(file_path, default)] *)
Definition load_json_safe (file_path : pystr) (default : json)
  : Logged (outcome json) :=
  if negb (os_path_exists w file_path) then
    logger WARNING (FileNotFound file_path) ;;
    mret (Return default)
  else
    match s ← open_read w file_path Strict; json_loads false s with
    | Return v => mret (Return v)
    | Raise e =>
      if isinstance e JSONDecodeErrorClass then
        logger WARNING (JsonDecodeErrorIn file_path e) ;;
        load_strategy_2 file_path default
      else if isinstance e ExceptionClass then
        logger WARNING (ErrorLoading file_path e) ;;
        load_strategy_2 file_path default
      else mret (Raise e)
    end.

(** The [for] loop of [validate_jsonl_file] over the numbered lines:
    the list [error_lines] as the loop leaves it, and how the loop
    ended: normally (the lines ran out, or [break]), or by an exception
    that the inner handler does not catch. *)
Fixpoint jsonl_loop (max_errors : Z) (lines : list (nat * pystr))
    (error_lines : list nat) : Logged (list nat * outcome unit) :=
  match lines with
  | [] => mret (error_lines, Return tt)
  | (i, line) :: rest =>
    if negb (str_truthy (strip line)) then
      jsonl_loop max_errors rest error_lines
    else
      match json_loads false line with
      | Return _ => jsonl_loop max_errors rest error_lines
      | Raise e =>
        if isinstance e JSONDecodeErrorClass then
          let error_lines := error_lines ++ [i] in
          logger DEBUG (LineHasJsonError i e) ;;
          if (Z.of_nat (length error_lines) >=? max_errors)%Z then
            logger WARNING (StoppedValidation max_errors) ;;
            mret (error_lines, Return tt)
          else jsonl_loop max_errors rest error_lines
        else mret (error_lines, Raise e)
      end
  end.

(** [validate_jsonl_file(file_path, max_errors)] *)
Definition validate_jsonl_file (file_path : pystr) (max_errors : Z)
  : Logged (outcome (bool * list nat)) :=
  if negb (os_path_exists w file_path) then
    logger ERROR (FileDoesNotExist file_path) ;;
    mret (Return (false, []))
  else
    '(error_lines, ended) ←
      match open_read w file_path Ignore with
      | Return text =>
          jsonl_loop max_errors (enumerate 1 (readlines text)) []
      | Raise e => mret ([], Raise e)
      end;
    match ended with
    | Raise e =>
      if isinstance e ExceptionClass then
        logger ERROR (ErrorReading file_path e) ;;
        mret (Return (false, error_lines))
      else mret (Raise e)
    | Return _ =>
      let is_valid := Nat.eqb (length error_lines) 0 in
      (if negb is_valid then
         logger WARNING (FoundInvalidLines (length error_lines) file_path)
       else mret tt) ;;
      mret (Return (is_valid, error_lines))
    end.

(** [max_errors] defaults to 10. *)
Definition default_max_errors : Z := 10.

(** The body of the inner loop of [validate_data_directory], for one
    file name of one directory.  An exception of a validator would
    leave the walk at once; [results] is then lost with it. *)
Definition visit_file (root file : pystr) (res : results)
  : Logged (outcome results) :=
  let file_path := os_path_join root file in
  if endswith (py ".json") file then
    let js := json_files res in
    let js := FileStats (total js + 1) (valid js) (invalid js) in
    ok ← validate_json_file file_path;
    match ok with
    | Raise e => mret (Raise e)
    | Return true =>
      mret (Return (Results (results_valid res)
              (FileStats (total js) (valid js + 1) (invalid js))
              (jsonl_files res)))
    | Return false =>
      mret (Return (Results false
              (FileStats (total js) (valid js) (invalid js ++ [file_path]))
              (jsonl_files res)))
    end
  else if endswith (py ".jsonl") file then
    let jl := jsonl_files res in
    let jl := FileStats (total jl + 1) (valid jl) (invalid jl) in
    checked ← validate_jsonl_file file_path default_max_errors;
    match checked with
    | Raise e => mret (Raise e)
    | Return (true, _) =>
      mret (Return (Results (results_valid res) (json_files res)
              (FileStats (total jl) (valid jl + 1) (invalid jl))))
    | Return (false, error_lines) =>
      mret (Return (Results false (json_files res)
              (FileStats (total jl) (valid jl)
                 (invalid jl ++ [(file_path, error_lines)]))))
    end
  else mret (Return res).

(** [for file in files: ...] *)
Fixpoint visit_files (root : pystr) (files : list pystr) (res : results)
  : Logged (outcome results) :=
  match files with
  | [] => mret (Return res)
  | file :: rest =>
    o ← visit_file root file res;
    match o with
    | Return res' => visit_files root rest res'
    | Raise e => mret (Raise e)
    end
  end.

(** [for root, dirs, files in os.walk(data_dir): ...] *)
Fixpoint visit_dirs (walk : list (pystr * list pystr * list pystr))
    (res : results) : Logged (outcome results) :=
  match walk with
  | [] => mret (Return res)
  | (root, _, files) :: rest =>
    o ← visit_files root files res;
    match o with
    | Return res' => visit_dirs rest res'
    | Raise e => mret (Raise e)
    end
  end.

(** [validate_data_directory(data_dir)] *)
Definition validate_data_directory (data_dir : pystr)
  : Logged (outcome report) :=
  if negb (os_path_exists w data_dir) then
    logger ERROR (DataDirectoryMissing data_dir) ;;
    mret (Return DirectoryNotFound)
  else
    o ← visit_dirs (os_walk w data_dir)
          (Results true (FileStats 0 0 []) (FileStats 0 0 []));
    mret (Report <$> o).

End Validator.

(** ** [tradingagents/dataflows/finnhub_utils.py] *)

Section Finnhub.

Context (json_loads : bool → pystr → outcome json).
Context (w : world).

(** Whether the [float] read from this text is zero.  Conversion to
    floating point is not modelled; only the truth value of a document
    that is a bare [float] depends on it. *)
Context (float_is_zero : pystr → bool).

(** Truth value of a document ([not data] is its negation). *)
Definition py_truthy (v : json) : bool :=
  match v with
  | JNull => false
  | JBool b => b
  | JInt z => negb (Z.eqb z 0)
  | JFloat x => negb (float_is_zero x)
  | JStr s => str_truthy s
  | JList l => match l with [] => false | _ => true end
  | JDict m => negb (bool_decide (m = ∅))
  end.

(** The body of the loop over [data.items()]:
    [if start_date <= key <= end_date and len(value) > 0:
       filtered_data[key] = value]. *)
Definition filter_item (start_date end_date : pystr)
    (item : pystr * json) (filtered_data : gmap pystr json)
  : outcome (gmap pystr json) :=
  let '(key, value) := item in
  if str_le start_date key && str_le key end_date then
    n ← py_len value;
    if Nat.ltb 0 n then Return (<[key := value]> filtered_data)
    else Return filtered_data
  else Return filtered_data.

Fixpoint filter_items (start_date end_date : pystr)
    (items : list (pystr * json)) (filtered_data : gmap pystr json)
  : outcome (gmap pystr json) :=
  match items with
  | [] => Return filtered_data
  | item :: rest =>
    filtered_data ← filter_item start_date end_date item filtered_data;
    filter_items start_date end_date rest filtered_data
  end.

(** [get_data_in_range] once [data] is loaded: the test [if not data],
    then the filter.  A document that is not a dict has no [items]. *)
Definition filter_in_range (data_path : pystr) (data : json)
    (start_date end_date : pystr) : Logged (outcome (gmap pystr json)) :=
  if negb (py_truthy data) then
    logger WARNING (NoDataLoaded data_path) ;;
    mret (Return ∅)
  else
    match data with
    | JDict m =>
        mret (filter_items start_date end_date (map_to_list m) ∅)
    | _ => mret (Raise AttributeError)
    end.

(** [get_data_in_range(ticker, start_date, end_date, data_type,
    data_dir, period)]; [period] is [None] or a string. *)
Definition get_data_in_range (ticker start_date end_date data_type
    data_dir : pystr) (period : option pystr)
  : Logged (outcome (gmap pystr json)) :=
  let dir :=
    os_path_join (os_path_join data_dir (py "finnhub_data")) data_type in
  let data_path :=
    match period with
    | Some p =>
      if str_truthy p then
        os_path_join dir (ticker ++ py "_" ++ p ++ py "_data_formatted.json")
      else os_path_join dir (ticker ++ py "_data_formatted.json")
    | None => os_path_join dir (ticker ++ py "_data_formatted.json")
    end in
  loaded ← load_json_safe json_loads w data_path (JDict ∅);
  match loaded with
  | Return data => filter_in_range data_path data start_date end_date
  | Raise e => mret (Raise e)
  end.

End Finnhub.

(** ** Vocabulary of the properties *)

(** A JSONL line is blank when [line.strip()] is empty, malformed when it
    is not blank and the decoder rejects it with a [JSONDecodeError], and
    valid when the decoder accepts it. *)
Definition is_blank (line : pystr) : bool := negb (str_truthy (strip line)).

Definition is_malformed (json_loads : bool → pystr → outcome json)
    (line : pystr) : bool :=
  negb (is_blank line) &&
  match json_loads false line with
  | Raise e => isinstance e JSONDecodeErrorClass
  | Return _ => false
  end.

Definition is_valid_json (json_loads : bool → pystr → outcome json)
    (line : pystr) : bool :=
  match json_loads false line with
  | Return _ => true
  | Raise _ => false
  end.

(** The numbers of the malformed lines among numbered lines, in order. *)
Definition malformed_numbers (json_loads : bool → pystr → outcome json)
    (lines : list (nat * pystr)) : list nat :=
  (filter (λ il, is_malformed json_loads il.2 = true) lines).*1.

(** Whether the log tells that a scan was cut short at the error budget. *)
Definition is_stopped (r : record) : bool :=
  match r with
  | (WARNING, StoppedValidation _) => true
  | _ => false
  end.

Definition stopped_early (log : list record) : bool := existsb is_stopped log.

(** The entries of a mapping that the range filter is specified to keep:
    key within the inclusive range, value not empty. *)
Definition in_range (start_date end_date key : pystr) : bool :=
  str_le start_date key && str_le key end_date.

Definition non_empty (v : json) : bool :=
  match py_len v with
  | Return n => Nat.ltb 0 n
  | Raise _ => false
  end.

Definition has_len (v : json) : bool :=
  match py_len v with
  | Return _ => true
  | Raise _ => false
  end.

(** The invariant of the directory report. *)
Definition stats_consistent {A} (s : file_stats A) : Prop :=
  total s = (valid s + length (invalid s))%nat.

Definition results_consistent (r : results) : Prop :=
  stats_consistent (json_files r) ∧ stats_consistent (jsonl_files r) ∧
  (results_valid r = true ↔
   invalid (json_files r) = [] ∧ invalid (jsonl_files r) = []).

(** What it means for [v] to be a document parsed from the file at
    [path]: one of the three strategies read the file and decoded [v]
    from it. *)
Definition parsed_from (json_loads : bool → pystr → outcome json) (w : world)
    (path : pystr) (v : json) : Prop :=
  (∃ s, open_read w path Strict = Return s ∧ json_loads false s = Return v)
  ∨ (∃ s, open_read w path Ignore = Return s ∧ json_loads false s = Return v)
  ∨ (∃ s, open_read w path Replace = Return s ∧
          json_loads false (sanitize_json_string s) = Return v).

(** A line on which the scan goes on without leaving the loop by an
    exception: blank, valid or malformed.  What is excluded is a decoder
    that raises something else than a [JSONDecodeError]. *)
Definition scannable (json_loads : bool → pystr → outcome json)
    (il : nat * pystr) : Prop :=
  is_blank il.2 = true ∨ is_valid_json json_loads il.2 = true
  ∨ is_malformed json_loads il.2 = true.

Definition scannableb (json_loads : bool → pystr → outcome json)
    (il : nat * pystr) : bool :=
  is_blank il.2 || is_valid_json json_loads il.2
  || is_malformed json_loads il.2.

(** The scan of the file at [path] runs to its end (the last line, or
    the [break] at the budget) without an exception. *)
Definition scan_completes (json_loads : bool → pystr → outcome json)
    (w : world) (path : pystr) (max_errors : Z) : Prop :=
  ∃ text, open_read w path Ignore = Return text ∧
    (jsonl_loop json_loads max_errors
       (enumerate 1 (readlines text)) []).1.2 = Return tt.

(** The entries the range filter is specified to keep. *)
Definition kept (start_date end_date : pystr) (item : pystr * json) : Prop :=
  in_range start_date end_date item.1 = true ∧ non_empty item.2 = true.

#[global] Instance kept_dec (start_date end_date : pystr)
    (item : pystr * json) : Decision (kept start_date end_date item) :=
  and_dec _ _.

(** *** Views of the decoder *)

(** A scanner that consumes: what it leaves is shorter than what it got. *)
Definition consuming (scan : pystr → outcome (json * pystr)) : Prop :=
  ∀ s v rest, scan s = Return (v, rest) → (length rest < length s)%nat.

(** [scan2] returns what [scan1] returns, where [scan1] returns. *)
Definition extends (scan1 scan2 : pystr → outcome (json * pystr)) : Prop :=
  ∀ s res, scan1 s = Return res → scan2 s = Return res.

(** A scanner that does not see the translation of newlines. *)
Definition newline_blind (scan : pystr → outcome (json * pystr)) : Prop :=
  ∀ s v rest, scan s = Return (v, rest) →
    scan (universal_newlines s) = Return (v, universal_newlines rest).

(** A character class that holds of neither newline character. *)
Definition newline_free (p : N → bool) : Prop := p 13 = false ∧ p 10 = false.

(** The look-ahead of [scanstring] after a [\uXXXX] escape of value
    [u]: the low surrogate that pairs with it and the text after that
    second escape, or nothing to pair with. *)
Definition low_surrogate_after (u : N) (r2 : pystr)
  : outcome (option (N * pystr)) :=
  match r2 with
  | b :: u' :: k1 :: k2 :: k3 :: k4 :: r3 =>
    if PyJson.is_high_surrogate u && (b =? 92) && (u' =? 117) then
      match PyJson.decode_uXXXX (k1 :: k2 :: k3 :: k4 :: r3) with
      | None => Raise JSONDecodeError
      | Some (u2, _) =>
        if PyJson.is_low_surrogate u2 then Return (Some (u2, r3))
        else Return None
      end
    else Return None
  | _ => Return None
  end.

(** Whether a text starts with a backslash and a [u]. *)
Definition starts_escape_u (s : pystr) : bool :=
  match s with
  | b :: u' :: _ => (b =? 92) && (u' =? 117)
  | _ => false
  end.

(** ** Sample environments *)

(** The bytes of an ASCII text in which an apostrophe stands for a
    double quote, and the same text as code points. *)
Definition ascii_bytes (s : string) : list byte :=
  map (λ b, if Byte.eqb b x27 then x22 else b) (String.list_byte_of_string s).

Definition ascii_text (s : string) : pystr :=
  map (λ c, if c =? 39 then 34 else c) (py s).

(** A file system holding one readable file. *)
Definition one_file (path : pystr) (content : list byte) : world :=
  World (λ p, if bool_decide (p = path) then Some (RegularFile true content)
              else None)
        (λ _, []).

(** A file system holding nothing. *)
Definition no_file : world := World (λ _, None) (λ _, []).

(** A directory [data] with one valid [.json] file, one [.jsonl] file
    whose second line is malformed, and a file of another kind. *)
Definition sample_tree : world :=
  World (λ p,
           if bool_decide (p = py "data") then Some Directory
           else if bool_decide (p = py "data/a.json") then
             Some (RegularFile true (ascii_bytes "{'k': [1, 2]}"))
           else if bool_decide (p = py "data/b.jsonl") then
             Some (RegularFile true
                     (ascii_bytes "{'line': 1}" ++ [x0a] ++
                      ascii_bytes "{'line': 2, broken json}" ++ [x0a]))
           else if bool_decide (p = py "data/notes.txt") then
             Some (RegularFile true (ascii_bytes "hello"))
           else None)
        (λ p, if bool_decide (p = py "data") then
                [(py "data", [], [py "a.json"; py "b.jsonl"; py "notes.txt"])]
              else []).

(** The bytes of a JSONL file, from its lines. *)
Definition jsonl_bytes (lines : list string) : list byte :=
  flat_map (λ l, ascii_bytes l ++ [x0a]) lines.

(** The JSONL file of [verify_fix.py]: five lines, the second and the
    fourth malformed. *)
Definition mixed_jsonl : list byte :=
  jsonl_bytes ["{'line': 1, 'valid': true}"; "{'line': 2, broken json}";
               "{'line': 3, 'valid': true}"; "invalid line here";
               "{'line': 5, 'valid': true}"]%string.

(** JSONL files of one and of two malformed lines. *)
Definition one_bad_line : list byte := jsonl_bytes ["x"]%string.
Definition two_bad_lines : list byte := jsonl_bytes ["x"; "y"]%string.
Definition three_bad_lines : list byte := jsonl_bytes ["x"; "y"; "z"]%string.

(** A line of 101 nested arrays, closed, with its newline: valid JSON,
    one level deeper than a decoder with room for a hundred containers
    can follow. *)
Definition deep_line : pystr := repeat 91 101 ++ repeat 93 101 ++ [10].

(** A JSONL file of three lines: [x], the deep line, [y]. *)
Definition deep_jsonl : list byte :=
  ascii_bytes "x" ++ [x0a] ++ repeat x5b 101 ++ repeat x5d 101 ++ [x0a] ++
  ascii_bytes "y" ++ [x0a].

(** The text a permissive read of these bytes gives. *)
Definition decoded (content : list byte) : pystr :=
  match utf8_decode Ignore content with
  | Return t => universal_newlines t
  | Raise _ => []
  end.

(** The first two lines of [mixed_jsonl], as the loop sees them, and
    the numbered lines after them. *)
Definition mixed_line1 : pystr := ascii_text "{'line': 1, 'valid': true}" ++ [10].
Definition mixed_line2 : pystr := ascii_text "{'line': 2, broken json}" ++ [10].
Definition mixed_rest : list (nat * pystr) :=
  drop 2 (enumerate 1 (readlines (decoded mixed_jsonl))).

(** The mapping of the range-filter example of the specification, and a
    mapping with a value that has no length. *)
Definition dated_lists : gmap pystr json :=
  <[py "2024-01-01" := JList [JInt 1]]>
    (<[py "2024-02-01" := JList []]>
       (<[py "2024-03-01" := JList [JInt 2]]> ∅)).

Definition dated_number : gmap pystr json :=
  <[py "2024-01-01" := JInt 1]> ∅.

(** The text of a float up to its exponent. *)
Fixpoint mantissa (x : pystr) : pystr :=
  match x with
  | [] => []
  | c :: r => if (c =? 101) || (c =? 69) then [] else c :: mantissa r
  end.

(** A float read from a JSON number is zero when its mantissa has no
    digit from 1 to 9 (underflow apart); the sample runs use this test
    where the functions ask for the truth value of a float. *)
Definition zero_mantissa (x : pystr) : bool :=
  forallb (λ c, negb ((49 <=? c) && (c <=? 57))) (mantissa x).

(** Two files with an embedded NUL: in the first the NUL sits between
    two tokens, in the second inside a string literal. *)
Definition nul_between_tokens : list byte :=
  ascii_bytes "{'k':" ++ [x00] ++ ascii_bytes " 1}".

Definition nul_in_string : list byte :=
  ascii_bytes "'a" ++ [x00] ++ ascii_bytes "b'".

(** A valid JSON file with a Windows line ending and a non-ASCII
    character (the euro sign, three bytes). *)
Definition valid_json_file : list byte :=
  ascii_bytes "{'test': 'data'," ++ [x0d; x0a] ++
  ascii_bytes " 'price': '" ++ [xe2; x82; xac] ++ ascii_bytes "123'}".

(** A data directory with the formatted news of one ticker: the mapping
    of the range-filter example, as a file. *)
Definition finnhub_tree : world :=
  one_file (py "data/finnhub_data/news_data/AAPL_data_formatted.json")
    (ascii_bytes
       "{'2024-01-01': [1], '2024-02-01': [], '2024-03-01': [2]}").

(** The decoder with room for a hundred nested containers. *)
Definition loads100 : bool → pystr → outcome json := PyJson.loads 100.

(** ** Vocabulary of the further properties *)

(** The path [get_data_in_range] resolves for a ticker: under
    [<data_dir>/finnhub_data/<data_type>], the file of the ticker, with
    the period in its name when one is given and not empty. *)
Definition finnhub_data_path (data_dir data_type ticker : pystr)
    (period : option pystr) : pystr :=
  let dir :=
    os_path_join (os_path_join data_dir (py "finnhub_data")) data_type in
  match period with
  | Some p =>
    if str_truthy p then
      os_path_join dir (ticker ++ py "_" ++ p ++ py "_data_formatted.json")
    else os_path_join dir (ticker ++ py "_data_formatted.json")
  | None => os_path_join dir (ticker ++ py "_data_formatted.json")
  end.

(** What each strategy of [load_json_safe] computes before its handler. *)
Definition strategy_1 (json_loads : bool → pystr → outcome json) (w : world)
    (path : pystr) : outcome json :=
  s ← open_read w path Strict; json_loads false s.

Definition strategy_2 (json_loads : bool → pystr → outcome json) (w : world)
    (path : pystr) : outcome json :=
  s ← open_read w path Ignore; json_loads false s.

Definition strategy_3 (json_loads : bool → pystr → outcome json) (w : world)
    (path : pystr) : outcome json :=
  content ← open_read w path Replace;
  json_loads false (sanitize_json_string content).

Definition raises {A} (o : outcome A) : Prop :=
  match o with Raise _ => True | Return _ => False end.

(** Whether a log holds a record of level [ERROR]. *)
Definition is_error (r : record) : bool :=
  match r with (ERROR, _) => true | _ => false end.

Definition logs_error (log : list record) : bool := existsb is_error log.

(** The number of lines [validate_jsonl_file] records at most: the
    budget, and one when the budget is below one. *)
Definition line_cap (max_errors : Z) : nat := Z.to_nat (Z.max 1 max_errors).

(** The files of a walk in the order the report visits them, each as
    its name and its path. *)
Definition walked_files (walk : list (pystr * list pystr * list pystr))
  : list (pystr * pystr) :=
  flat_map (λ entry, map (λ file, (file, os_path_join entry.1.1 file)) entry.2)
    walk.

(** Among such files, those [validate_data_directory] treats as JSON
    and as JSONL. *)
Definition json_named (files : list (pystr * pystr)) : list (pystr * pystr) :=
  filter (λ fp, endswith (py ".json") fp.1 = true) files.

Definition jsonl_named (files : list (pystr * pystr)) : list (pystr * pystr) :=
  filter (λ fp, endswith (py ".jsonl") fp.1 = true) files.

(** The paths that [validate_json_file] rejects, and the paths that
    [validate_jsonl_file] rejects with the line numbers it recorded. *)
Definition rejected (o : outcome bool) : bool :=
  match o with Return false => true | _ => false end.

Definition json_failures (json_loads : bool → pystr → outcome json)
    (w : world) (files : list (pystr * pystr)) : list pystr :=
  (filter (λ fp, rejected (validate_json_file json_loads w fp.2).1 = true)
     (json_named files)).*2.

Definition jsonl_failures (json_loads : bool → pystr → outcome json)
    (w : world) (files : list (pystr * pystr)) : list (pystr * list nat) :=
  omap (λ fp,
          match (validate_jsonl_file json_loads w fp.2 default_max_errors).1 with
          | Return (false, error_lines) => Some (fp.2, error_lines)
          | _ => None
          end)
       (jsonl_named files).

(** Further sample files: malformed JSON (the file of
    [test_json_basic.py]), and a document with a byte that is not
    UTF-8 inside a string. *)
Definition malformed_json : list byte :=
  ascii_bytes "{'invalid': json content}".

Definition stray_byte_json : list byte :=
  ascii_bytes "{'k': 'a" ++ [xff] ++ ascii_bytes "b'}".

(** What visiting the files [files] adds to a report. *)
Definition report_adds (json_loads : bool → pystr → outcome json) (w : world)
    (res res' : results) (files : list (pystr * pystr)) : Prop :=
  total (json_files res') =
    (total (json_files res) + length (json_named files))%nat ∧
  invalid (json_files res') =
    invalid (json_files res) ++ json_failures json_loads w files ∧
  total (jsonl_files res') =
    (total (jsonl_files res) + length (jsonl_named files))%nat ∧
  invalid (jsonl_files res') =
    invalid (jsonl_files res) ++ jsonl_failures json_loads w files.

(** Files of the further examples: a small valid document, and the
    bytes of the news file of [finnhub_tree]. *)
Definition small_json : list byte := ascii_bytes "{'k': [1, 2]}".

Definition news_bytes : list byte :=
  ascii_bytes "{'2024-01-01': [1], '2024-02-01': [], '2024-03-01': [2]}".

(** * Properties *)

(** ** Small facts about the primitives *)

Lemma isinstance_Exception (e : exn) : isinstance e ExceptionClass = true.
Proof. reflexivity. Qed.

Lemma isinstance_JSONDecodeError (e : exn) :
  isinstance e JSONDecodeErrorClass = true ↔ e = JSONDecodeError.
Proof. destruct e; unfold isinstance; split; congruence. Qed.

Lemma str_replace_absent (old : N) (new s : pystr) :
  old ∉ s → str_replace old new s = s.
Proof.
  induction s as [|c r IH]; intros Hnotin; simpl; [done|].
  apply not_elem_of_cons in Hnotin as [Hne Hr].
  destruct (N.eqb_spec c old) as [->|_]; [done|].
  by rewrite IH.
Qed.

Lemma sanitize_json_string_no_nul (s : pystr) : 0 ∉ sanitize_json_string s.
Proof.
  unfold sanitize_json_string.
  induction s as [|c r IH]; simpl; [apply not_elem_of_nil|].
  destruct (N.eqb_spec c 0) as [->|Hne]; simpl; [done|].
  apply not_elem_of_cons; split; [congruence|done].
Qed.

Lemma open_read_exists (w : world) (path : pystr) (mode : errors)
    (text : pystr) :
  open_read w path mode = Return text → os_path_exists w path = true.
Proof.
  unfold open_read, os_path_exists.
  by destruct (fs w path) as [[|[] ?]|].
Qed.

Lemma missing_file_unreadable (w : world) (path : pystr) (mode : errors) :
  os_path_exists w path = false → open_read w path mode = Raise OSError.
Proof.
  unfold open_read, os_path_exists. by destruct (fs w path) as [[|[] ?]|].
Qed.

(** ** The decoder *)

Section DecoderFacts.

Import PyJson.

Lemma skip_ws_length (s : pystr) : (length (skip_ws s) ≤ length s)%nat.
Proof.
induction s as [|c r IH]; simpl; [done|].
destruct (is_ws c); simpl; lia.
Qed.

Lemma skip_ws_head (s : pystr) (c : N) (r : pystr) :
skip_ws s = c :: r → is_ws c = false.
Proof.
induction s as [|d s IH]; simpl; [done|].
destruct (is_ws d) eqn:Hd; [done|]. by intros [= <- _].
Qed.

Lemma scanstring_length_aux (strict : bool) (n : nat) :
∀ s str rest, (length s ≤ n)%nat →
  scanstring strict s = Return (str, rest) → (length rest < length s)%nat.
Proof.
induction n as [|n IH]; intros s str rest Hlen;
  (destruct s as [|c r]; [done|]); [simpl in Hlen; lia|].
cbn [scanstring].
repeat case_match; simplify_eq; try done;
  cbn [mbind outcome_bind]; intros Hrun;
  first
    [ injection Hrun as <- <-; simpl; lia
    | match type of Hrun with
      | context [scanstring strict ?x] =>
        destruct (scanstring strict x) as [[str' rest']|e] eqn:Hrec;
          [|done]; simpl in Hrun; injection Hrun as <- <-;
          apply IH in Hrec; simpl in Hlen, Hrec |- *; lia
      end ].
Qed.

Lemma scanstring_length (strict : bool) (s str rest : pystr) :
scanstring strict s = Return (str, rest) → (length rest < length s)%nat.
Proof. by apply (scanstring_length_aux strict (length s)). Qed.

(** Strict scanning is the permissive one where it succeeds. *)
Lemma scanstring_strict_aux (n : nat) :
∀ s res, (length s ≤ n)%nat →
  scanstring true s = Return res → scanstring false s = Return res.
Proof.
induction n as [|n IH]; intros s res Hlen;
  (destruct s as [|c r]; [done|]); [simpl in Hlen; lia|].
cbn [scanstring]. rewrite ?andb_true_r, ?andb_false_r.
repeat case_match; simplify_eq;
  cbn [mbind outcome_bind]; intros Hrun;
  lazymatch type of Hrun with
  | context [scanstring true ?x] =>
    destruct (scanstring true x) as [[str' rest']|e] eqn:Hrec;
      [|discriminate Hrun];
      apply IH in Hrec; [|simpl in Hlen |- *; lia];
      rewrite Hrec; exact Hrun
  | _ => first [discriminate Hrun | exact Hrun]
  end.
Qed.

Lemma scanstring_strict (s : pystr) (res : pystr * pystr) :
scanstring true s = Return res → scanstring false s = Return res.
Proof. by apply (scanstring_strict_aux (length s)). Qed.

Lemma span_digits_length (s ds rest : pystr) :
span_digits s = (ds, rest) → (length rest ≤ length s)%nat.
Proof.
revert ds rest. induction s as [|c r IH]; intros ds rest; simpl.
{ by intros [= <- <-]. }
destruct (is_digit c); [|by intros [= <- <-]].
destruct (span_digits r) as [ds' rest'] eqn:Hr. intros [= <- <-].
specialize (IH _ _ eq_refl). lia.
Qed.

Lemma match_integer_length (s : pystr) (neg : bool) (ds rest : pystr) :
match_integer s = Some (neg, ds, rest) → (length rest < length s)%nat.
Proof.
unfold match_integer.
destruct s as [|c r]; [done|].
destruct (c =? 45).
- destruct r as [|d r']; [done|].
  destruct (d =? 48); [intros [= <- <- <-]; simpl; lia|].
  destruct (is_digit d); [|done].
  destruct (span_digits r') as [ds' rest'] eqn:Hr. intros [= <- <- <-].
  apply span_digits_length in Hr. simpl. lia.
- destruct (c =? 48); [intros [= <- <- <-]; simpl; lia|].
  destruct (is_digit c); [|done].
  destruct (span_digits r) as [ds' rest'] eqn:Hr. intros [= <- <- <-].
  apply span_digits_length in Hr. simpl. lia.
Qed.

Lemma match_frac_length (s frac rest : pystr) :
match_frac s = (frac, rest) → (length rest ≤ length s)%nat.
Proof.
unfold match_frac.
destruct s as [|c [|d r]]; try by intros [= <- <-].
destruct ((c =? 46) && is_digit d); [|by intros [= <- <-]].
destruct (span_digits r) as [ds' rest'] eqn:Hr. intros [= <- <-].
apply span_digits_length in Hr. simpl. lia.
Qed.

Lemma match_exp_length (s exp rest : pystr) :
match_exp s = (exp, rest) → (length rest ≤ length s)%nat.
Proof.
unfold match_exp.
destruct s as [|c r]; [by intros [= <- <-]|].
destruct ((c =? 101) || (c =? 69)); [|by intros [= <- <-]].
destruct r as [|d r']; [by intros [= <- <-]|].
destruct ((d =? 45) || (d =? 43)).
- destruct (span_digits r') as [[|x ds'] rest'] eqn:Hr; intros [= <- <-];
    [done|]. apply span_digits_length in Hr. simpl. lia.
- destruct (span_digits (d :: r')) as [[|x ds'] rest'] eqn:Hr;
    intros [= <- <-]; [done|].
  apply span_digits_length in Hr. simpl in *. lia.
Qed.

Lemma match_number_length (s : pystr) (v : json) (rest : pystr) :
match_number s = Some (v, rest) → (length rest < length s)%nat.
Proof.
unfold match_number.
destruct (match_integer s) as [[[neg ds] r]|] eqn:Hint; [|done].
destruct (match_frac r) as [frac r1] eqn:Hfrac.
destruct (match_exp r1) as [exp r2] eqn:Hexp.
apply match_integer_length in Hint. apply match_frac_length in Hfrac.
apply match_exp_length in Hexp.
destruct frac, exp; intros [= <- <-]; lia.
Qed.

Lemma array_loop_length (scan : pystr → outcome (json * pystr)) (fuel : nat) :
consuming scan →
∀ s acc v rest, array_loop scan fuel s acc = Return (v, rest) →
                (length rest < length s)%nat.
Proof.
intros Hscan. induction fuel as [|fuel IH]; intros s acc v rest; [done|].
cbn [array_loop].
destruct (scan s) as [[val r]|e] eqn:Hval; [|done]. cbn [mbind outcome_bind].
apply Hscan in Hval. pose proof (skip_ws_length r) as Hr.
destruct (skip_ws r) as [|c r1] eqn:Hws; [done|].
destruct (c =? 93); [intros [= <- <-]; simpl in *; lia|].
destruct (c =? 44); [|done].
intros Hrec%IH. pose proof (skip_ws_length r1). simpl in *. lia.
Qed.

Lemma parse_array_length (scan : pystr → outcome (json * pystr)) :
consuming scan →
∀ s v rest, parse_array scan s = Return (v, rest) →
            (length rest ≤ length s)%nat.
Proof.
intros Hscan s v rest. unfold parse_array.
pose proof (skip_ws_length s) as Hs.
destruct (skip_ws s) as [|c r]; [done|].
destruct (c =? 93); [intros [= <- <-]; simpl in *; lia|].
intros Hrun%array_loop_length; [|done]. lia.
Qed.

Lemma object_loop_length (scan : pystr → outcome (json * pystr))
  (strict : bool) (fuel : nat) :
consuming scan →
∀ s acc v rest, object_loop scan strict fuel s acc = Return (v, rest) →
                (length rest < length s)%nat.
Proof.
intros Hscan. induction fuel as [|fuel IH]; intros s acc v rest; [done|].
cbn [object_loop].
destruct s as [|q r]; [done|].
destruct (q =? 34); [|done].
destruct (scanstring strict r) as [[key r1]|e] eqn:Hkey; [|done].
cbn [mbind outcome_bind].
apply scanstring_length in Hkey. pose proof (skip_ws_length r1) as Hr1.
destruct (skip_ws r1) as [|c r2]; [done|].
destruct (c =? 58); [|done].
destruct (scan (skip_ws r2)) as [[val r3]|e] eqn:Hval; [|done].
cbn [mbind outcome_bind].
apply Hscan in Hval. pose proof (skip_ws_length r2) as Hr2.
pose proof (skip_ws_length r3) as Hr3.
destruct (skip_ws r3) as [|d r4]; [done|].
destruct (d =? 125); [intros [= <- <-]; simpl in *; lia|].
destruct (d =? 44); [|done].
intros Hrec%IH. pose proof (skip_ws_length r4). simpl in *. lia.
Qed.

Lemma parse_object_length (scan : pystr → outcome (json * pystr))
  (strict : bool) :
consuming scan →
∀ s v rest, parse_object scan strict s = Return (v, rest) →
            (length rest ≤ length s)%nat.
Proof.
intros Hscan s v rest. unfold parse_object.
pose proof (skip_ws_length s) as Hs.
destruct (skip_ws s) as [|c r]; [done|].
destruct (c =? 125); [intros [= <- <-]; simpl in *; lia|].
intros Hrun%object_loop_length; [|done]. lia.
Qed.

Lemma scan_once_consuming (strict : bool) (limit : nat) :
consuming (scan_once strict limit).
Proof.
induction limit as [|limit IH]; intros s v rest;
  (destruct s as [|c r]; [done|]); cbn [scan_once].
- destruct (c =? 34).
  { destruct (scanstring strict r) as [[str r']|e] eqn:Hstr; [|done].
    intros [= <- <-]. apply scanstring_length in Hstr. simpl. lia. }
  destruct (c =? 123); [done|]. destruct (c =? 91); [done|].
  repeat (case_match; [intros [= <- <-]; rewrite length_drop; simpl; lia|]).
  destruct (match_number (c :: r)) as [[v' r']|] eqn:Hnum; [|done].
  intros [= <- <-]. by apply match_number_length in Hnum.
- destruct (c =? 34).
  { destruct (scanstring strict r) as [[str r']|e] eqn:Hstr; [|done].
    intros [= <- <-]. apply scanstring_length in Hstr. simpl. lia. }
  destruct (c =? 123).
  { intros Hrun%parse_object_length; [|done]. simpl. lia. }
  destruct (c =? 91).
  { intros Hrun%parse_array_length; [|done]. simpl. lia. }
  repeat (case_match; [intros [= <- <-]; rewrite length_drop; simpl; lia|]).
  destruct (match_number (c :: r)) as [[v' r']|] eqn:Hnum; [|done].
  intros [= <- <-]. by apply match_number_length in Hnum.
Qed.

(** ** The permissive mode extends the strict one *)

Lemma array_loop_extends (scan1 scan2 : pystr → outcome (json * pystr))
  (fuel : nat) :
extends scan1 scan2 →
∀ s acc res, array_loop scan1 fuel s acc = Return res →
             array_loop scan2 fuel s acc = Return res.
Proof.
intros Hscan. induction fuel as [|fuel IH]; intros s acc res; [done|].
cbn [array_loop].
destruct (scan1 s) as [[val r]|e] eqn:Hval; [|done].
rewrite (Hscan _ _ Hval). cbn [mbind outcome_bind].
destruct (skip_ws r) as [|c r1]; [done|].
destruct (c =? 93); [done|]. destruct (c =? 44); [|done]. apply IH.
Qed.

Lemma object_loop_extends (scan1 scan2 : pystr → outcome (json * pystr))
  (fuel : nat) :
extends scan1 scan2 →
∀ s acc res, object_loop scan1 true fuel s acc = Return res →
             object_loop scan2 false fuel s acc = Return res.
Proof.
intros Hscan. induction fuel as [|fuel IH]; intros s acc res; [done|].
cbn [object_loop].
destruct s as [|q r]; [done|]. destruct (q =? 34); [|done].
destruct (scanstring true r) as [[key r1]|e] eqn:Hkey; [|done].
rewrite (scanstring_strict _ _ Hkey). cbn [mbind outcome_bind].
destruct (skip_ws r1) as [|c r2]; [done|]. destruct (c =? 58); [|done].
destruct (scan1 (skip_ws r2)) as [[val r3]|e] eqn:Hval; [|done].
rewrite (Hscan _ _ Hval). cbn [mbind outcome_bind].
destruct (skip_ws r3) as [|d r4]; [done|].
destruct (d =? 125); [done|]. destruct (d =? 44); [|done]. apply IH.
Qed.

Lemma scan_once_strict (limit : nat) :
extends (scan_once true limit) (scan_once false limit).
Proof.
induction limit as [|limit IH]; intros s res;
  (destruct s as [|c r]; [done|]); cbn [scan_once].
- destruct (c =? 34).
  { destruct (scanstring true r) as [[str r']|e] eqn:Hstr; [|done].
    by rewrite (scanstring_strict _ _ Hstr). }
  done.
- destruct (c =? 34).
  { destruct (scanstring true r) as [[str r']|e] eqn:Hstr; [|done].
    by rewrite (scanstring_strict _ _ Hstr). }
  destruct (c =? 123).
  { unfold parse_object. destruct (skip_ws r) as [|d r']; [done|].
    destruct (d =? 125); [done|]. by apply object_loop_extends. }
  destruct (c =? 91); [|done].
  unfold parse_array. destruct (skip_ws r) as [|d r']; [done|].
  destruct (d =? 93); [done|]. by apply array_loop_extends.
Qed.

(** A text that the decoder accepts in strict mode decodes to the same
  document in permissive mode. *)
Lemma loads_strict (limit : nat) (s : pystr) (d : json) :
loads limit true s = Return d → loads limit false s = Return d.
Proof.
unfold loads. destruct (startswith [65279] s); [done|].
destruct (scan_once true limit (skip_ws s)) as [[obj r]|e] eqn:Hscan; [|done].
by rewrite (scan_once_strict _ _ _ Hscan).
Qed.

(** ** Well-formed UTF-8 reads the same under every error handler *)

Lemma utf8_decode_strict_aux (mode : errors) (n : nat) :
∀ bs t, (length bs ≤ n)%nat →
  utf8_decode Strict bs = Return t → utf8_decode mode bs = Return t.
Proof.
induction n as [|n IH]; intros bs t Hlen;
  (destruct bs as [|x0 r0]; [done|]); [simpl in Hlen; lia|].
cbn [utf8_decode]. cbn zeta.
repeat case_match; simplify_eq;
  unfold undecodable, emit; cbn [fmap outcome_fmap]; intros Hrun;
  lazymatch type of Hrun with
  | context [utf8_decode Strict ?x] =>
    destruct (utf8_decode Strict x) as [t'|e] eqn:Hrec;
      [|discriminate Hrun];
      apply IH in Hrec; [|simpl in Hlen |- *; lia];
      rewrite Hrec; exact Hrun
  | _ => first [discriminate Hrun | exact Hrun]
  end.
Qed.

Lemma utf8_decode_strict (mode : errors) (bs : list byte) (t : pystr) :
utf8_decode Strict bs = Return t → utf8_decode mode bs = Return t.
Proof. by apply (utf8_decode_strict_aux mode (length bs)). Qed.

Lemma open_read_strict (w : world) (path : pystr) (mode : errors) (t : pystr) :
open_read w path Strict = Return t → open_read w path mode = Return t.
Proof.
unfold open_read. destruct (fs w path) as [[|[] content]|]; try done.
destruct (utf8_decode Strict content) as [t'|e] eqn:Hdec; [|done].
by rewrite (utf8_decode_strict mode _ _ Hdec).
Qed.

(** ** Universal newlines and the strict decoder *)

#[local] Abbreviation nl := universal_newlines.

Lemma nl_cons (c : N) (r : pystr) : (c =? 13) = false → nl (c :: r) = c :: nl r.
Proof. intros Hc. cbn [universal_newlines]. by rewrite Hc. Qed.

Lemma nl_cr (r : pystr) :
nl (13 :: r) = 10 :: match r with
                     | [] => []
                     | d :: r' => if d =? 10 then nl r' else nl r
                     end.
Proof. reflexivity. Qed.

Lemma nl_length_aux (n : nat) :
∀ s, (length s ≤ n)%nat → (length (nl s) ≤ length s)%nat.
Proof.
induction n as [|n IH]; intros [|c r] Hlen; simpl in *; try lia.
destruct (c =? 13); simpl; [|specialize (IH r); lia].
destruct r as [|d r']; simpl in *; [lia|].
destruct (d =? 10).
- specialize (IH r'). lia.
- specialize (IH (d :: r')). simpl in IH. lia.
Qed.

Lemma nl_length (s : pystr) : (length (nl s) ≤ length s)%nat.
Proof. by apply (nl_length_aux (length s)). Qed.

Lemma is_ws_not_cr (c : N) : is_ws c = false → (c =? 13) = false.
Proof. unfold is_ws. intros H. by repeat apply orb_false_elim in H as [H ?]. Qed.

Lemma skip_ws_nl_aux (n : nat) :
∀ s, (length s ≤ n)%nat → skip_ws (nl s) = nl (skip_ws s).
Proof.
induction n as [|n IH]; intros [|c r] Hlen; simpl in Hlen; try done; [lia|].
destruct (c =? 13) eqn:Hc.
- apply N.eqb_eq in Hc as ->. rewrite nl_cr. cbn [skip_ws is_ws].
  change (is_ws 10) with true. change (is_ws 13) with true. cbn iota.
  destruct r as [|d r']; [done|].
  destruct (d =? 10) eqn:Hd.
  + apply N.eqb_eq in Hd as ->. cbn [skip_ws]. change (is_ws 10) with true.
    cbn iota. apply IH. simpl in Hlen. lia.
  + apply IH. simpl in *. lia.
- rewrite nl_cons by done. cbn [skip_ws].
  destruct (is_ws c); [apply IH; lia|]. by rewrite nl_cons.
Qed.

Lemma skip_ws_nl (s : pystr) : skip_ws (nl s) = nl (skip_ws s).
Proof. by apply (skip_ws_nl_aux (length s)). Qed.

(** The first character after white space is found again after the
  translation of newlines. *)
Lemma skip_ws_nl_cons (s : pystr) (c : N) (r : pystr) :
skip_ws s = c :: r → skip_ws (nl s) = c :: nl r.
Proof.
intros Hs. rewrite skip_ws_nl, Hs.
apply nl_cons, is_ws_not_cr. by eapply skip_ws_head.
Qed.

Lemma skip_ws_nl_nil (s : pystr) : skip_ws s = [] → skip_ws (nl s) = [].
Proof. intros Hs. by rewrite skip_ws_nl, Hs. Qed.

Lemma hex_val_not_cr (c v : N) : hex_val c = Some v → (c =? 13) = false.
Proof.
intros Hc. apply N.eqb_neq. intros ->. by vm_compute in Hc.
Qed.

Lemma backslash_not_cr (c v : N) : backslash c = Some v → (c =? 13) = false.
Proof.
intros Hc. apply N.eqb_neq. intros ->. by vm_compute in Hc.
Qed.

Lemma is_digit_not_cr (c : N) : is_digit c = true → (c =? 13) = false.
Proof.
intros Hc. apply N.eqb_neq. intros ->. by vm_compute in Hc.
Qed.

Lemma eqb_not_cr (c k : N) : (c =? k) = true → (k =? 13) = false → (c =? 13) = false.
Proof. by intros ->%N.eqb_eq. Qed.

Lemma decode_uXXXX_nl (r1 : pystr) (u : N) (r2 : pystr) :
decode_uXXXX r1 = Some (u, r2) → decode_uXXXX (nl r1) = Some (u, nl r2).
Proof.
unfold decode_uXXXX.
destruct r1 as [|h1 [|h2 [|h3 [|h4 r]]]]; try done.
destruct (hex_val h1) as [a|] eqn:H1; [|done].
destruct (hex_val h2) as [b|] eqn:H2; [|done].
destruct (hex_val h3) as [c|] eqn:H3; [|done].
destruct (hex_val h4) as [d|] eqn:H4; [|done].
intros [= <- <-].
rewrite !nl_cons by (by eapply hex_val_not_cr).
by rewrite H1, H2, H3, H4.
Qed.

Lemma scanstring_quote (strict : bool) (r : pystr) :
scanstring strict (34 :: r) = Return ([], r).
Proof. reflexivity. Qed.

Lemma scanstring_escape (strict : bool) (e : N) (r1 : pystr) :
(e =? 117) = false →
scanstring strict (92 :: e :: r1) =
  match backslash e with
  | None => Raise JSONDecodeError
  | Some c' => '(str, rest) ← scanstring strict r1; Return (c' :: str, rest)
  end.
Proof. intros He. cbn [scanstring]. change (92 =? 34) with false.
change (92 =? 92) with true. cbn iota. by rewrite He. Qed.

Lemma scanstring_unicode (strict : bool) (r1 : pystr) :
scanstring strict (92 :: 117 :: r1) =
  match decode_uXXXX r1 with
  | None => Raise JSONDecodeError
  | Some (u, r2) =>
    match low_surrogate_after u r2 with
    | Raise e => Raise e
    | Return (Some (u2, r3)) =>
      '(str, rest) ← scanstring strict r3;
      Return (join_surrogates u u2 :: str, rest)
    | Return None =>
      '(str, rest) ← scanstring strict r2; Return (u :: str, rest)
    end
  end.
Proof.
cbn [scanstring]. change (92 =? 34) with false.
change (92 =? 92) with true. change (117 =? 117) with true. cbn iota.
destruct r1 as [|h1 [|h2 [|h3 [|h4 r2]]]]; try reflexivity.
unfold decode_uXXXX at 1 3.
destruct (hex_val h1), (hex_val h2), (hex_val h3), (hex_val h4);
  try reflexivity.
unfold low_surrogate_after.
destruct r2 as [|b [|u' [|k1 [|k2 [|k3 [|k4 r3]]]]]]; try reflexivity.
destruct (is_high_surrogate _ && (b =? 92) && (u' =? 117)); [|reflexivity].
destruct (decode_uXXXX _) as [[u2 ?]|]; [|reflexivity].
by destruct (is_low_surrogate u2).
Qed.

Lemma scanstring_plain (strict : bool) (c : N) (r : pystr) :
(c =? 34) = false → (c =? 92) = false →
scanstring strict (c :: r) =
  if (c <=? 31) && strict then Raise JSONDecodeError
  else '(str, rest) ← scanstring strict r; Return (c :: str, rest).
Proof. intros H1 H2. cbn [scanstring]. by rewrite H1, H2. Qed.

Lemma low_surrogate_after_some (u : N) (r2 : pystr) (u2 : N) (r3 : pystr) :
low_surrogate_after u r2 = Return (Some (u2, r3)) →
∃ k1 k2 k3 k4, r2 = 92 :: 117 :: k1 :: k2 :: k3 :: k4 :: r3 ∧
  is_high_surrogate u = true ∧
  decode_uXXXX (k1 :: k2 :: k3 :: k4 :: r3) = Some (u2, r3) ∧
  is_low_surrogate u2 = true.
Proof.
unfold low_surrogate_after.
destruct r2 as [|b [|u' [|k1 [|k2 [|k3 [|k4 r3']]]]]]; try done.
destruct (is_high_surrogate u); [|done].
destruct (b =? 92) eqn:Hb; [|done]. destruct (u' =? 117) eqn:Hu; [|done].
cbn [andb].
destruct (decode_uXXXX _) as [[u2' x]|] eqn:Hdec; [|done].
destruct (is_low_surrogate u2') eqn:Hlow; [|done].
intros [= <- <-]. apply N.eqb_eq in Hb as ->. apply N.eqb_eq in Hu as ->.
exists k1, k2, k3, k4. repeat split; try done.
unfold decode_uXXXX in Hdec |- *.
by destruct (hex_val k1), (hex_val k2), (hex_val k3), (hex_val k4);
  simplify_eq.
Qed.

Lemma low_surrogate_after_nl_some (u : N) (r2 : pystr) (u2 : N) (r3 : pystr) :
low_surrogate_after u r2 = Return (Some (u2, r3)) →
low_surrogate_after u (nl r2) = Return (Some (u2, nl r3)).
Proof.
intros (k1 & k2 & k3 & k4 & -> & Hhigh & Hdec & Hlow)%low_surrogate_after_some.
pose proof (decode_uXXXX_nl _ _ _ Hdec) as Hdec'.
assert (nl (k1 :: k2 :: k3 :: k4 :: r3) = k1 :: k2 :: k3 :: k4 :: nl r3) as Hnl.
{ unfold decode_uXXXX in Hdec.
  destruct (hex_val k1) eqn:H1; [|done]. destruct (hex_val k2) eqn:H2; [|done].
  destruct (hex_val k3) eqn:H3; [|done]. destruct (hex_val k4) eqn:H4; [|done].
  by rewrite !nl_cons by (by eapply hex_val_not_cr). }
rewrite (nl_cons 92), (nl_cons 117), Hnl by done.
rewrite Hnl in Hdec'. unfold low_surrogate_after.
rewrite Hhigh. change (92 =? 92) with true. change (117 =? 117) with true.
cbn [andb]. by rewrite Hdec', Hlow.
Qed.

Lemma starts_escape_u_nl (s : pystr) :
starts_escape_u (nl s) = starts_escape_u s.
Proof.
destruct s as [|b [|u' r]]; try done.
- unfold starts_escape_u. cbn [universal_newlines].
  by destruct (b =? 13).
- destruct (b =? 13) eqn:Hb.
  + apply N.eqb_eq in Hb as ->. rewrite nl_cr.
    unfold starts_escape_u. by repeat case_match.
  + rewrite nl_cons by done.
    destruct (u' =? 13) eqn:Hu.
    * apply N.eqb_eq in Hu as ->. rewrite nl_cr. unfold starts_escape_u.
      by rewrite !(andb_comm (b =? 92)).
    * by rewrite nl_cons.
Qed.

Lemma low_surrogate_after_nl_none (u : N) (r2 : pystr) :
low_surrogate_after u r2 = Return None →
low_surrogate_after u (nl r2) = Return None.
Proof.
intros Hnone.
destruct (is_high_surrogate u) eqn:Hhigh; cycle 1.
{ unfold low_surrogate_after. rewrite Hhigh. by repeat case_match. }
destruct (starts_escape_u r2) eqn:Hstart; cycle 1.
{ rewrite <- starts_escape_u_nl in Hstart. unfold low_surrogate_after.
  destruct (nl r2) as [|b [|u' [|k1 [|k2 [|k3 [|k4 r3]]]]]]; try done.
  unfold starts_escape_u in Hstart.
  by rewrite <- andb_assoc, Hstart, andb_false_r. }
destruct r2 as [|b [|u' r]]; try done.
unfold starts_escape_u in Hstart. apply andb_prop in Hstart as [Hb Hu].
apply N.eqb_eq in Hb as ->. apply N.eqb_eq in Hu as ->.
rewrite (nl_cons 92), (nl_cons 117) by done.
destruct r as [|k1 [|k2 [|k3 [|k4 r3]]]].
1-4: unfold low_surrogate_after;
     match goal with |- context [nl ?l] =>
       pose proof (nl_length l) as Hlen;
       destruct (nl l) as [|? [|? [|? [|? ?]]]]; simpl in Hlen; try done; lia
     end.
unfold low_surrogate_after in Hnone. rewrite Hhigh in Hnone.
change (92 =? 92) with true in Hnone. change (117 =? 117) with true in Hnone.
cbn [andb] in Hnone.
destruct (decode_uXXXX (k1 :: k2 :: k3 :: k4 :: r3)) as [[u2 x]|] eqn:Hdec;
  [|done].
pose proof (decode_uXXXX_nl _ _ _ Hdec) as Hdec'.
assert (nl (k1 :: k2 :: k3 :: k4 :: r3) = k1 :: k2 :: k3 :: k4 :: nl r3) as Hnl.
{ unfold decode_uXXXX in Hdec.
  destruct (hex_val k1) eqn:H1; [|done]. destruct (hex_val k2) eqn:H2; [|done].
  destruct (hex_val k3) eqn:H3; [|done]. destruct (hex_val k4) eqn:H4; [|done].
  by rewrite !nl_cons by (by eapply hex_val_not_cr). }
rewrite Hnl in Hdec' |- *. unfold low_surrogate_after. rewrite Hhigh.
change (92 =? 92) with true. change (117 =? 117) with true. cbn [andb].
rewrite Hdec'. by destruct (is_low_surrogate u2).
Qed.

Lemma decode_uXXXX_length (r1 : pystr) (u : N) (r2 : pystr) :
decode_uXXXX r1 = Some (u, r2) → length r1 = (4 + length r2)%nat.
Proof.
unfold decode_uXXXX.
destruct r1 as [|h1 [|h2 [|h3 [|h4 r]]]]; try done.
destruct (hex_val h1), (hex_val h2), (hex_val h3), (hex_val h4); try done.
by intros [= <- <-].
Qed.

Lemma scanstring_nl_aux (n : nat) :
∀ s str rest, (length s ≤ n)%nat →
  scanstring true s = Return (str, rest) →
  scanstring true (nl s) = Return (str, nl rest).
Proof.
induction n as [|n IH]; intros s str rest Hlen;
  (destruct s as [|c r]; [done|]); [simpl in Hlen; lia|].
simpl in Hlen.
destruct (c =? 34) eqn:Hquote.
{ apply N.eqb_eq in Hquote as ->. rewrite scanstring_quote.
  intros [= <- <-]. by rewrite nl_cons. }
destruct (c =? 92) eqn:Hback.
- apply N.eqb_eq in Hback as ->.
  destruct r as [|e r1]; [done|]. simpl in Hlen.
  rewrite (nl_cons 92) by done.
  destruct (e =? 117) eqn:He.
  + apply N.eqb_eq in He as ->. rewrite (nl_cons 117) by done.
    rewrite !scanstring_unicode.
    destruct (decode_uXXXX r1) as [[u r2]|] eqn:Hdec; [|done].
    rewrite (decode_uXXXX_nl _ _ _ Hdec).
    apply decode_uXXXX_length in Hdec.
    destruct (low_surrogate_after u r2) as [[[u2 r3]|]|e] eqn:Hlow; [| |done].
    * rewrite (low_surrogate_after_nl_some _ _ _ _ Hlow).
      apply low_surrogate_after_some in Hlow as (k1 & k2 & k3 & k4 & -> & _).
      destruct (scanstring true r3) as [[str' rest']|e] eqn:Hrec; [|done].
      intros [= <- <-]. apply IH in Hrec; [|simpl in *; lia].
      by rewrite Hrec.
    * rewrite (low_surrogate_after_nl_none _ _ Hlow).
      destruct (scanstring true r2) as [[str' rest']|e] eqn:Hrec; [|done].
      intros [= <- <-]. apply IH in Hrec; [|lia]. by rewrite Hrec.
  + rewrite scanstring_escape by done.
    destruct (backslash e) as [c'|] eqn:Hesc; [|done].
    rewrite (nl_cons e) by (by eapply backslash_not_cr).
    rewrite scanstring_escape, Hesc by done.
    destruct (scanstring true r1) as [[str' rest']|e'] eqn:Hrec; [|done].
    intros [= <- <-]. apply IH in Hrec; [|lia]. by rewrite Hrec.
- rewrite scanstring_plain by done. rewrite andb_true_r.
  destruct (c <=? 31) eqn:Hctl; [done|].
  assert ((c =? 13) = false) as Hcr.
  { apply N.eqb_neq. intros ->. done. }
  rewrite nl_cons, scanstring_plain, andb_true_r, Hctl by done.
  destruct (scanstring true r) as [[str' rest']|e] eqn:Hrec; [|done].
  intros [= <- <-]. apply IH in Hrec; [|lia]. by rewrite Hrec.
Qed.

Lemma scanstring_nl (s str rest : pystr) :
scanstring true s = Return (str, rest) →
scanstring true (nl s) = Return (str, nl rest).
Proof. by apply (scanstring_nl_aux (length s)). Qed.

Lemma nl_head (p : N → bool) (c : N) (r : pystr) :
newline_free p →
∃ c' r', nl (c :: r) = c' :: r' ∧ p c' = p c ∧
         ((c =? 13) = false → c' = c ∧ r' = nl r).
Proof.
intros [Hcr Hlf]. destruct (c =? 13) eqn:Hc.
- apply N.eqb_eq in Hc as ->. rewrite nl_cr. eexists _, _.
  split; [done|]. split; [congruence|done].
- rewrite nl_cons by done. exists c, (nl r). done.
Qed.

Lemma newline_free_digit : newline_free is_digit.
Proof. done. Qed.

Lemma newline_free_eqb (k : N) :
(k =? 13) = false → (k =? 10) = false → newline_free (λ c, c =? k).
Proof. intros H1 H2. split; by rewrite N.eqb_sym. Qed.

Lemma span_digits_nl (s ds rest : pystr) :
span_digits s = (ds, rest) → span_digits (nl s) = (ds, nl rest).
Proof.
revert ds rest. induction s as [|c r IH]; intros ds rest.
{ by intros [= <- <-]. }
cbn [span_digits]. destruct (is_digit c) eqn:Hc.
- destruct (span_digits r) as [ds' rest'] eqn:Hr. intros [= <- <-].
  rewrite nl_cons by (by apply is_digit_not_cr). cbn [span_digits].
  by rewrite Hc, (IH _ _ eq_refl).
- intros [= <- <-].
  destruct (nl_head is_digit c r newline_free_digit)
    as (c' & r' & -> & Hc' & _).
  cbn [span_digits]. by rewrite Hc', Hc.
Qed.

Lemma match_integer_nl (s : pystr) (neg : bool) (ds rest : pystr) :
match_integer s = Some (neg, ds, rest) →
match_integer (nl s) = Some (neg, ds, nl rest).
Proof.
unfold match_integer. destruct s as [|c r]; [done|].
assert (∀ (b : bool) d r',
          (if d =? 48 then Some (b, [d], r')
           else if is_digit d then
             let '(ds, rest) := span_digits r' in Some (b, d :: ds, rest)
           else None) = Some (neg, ds, rest) →
          match nl (d :: r') with
          | [] => None
          | c :: r =>
            if c =? 48 then Some (b, [c], r)
            else if is_digit c then
              let '(ds, rest) := span_digits r in Some (b, c :: ds, rest)
            else None
          end = Some (neg, ds, nl rest)) as Hdigits.
{ intros b d r'. destruct (d =? 48) eqn:Hzero.
  - intros [= <- <- <-]. rewrite nl_cons by (by eapply eqb_not_cr).
    by rewrite Hzero.
  - destruct (is_digit d) eqn:Hd; [|done].
    destruct (span_digits r') as [ds' rest'] eqn:Hr. intros [= <- <- <-].
    rewrite nl_cons by (by apply is_digit_not_cr).
    by rewrite Hzero, Hd, (span_digits_nl _ _ _ Hr). }
destruct (c =? 45) eqn:Hminus.
- rewrite nl_cons by (by eapply eqb_not_cr). rewrite Hminus.
  destruct r as [|d r']; [done|]. apply Hdigits.
- intros Hrun.
  assert (match nl (c :: r) with
          | c0 :: r0 => if c0 =? 45 then (true, r0) else (false, nl (c :: r))
          | [] => (false, nl (c :: r))
          end = (false, nl (c :: r))) as ->.
  { destruct (nl_head (λ x, x =? 45) c r) as (c' & r' & -> & Hc' & _).
    { by apply newline_free_eqb. }
    cbn beta in Hc'. by rewrite Hc', Hminus. }
  by apply Hdigits.
Qed.

Lemma match_frac_nl (s frac rest : pystr) :
match_frac s = (frac, rest) → match_frac (nl s) = (frac, nl rest).
Proof.
unfold match_frac. destruct s as [|c r]; [by intros [= <- <-]|].
destruct (c =? 46) eqn:Hdot; cycle 1.
{ intros Hrun.
  assert ((frac, rest) = ([], c :: r)) as [= -> ->].
  { destruct r; simpl in Hrun; congruence. }
  destruct (nl_head (λ x, x =? 46) c r) as (c' & r' & -> & Hc' & _).
  { by apply newline_free_eqb. }
  destruct r' as [|d' r'']; [done|]. by rewrite Hc', Hdot. }
rewrite nl_cons by (by eapply eqb_not_cr).
destruct r as [|d r'];
  [intros [= <- <-]; by rewrite nl_cons by (by eapply eqb_not_cr)|].
cbn [andb].
destruct (is_digit d) eqn:Hd.
- destruct (span_digits r') as [ds' rest'] eqn:Hr. intros [= <- <-].
  rewrite nl_cons by (by apply is_digit_not_cr).
  by rewrite Hdot, Hd, (span_digits_nl _ _ _ Hr).
- intros [= <- <-].
  destruct (nl_head is_digit d r' newline_free_digit)
    as (d' & r'' & Hnl & Hd' & _).
  rewrite (nl_cons c) by (by eapply eqb_not_cr).
  rewrite Hnl, Hdot, Hd', Hd. done.
Qed.

Lemma match_exp_nl (s exp rest : pystr) :
match_exp s = (exp, rest) → match_exp (nl s) = (exp, nl rest).
Proof.
unfold match_exp. destruct s as [|c r]; [by intros [= <- <-]|].
destruct ((c =? 101) || (c =? 69)) eqn:He; cycle 1.
{ intros [= <- <-].
  destruct (nl_head (λ x, (x =? 101) || (x =? 69)) c r)
    as (c' & r' & -> & Hc' & _); [done|].
  cbn beta in Hc'. by rewrite Hc', He. }
assert ((c =? 13) = false) as Hcr.
{ apply N.eqb_neq. intros ->. done. }
rewrite nl_cons, He by done.
destruct r as [|d r']; [intros [= <- <-]; by rewrite nl_cons|].
destruct ((d =? 45) || (d =? 43)) eqn:Hsign.
- assert ((d =? 13) = false) as Hdcr.
  { apply N.eqb_neq. intros ->. done. }
  rewrite nl_cons, Hsign by done.
  destruct (span_digits r') as [ds' rest'] eqn:Hr.
  rewrite (span_digits_nl _ _ _ Hr).
  destruct ds'; intros [= <- <-]; [|done].
  by rewrite (nl_cons c), (nl_cons d).
- destruct (nl_head (λ x, (x =? 45) || (x =? 43)) d r')
    as (d' & r'' & Hnl & Hd' & _); [done|].
  cbn beta in Hd'.
  destruct (span_digits (d :: r')) as [ds' rest'] eqn:Hr.
  apply span_digits_nl in Hr. rewrite Hnl in Hr |- *.
  rewrite Hd', Hsign, Hr.
  destruct ds'; intros [= <- <-]; [|done].
  by rewrite (nl_cons c), Hnl.
Qed.

Lemma match_number_nl (s : pystr) (v : json) (rest : pystr) :
match_number s = Some (v, rest) → match_number (nl s) = Some (v, nl rest).
Proof.
unfold match_number.
destruct (match_integer s) as [[[neg ds] r]|] eqn:Hint; [|done].
rewrite (match_integer_nl _ _ _ _ Hint).
destruct (match_frac r) as [frac r1] eqn:Hfrac.
rewrite (match_frac_nl _ _ _ Hfrac).
destruct (match_exp r1) as [exp r2] eqn:Hexp.
rewrite (match_exp_nl _ _ _ Hexp).
by destruct frac, exp; intros [= <- <-].
Qed.

Lemma startswith_nl (p s : pystr) :
forallb (λ x, negb (x =? 13) && negb (x =? 10)) p = true →
startswith p (nl s) = startswith p s.
Proof.
revert s. induction p as [|x p IH]; intros s Hp; [by destruct (nl s), s|].
cbn [forallb] in Hp. apply andb_prop in Hp as [Hx Hp].
apply andb_prop in Hx as [Hcr%negb_true_iff Hlf%negb_true_iff].
destruct s as [|y s]; [done|].
destruct (y =? 13) eqn:Hy.
- apply N.eqb_eq in Hy as ->. rewrite nl_cr. cbn [startswith].
  by rewrite Hcr, Hlf.
- rewrite nl_cons by done. cbn [startswith]. by rewrite IH.
Qed.

Lemma drop_nl (p s : pystr) :
forallb (λ x, negb (x =? 13) && negb (x =? 10)) p = true →
startswith p s = true →
drop (length p) (nl s) = nl (drop (length p) s).
Proof.
revert s. induction p as [|x p IH]; intros s Hp Hs; [done|].
cbn [forallb] in Hp. apply andb_prop in Hp as [Hx Hp].
apply andb_prop in Hx as [Hcr%negb_true_iff _].
destruct s as [|y s]; [done|]. cbn [startswith] in Hs.
apply andb_prop in Hs as [Hxy%N.eqb_eq Hs]. subst y.
rewrite nl_cons by done. cbn [length drop]. by apply IH.
Qed.

Lemma array_loop_nl (scan : pystr → outcome (json * pystr)) (fuel : nat) :
consuming scan → newline_blind scan →
∀ s acc v rest fuel',
  array_loop scan fuel s acc = Return (v, rest) →
  (length (nl s) ≤ fuel')%nat →
  array_loop scan fuel' (nl s) acc = Return (v, nl rest).
Proof.
intros Hcons Hblind.
induction fuel as [|fuel IH]; intros s acc v rest fuel'; [done|].
cbn [array_loop].
destruct (scan s) as [[val r]|e] eqn:Hval; [|done]. cbn [mbind outcome_bind].
apply Hblind in Hval. pose proof (Hcons _ _ _ Hval) as Hshort.
destruct (skip_ws r) as [|c r1] eqn:Hws; [done|].
pose proof (skip_ws_nl_cons _ _ _ Hws) as Hws'.
pose proof (skip_ws_length (nl r)) as Hlen. rewrite Hws' in Hlen.
intros Hrun Hfuel.
destruct fuel' as [|fuel']; [lia|].
cbn [array_loop]. rewrite Hval. cbn [mbind outcome_bind]. rewrite Hws'.
destruct (c =? 93); [by injection Hrun as <- <-|].
destruct (c =? 44); [|done].
rewrite skip_ws_nl. apply IH; [done|].
rewrite <- skip_ws_nl. pose proof (skip_ws_length (nl r1)).
simpl in Hlen. lia.
Qed.

Lemma parse_array_nl (scan : pystr → outcome (json * pystr)) :
consuming scan → newline_blind scan → newline_blind (parse_array scan).
Proof.
intros Hcons Hblind s v rest. unfold parse_array.
destruct (skip_ws s) as [|c r] eqn:Hws; [done|].
rewrite (skip_ws_nl_cons _ _ _ Hws).
destruct (c =? 93); [by intros [= <- <-]|].
intros Hrun.
assert (nl (c :: r) = c :: nl r) as Hnl.
{ apply nl_cons, is_ws_not_cr. by eapply skip_ws_head. }
rewrite <- Hnl. eapply array_loop_nl; [done|done|exact Hrun|].
by rewrite Hnl.
Qed.

Lemma object_loop_nl (scan : pystr → outcome (json * pystr)) (fuel : nat) :
consuming scan → newline_blind scan →
∀ s acc v rest fuel',
  object_loop scan true fuel s acc = Return (v, rest) →
  (length (nl s) ≤ fuel')%nat →
  object_loop scan true fuel' (nl s) acc = Return (v, nl rest).
Proof.
intros Hcons Hblind.
induction fuel as [|fuel IH]; intros s acc v rest fuel'; [done|].
cbn [object_loop].
destruct s as [|q r]; [done|].
destruct (q =? 34) eqn:Hq; [|done].
rewrite nl_cons by (by eapply eqb_not_cr).
destruct (scanstring true r) as [[key r1]|e] eqn:Hkey; [|done].
cbn [mbind outcome_bind].
apply scanstring_nl in Hkey. pose proof (scanstring_length _ _ _ _ Hkey) as Hk.
destruct (skip_ws r1) as [|c r2] eqn:Hws1; [done|].
pose proof (skip_ws_nl_cons _ _ _ Hws1) as Hws1'.
pose proof (skip_ws_length (nl r1)) as Hlen1. rewrite Hws1' in Hlen1.
destruct (c =? 58) eqn:Hc; [|done].
destruct (scan (skip_ws r2)) as [[val r3]|e] eqn:Hval; [|done].
cbn [mbind outcome_bind].
apply Hblind in Hval. rewrite <- skip_ws_nl in Hval.
pose proof (Hcons _ _ _ Hval) as Hshort.
pose proof (skip_ws_length (nl r2)) as Hlen2.
destruct (skip_ws r3) as [|d r4] eqn:Hws3; [done|].
pose proof (skip_ws_nl_cons _ _ _ Hws3) as Hws3'.
pose proof (skip_ws_length (nl r3)) as Hlen3. rewrite Hws3' in Hlen3.
intros Hrun Hfuel. simpl in Hfuel, Hlen1, Hlen3.
destruct fuel' as [|fuel']; [lia|].
cbn [object_loop]. rewrite Hq, Hkey. cbn [mbind outcome_bind].
rewrite Hws1', Hc, Hval. cbn [mbind outcome_bind]. rewrite Hws3'.
destruct (d =? 125); [by injection Hrun as <- <-|].
destruct (d =? 44); [|done].
rewrite skip_ws_nl. apply IH; [done|].
rewrite <- skip_ws_nl. pose proof (skip_ws_length (nl r4)). lia.
Qed.

Lemma parse_object_nl (scan : pystr → outcome (json * pystr)) :
consuming scan → newline_blind scan → newline_blind (parse_object scan true).
Proof.
intros Hcons Hblind s v rest. unfold parse_object.
destruct (skip_ws s) as [|c r] eqn:Hws; [done|].
rewrite (skip_ws_nl_cons _ _ _ Hws).
destruct (c =? 125); [by intros [= <- <-]|].
intros Hrun.
assert (nl (c :: r) = c :: nl r) as Hnl.
{ apply nl_cons, is_ws_not_cr. by eapply skip_ws_head. }
rewrite <- Hnl. eapply object_loop_nl; [done|done|exact Hrun|].
by rewrite Hnl.
Qed.

Lemma scan_once_cr (strict : bool) (limit : nat) (r : pystr) :
scan_once strict limit (13 :: r) = Raise JSONDecodeError.
Proof. by destruct limit. Qed.

#[local] Ltac literal p :=
let H := fresh "Hlit" in
destruct (startswith (py p) _) eqn:H;
  [intros [= <- <-]; f_equal; f_equal; by apply (drop_nl (py p))|].

Lemma scan_once_nl (limit : nat) : newline_blind (scan_once true limit).
Proof.
induction limit as [|limit IH]; intros s v rest;
  (destruct s as [|c r]; [done|]);
  (destruct (c =? 13) eqn:Hcr;
     [apply N.eqb_eq in Hcr as ->; by rewrite scan_once_cr|]);
  pose proof (nl_cons c r Hcr) as Hnl; rewrite Hnl;
  cbn [scan_once]; rewrite <- Hnl.
- destruct (c =? 34).
  { destruct (scanstring true r) as [[str r']|e] eqn:Hstr; [|done].
    intros [= <- <-]. by rewrite (scanstring_nl _ _ _ Hstr). }
  destruct (c =? 123); [done|]. destruct (c =? 91); [done|].
  rewrite !startswith_nl by done.
  literal "null". literal "true". literal "false". literal "NaN".
  literal "Infinity". literal "-Infinity".
  destruct (match_number (c :: r)) as [[v' r']|] eqn:Hnum; [|done].
  intros [= <- <-]. by rewrite (match_number_nl _ _ _ Hnum).
- destruct (c =? 34).
  { destruct (scanstring true r) as [[str r']|e] eqn:Hstr; [|done].
    intros [= <- <-]. by rewrite (scanstring_nl _ _ _ Hstr). }
  destruct (c =? 123).
  { apply parse_object_nl; [apply scan_once_consuming|done]. }
  destruct (c =? 91).
  { apply parse_array_nl; [apply scan_once_consuming|done]. }
  rewrite !startswith_nl by done.
  literal "null". literal "true". literal "false". literal "NaN".
  literal "Infinity". literal "-Infinity".
  destruct (match_number (c :: r)) as [[v' r']|] eqn:Hnum; [|done].
  intros [= <- <-]. by rewrite (match_number_nl _ _ _ Hnum).
Qed.

(** A text that the strict decoder accepts decodes to the same document
  once its newlines are translated. *)
Lemma loads_nl (limit : nat) (s : pystr) (d : json) :
loads limit true s = Return d → loads limit true (nl s) = Return d.
Proof.
unfold loads. rewrite (startswith_nl [65279]) by done.
destruct (startswith [65279] s); [done|].
destruct (scan_once true limit (skip_ws s)) as [[obj r]|e] eqn:Hscan; [|done].
apply scan_once_nl in Hscan. rewrite <- skip_ws_nl in Hscan.
rewrite Hscan. cbn [mbind outcome_bind].
destruct (skip_ws r) eqn:Hws; [|done].
by rewrite (skip_ws_nl_nil _ Hws).
Qed.

(** ** The fuel of the loops is never what stops them *)

Lemma array_loop_fuel (scan : pystr → outcome (json * pystr)) :
consuming scan → scan [] = Raise JSONDecodeError →
∀ fuel fuel' s acc,
  (length s ≤ fuel)%nat → (length s ≤ fuel')%nat →
  array_loop scan fuel s acc = array_loop scan fuel' s acc.
Proof.
intros Hcons Hnil. induction fuel as [|fuel IH]; intros fuel' s acc Hf Hf'.
{ destruct s; [|simpl in Hf; lia]. destruct fuel' as [|fuel']; [done|].
  cbn [array_loop]. by rewrite Hnil. }
destruct fuel' as [|fuel'].
{ destruct s; [|simpl in Hf'; lia]. cbn [array_loop]. by rewrite Hnil. }
cbn [array_loop]. destruct (scan s) as [[val r]|e] eqn:Hval; [|done].
cbn [mbind outcome_bind]. apply Hcons in Hval.
pose proof (skip_ws_length r) as Hr.
destruct (skip_ws r) as [|c r1]; [done|].
destruct (c =? 93); [done|]. destruct (c =? 44); [|done].
pose proof (skip_ws_length r1). simpl in Hr. apply IH; lia.
Qed.

Lemma object_loop_fuel (scan : pystr → outcome (json * pystr))
  (strict : bool) :
consuming scan →
∀ fuel fuel' s acc,
  (length s ≤ fuel)%nat → (length s ≤ fuel')%nat →
  object_loop scan strict fuel s acc = object_loop scan strict fuel' s acc.
Proof.
intros Hcons. induction fuel as [|fuel IH]; intros fuel' s acc Hf Hf'.
{ destruct s; [|simpl in Hf; lia]. by destruct fuel'. }
destruct fuel' as [|fuel'].
{ destruct s; [done|simpl in Hf'; lia]. }
cbn [object_loop]. destruct s as [|q r]; [done|].
destruct (q =? 34); [|done].
destruct (scanstring strict r) as [[key r1]|e] eqn:Hkey; [|done].
cbn [mbind outcome_bind]. apply scanstring_length in Hkey.
pose proof (skip_ws_length r1) as Hr1.
destruct (skip_ws r1) as [|c r2]; [done|]. destruct (c =? 58); [|done].
destruct (scan (skip_ws r2)) as [[val r3]|e] eqn:Hval; [|done].
cbn [mbind outcome_bind]. apply Hcons in Hval.
pose proof (skip_ws_length r2) as Hr2. pose proof (skip_ws_length r3) as Hr3.
destruct (skip_ws r3) as [|d r4]; [done|].
destruct (d =? 125); [done|]. destruct (d =? 44); [|done].
pose proof (skip_ws_length r4). simpl in *. apply IH; lia.
Qed.

End DecoderFacts.

(** ** The sanitizer *)

(** C9. Sanitizing twice is sanitizing once:
    [sanitize_json_string (sanitize_json_string s) = sanitize_json_string s]
    for every string [s]. *)
Theorem sanitize_json_string_idempotent (s : pystr) :
  sanitize_json_string (sanitize_json_string s) = sanitize_json_string s.
Proof.
  unfold sanitize_json_string at 1.
  apply str_replace_absent, sanitize_json_string_no_nul.
Qed.

(** ** The loader *)

Section LoaderFacts.

Context (json_loads : bool → pystr → outcome json) (w : world).

Lemma load_strategy_3_returns (path : pystr) (default : json) :
  ∃ v, (load_strategy_3 json_loads w path default).1 = Return v ∧
       (v = default ∨ parsed_from json_loads w path v).
Proof.
  unfold load_strategy_3.
  destruct (open_read w path Replace) as [s|e] eqn:Hread; simpl; [|eauto].
  destruct (json_loads false (sanitize_json_string s)) as [v|e] eqn:Hdec;
    simpl; [|eauto].
  exists v; split; [done|]. right; right; right. eauto.
Qed.

Lemma load_strategy_2_returns (path : pystr) (default : json) :
  ∃ v, (load_strategy_2 json_loads w path default).1 = Return v ∧
       (v = default ∨ parsed_from json_loads w path v).
Proof.
  destruct (load_strategy_3_returns path default) as (v3 & H3 & Hv3).
  unfold load_strategy_2.
  destruct (open_read w path Ignore) as [s|e] eqn:Hread; simpl.
  - destruct (json_loads false s) as [v|e] eqn:Hdec; simpl.
    + exists v; split; [done|]. right; right; left. eauto.
    + destruct (load_strategy_3 _ _ _ _) as [o l]; simpl in *; eauto.
  - destruct (load_strategy_3 _ _ _ _) as [o l]; simpl in *; eauto.
Qed.

(** C1. For every file path and every default, [load_json_safe]
    returns a value, never an exception, and the value is either a
    document that one of the strategies parsed from the file or the
    default of the caller.  This holds whatever the decoder and the
    file system do, any exception of theirs included. *)
Theorem load_json_safe_never_raises (path : pystr) (default : json) :
  ∃ v, (load_json_safe json_loads w path default).1 = Return v ∧
       (v = default ∨ parsed_from json_loads w path v).
Proof.
  destruct (load_strategy_2_returns path default) as (v2 & H2 & Hv2).
  unfold load_json_safe.
  destruct (os_path_exists w path); simpl; [|eauto].
  destruct (open_read w path Strict) as [s|e] eqn:Hread; simpl.
  - destruct (json_loads false s) as [v|e] eqn:Hdec; simpl.
    + exists v; split; [done|]. right; left. eauto.
    + destruct (load_strategy_2 _ _ _ _) as [o l].
      destruct e; simpl in *; eauto.
  - destruct (load_strategy_2 _ _ _ _) as [o l].
    destruct e; simpl in *; eauto.
Qed.

(** C8. For a path that does not exist, [load_json_safe] returns
    exactly the default.  No strategy runs: the only trace is the
    warning that the file was not found, and neither the decoder nor
    the content of the file system enters the result. *)
Theorem load_json_safe_missing_file (path : pystr) (default : json) :
  os_path_exists w path = false →
  load_json_safe json_loads w path default =
    (Return default, [(WARNING, FileNotFound path)]).
Proof. intros Hmissing. unfold load_json_safe. by rewrite Hmissing. Qed.

End LoaderFacts.

Lemma load_json_safe_missing_file_witness :
  os_path_exists no_file (py "/nonexistent/file.json") = false ∧
  load_json_safe loads100 no_file (py "/nonexistent/file.json") (JBool true) =
    (Return (JBool true),
     [(WARNING, FileNotFound (py "/nonexistent/file.json"))]).
Proof.
  split; [reflexivity|].
  apply (load_json_safe_missing_file loads100 no_file); reflexivity.
Defined.

(** ** The loader on well-formed files *)

Section LoaderOnFiles.

Context (limit : nat) (w : world).

Lemma open_read_file (path : pystr) (content : list byte) (t : pystr) :
  fs w path = Some (RegularFile true content) →
  utf8_decode Strict content = Return t →
  open_read w path Strict = Return (universal_newlines t).
Proof. intros Hfile Hdec. unfold open_read. by rewrite Hfile, Hdec. Qed.

(** C6. For a file whose bytes are the UTF-8 encoding of a text [t]
    that the standard decoder (strict, as it is by default) accepts
    with document [d], [load_json_safe] returns [d]: the first
    strategy succeeds, nothing is logged, and neither the permissive
    mode nor the text mode of the file changes the document. *)
Theorem load_json_safe_valid_file (path : pystr) (default : json)
    (content : list byte) (t : pystr) (d : json) :
  fs w path = Some (RegularFile true content) →
  utf8_decode Strict content = Return t →
  PyJson.loads limit true t = Return d →
  load_json_safe (PyJson.loads limit) w path default = (Return d, []).
Proof.
  intros Hfile Hutf8 Hjson.
  pose proof (open_read_file _ _ _ Hfile Hutf8) as Hread.
  unfold load_json_safe.
  rewrite (open_read_exists _ _ _ _ Hread), Hread. simpl.
  by rewrite (loads_strict _ _ _ (loads_nl _ _ _ Hjson)).
Qed.

(** C3, as amended. For a readable UTF-8 file whose text, once its
    NUL characters are removed, is valid JSON with document [d],
    [load_json_safe] returns a parsed document.  When the permissive
    decoder rejects the text as it is, the first two strategies fail,
    each with its warning, and the last-resort strategy returns [d],
    parsed from the sanitized text.  When the permissive decoder
    accepts the text as it is, the first strategy returns its own
    document and the sanitizer does not run. *)
Theorem load_json_safe_recovers_nul (path : pystr) (default : json)
    (s : pystr) (d : json) :
  open_read w path Strict = Return s →
  PyJson.loads limit true (sanitize_json_string s) = Return d →
  match PyJson.loads limit false s with
  | Return d1 =>
      load_json_safe (PyJson.loads limit) w path default = (Return d1, [])
  | Raise e =>
      load_json_safe (PyJson.loads limit) w path default =
        (Return d,
         [(WARNING,
           if isinstance e JSONDecodeErrorClass
           then JsonDecodeErrorIn path e else ErrorLoading path e);
          (WARNING, IgnoreStrategyFailed e)])
  end.
Proof.
  intros Hread Hjson. apply loads_strict in Hjson.
  unfold load_json_safe, load_strategy_2, load_strategy_3.
  rewrite (open_read_exists _ _ _ _ Hread), Hread.
  rewrite (open_read_strict _ _ Ignore _ Hread).
  rewrite (open_read_strict _ _ Replace _ Hread). simpl.
  destruct (PyJson.loads limit false s) as [d1|e]; [done|].
  rewrite Hjson. by destruct e.
Qed.

End LoaderOnFiles.

(** The file of [valid_json_file] decodes to the same document through
    the loader and through the strict decoder. *)
Lemma load_json_safe_valid_file_witness :
  fs (one_file (py "v.json") valid_json_file) (py "v.json") =
    Some (RegularFile true valid_json_file) ∧
  utf8_decode Strict valid_json_file =
    Return (ascii_text "{'test': 'data'," ++ [13; 10] ++
            ascii_text " 'price': '" ++ [0x20AC] ++ ascii_text "123'}") ∧
  PyJson.loads 100 true
    (ascii_text "{'test': 'data'," ++ [13; 10] ++
     ascii_text " 'price': '" ++ [0x20AC] ++ ascii_text "123'}") =
    Return (JDict (<[py "test" := JStr (py "data")]>
                     (<[py "price" := JStr (0x20AC :: py "123")]> ∅))) ∧
  load_json_safe (PyJson.loads 100) (one_file (py "v.json") valid_json_file)
    (py "v.json") JNull =
    (Return (JDict (<[py "test" := JStr (py "data")]>
                      (<[py "price" := JStr (0x20AC :: py "123")]> ∅))), []).
Proof.
  assert (fs (one_file (py "v.json") valid_json_file) (py "v.json") =
            Some (RegularFile true valid_json_file)) as Hfile
    by (vm_compute; reflexivity).
  assert (utf8_decode Strict valid_json_file =
            Return (ascii_text "{'test': 'data'," ++ [13; 10] ++
                    ascii_text " 'price': '" ++ [0x20AC] ++
                    ascii_text "123'}")) as Hutf8
    by (vm_compute; reflexivity).
  assert (PyJson.loads 100 true
            (ascii_text "{'test': 'data'," ++ [13; 10] ++
             ascii_text " 'price': '" ++ [0x20AC] ++ ascii_text "123'}") =
            Return (JDict (<[py "test" := JStr (py "data")]>
                      (<[py "price" := JStr (0x20AC :: py "123")]> ∅))))
    as Hjson by (vm_compute; reflexivity).
  split; [exact Hfile|]. split; [exact Hutf8|]. split; [exact Hjson|].
  exact (load_json_safe_valid_file 100 _ (py "v.json") JNull _ _ _
           Hfile Hutf8 Hjson).
Defined.

(** C3 fails as stated when the NUL sits inside a string literal: the
    text without its NUL is valid JSON, yet the document comes from the
    first strategy, with the NUL in it and no warning logged, and not
    from parsing the sanitized text. *)
Lemma nul_in_string_is_not_sanitized :
  open_read (one_file (py "n.json") nul_in_string) (py "n.json") Strict =
    Return [34; 97; 0; 98; 34] ∧
  PyJson.loads 100 true (sanitize_json_string [34; 97; 0; 98; 34]) =
    Return (JStr [97; 98]) ∧
  load_json_safe (PyJson.loads 100) (one_file (py "n.json") nul_in_string)
    (py "n.json") JNull = (Return (JStr [97; 0; 98]), []) ∧
  JStr [97; 0; 98] ≠ JStr [97; 98].
Proof. repeat split; try (vm_compute; reflexivity). discriminate. Qed.

(** A NUL between two tokens: the last-resort strategy recovers the
    document after two warnings. *)
Lemma load_json_safe_recovers_nul_witness :
  open_read (one_file (py "n.json") nul_between_tokens) (py "n.json") Strict =
    Return (decoded nul_between_tokens) ∧
  PyJson.loads 100 true (sanitize_json_string (decoded nul_between_tokens)) =
    Return (JDict (<[py "k" := JInt 1]> ∅)) ∧
  match PyJson.loads 100 false (decoded nul_between_tokens) with
  | Return d1 =>
      load_json_safe (PyJson.loads 100)
        (one_file (py "n.json") nul_between_tokens) (py "n.json") JNull =
        (Return d1, [])
  | Raise e =>
      load_json_safe (PyJson.loads 100)
        (one_file (py "n.json") nul_between_tokens) (py "n.json") JNull =
        (Return (JDict (<[py "k" := JInt 1]> ∅)),
         [(WARNING,
           if isinstance e JSONDecodeErrorClass
           then JsonDecodeErrorIn (py "n.json") e
           else ErrorLoading (py "n.json") e);
          (WARNING, IgnoreStrategyFailed e)])
  end.
Proof.
  assert (open_read (one_file (py "n.json") nul_between_tokens)
            (py "n.json") Strict = Return (decoded nul_between_tokens))
    as Hread by (vm_compute; reflexivity).
  assert (PyJson.loads 100 true
            (sanitize_json_string (decoded nul_between_tokens)) =
            Return (JDict (<[py "k" := JInt 1]> ∅)))
    as Hjson by (vm_compute; reflexivity).
  split; [exact Hread|]. split; [exact Hjson|].
  exact (load_json_safe_recovers_nul 100 _ (py "n.json") JNull _ _
           Hread Hjson).
Defined.

(** The same run, evaluated. *)
Example load_json_safe_nul_between_tokens :
  load_json_safe (PyJson.loads 100)
    (one_file (py "n.json") nul_between_tokens) (py "n.json") JNull =
    (Return (JDict (<[py "k" := JInt 1]> ∅)),
     [(WARNING, JsonDecodeErrorIn (py "n.json") JSONDecodeError);
      (WARNING, IgnoreStrategyFailed JSONDecodeError)]).
Proof. vm_compute. reflexivity. Qed.

(** ** The JSONL validator *)

Section JsonlFacts.

Context (json_loads : bool → pystr → outcome json) (w : world).

Lemma Forall_scannable (lines : list (nat * pystr)) :
  forallb (scannableb json_loads) lines = true → Forall (scannable json_loads) lines.
Proof.
  intros Hall. apply Forall_forall. intros il Hin%list_elem_of_In.
  rewrite forallb_forall in Hall. specialize (Hall il Hin).
  unfold scannableb in Hall. unfold scannable.
  destruct (is_blank il.2); [by left|].
  destruct (is_valid_json json_loads il.2); [by right; left|].
  by right; right.
Qed.

Lemma malformed_numbers_cons (il : nat * pystr) (lines : list (nat * pystr)) :
  malformed_numbers json_loads (il :: lines) =
    if is_malformed json_loads il.2
    then il.1 :: malformed_numbers json_loads lines
    else malformed_numbers json_loads lines.
Proof.
  unfold malformed_numbers. rewrite filter_cons.
  destruct (decide _) as [Hmal|Hmal]; simpl in Hmal.
  - by rewrite Hmal.
  - by apply not_true_is_false in Hmal as ->.
Qed.

(** The numbers recorded are the positions, counted from [start], of
    the malformed lines, and they come in increasing order. *)
Lemma elem_of_malformed_numbers (start : nat) (lines : list pystr) (n : nat) :
  n ∈ malformed_numbers json_loads (enumerate start lines) ↔
  (start ≤ n)%nat ∧
  ∃ line, lines !! (n - start)%nat = Some line ∧
          is_malformed json_loads line = true.
Proof.
  revert start. induction lines as [|l lines IH]; intros start.
  { split; [by intros ?%elem_of_nil|by intros (_ & ? & ? & _)]. }
  cbn [enumerate]. rewrite malformed_numbers_cons. cbn [fst snd].
  assert (n ∈ malformed_numbers json_loads (enumerate (S start) lines) ↔
          (start < n)%nat ∧
          ∃ line, (l :: lines) !! (n - start)%nat = Some line ∧
                  is_malformed json_loads line = true) as Htail.
  { rewrite IH. split.
    - intros (Hle & line & Hline & Hmal). split; [lia|].
      exists line. split; [|done].
      by replace (n - start)%nat with (S (n - S start)) by lia.
    - intros (Hlt & line & Hline & Hmal). split; [lia|].
      exists line. split; [|done].
      by replace (n - start)%nat with (S (n - S start)) in Hline by lia. }
  destruct (is_malformed json_loads l) eqn:Hl.
  - rewrite elem_of_cons, Htail. split.
    + intros [->|(Hlt & Hex)]; [|split; [lia|done]].
      split; [done|]. exists l. by rewrite Nat.sub_diag.
    + intros (Hle & line & Hline & Hmal).
      destruct (decide (n = start)) as [->|Hne]; [by left|right].
      split; [lia|]. by exists line.
  - rewrite Htail. split.
    + intros (Hlt & Hex). split; [lia|done].
    + intros (Hle & line & Hline & Hmal).
      destruct (decide (n = start)) as [->|Hne].
      * rewrite Nat.sub_diag in Hline. simpl in Hline. congruence.
      * split; [lia|]. by exists line.
Qed.

Lemma malformed_numbers_increasing (start : nat) (lines : list pystr) :
  StronglySorted lt (malformed_numbers json_loads (enumerate start lines)).
Proof.
  revert start. induction lines as [|l lines IH]; intros start.
  { constructor. }
  cbn [enumerate]. rewrite malformed_numbers_cons. cbn [fst snd].
  destruct (is_malformed json_loads l); [|apply IH].
  constructor; [apply IH|].
  apply Forall_forall. intros n Hn%elem_of_malformed_numbers. lia.
Qed.

(** How one line moves the loop, by the kind of the line. *)
Lemma jsonl_loop_skip (max_errors : Z) (i : nat) (line : pystr)
    (rest : list (nat * pystr)) (acc : list nat) :
  is_blank line = true ∨ is_valid_json json_loads line = true →
  jsonl_loop json_loads max_errors ((i, line) :: rest) acc =
    jsonl_loop json_loads max_errors rest acc.
Proof.
  unfold is_blank, is_valid_json. simpl.
  destruct (str_truthy (strip line)); simpl; [|done].
  intros [?|Hvalid]; [done|].
  by destruct (json_loads false line).
Qed.

Lemma is_malformed_inv (line : pystr) :
  is_malformed json_loads line = true →
  str_truthy (strip line) = true ∧
  json_loads false line = Raise JSONDecodeError.
Proof.
  unfold is_malformed, is_blank. rewrite negb_involutive.
  intros [Hblank Hdec]%andb_prop. split; [done|].
  destruct (json_loads false line) as [|e]; [done|].
  by apply isinstance_JSONDecodeError in Hdec as ->.
Qed.

Lemma not_malformed (il : nat * pystr) :
  is_blank il.2 = true ∨ is_valid_json json_loads il.2 = true →
  is_malformed json_loads il.2 = false.
Proof.
  unfold is_malformed, is_valid_json.
  intros [->|Hvalid]; [done|].
  destruct (json_loads false il.2); [|done].
  by rewrite andb_false_r.
Qed.

Lemma jsonl_loop_error_continue (max_errors : Z) (i : nat) (line : pystr)
    (rest : list (nat * pystr)) (acc : list nat) :
  is_malformed json_loads line = true →
  (Z.of_nat (length (acc ++ [i])) < max_errors)%Z →
  jsonl_loop json_loads max_errors ((i, line) :: rest) acc =
    (logger DEBUG (LineHasJsonError i JSONDecodeError) ;;
     jsonl_loop json_loads max_errors rest (acc ++ [i])).
Proof.
  intros [Hblank Hdec]%is_malformed_inv Hroom. simpl.
  rewrite Hblank, Hdec. simpl.
  destruct (Z.geb_spec (Z.of_nat (length (acc ++ [i]))) max_errors); [lia|].
  done.
Qed.

Lemma jsonl_loop_error_break (max_errors : Z) (i : nat) (line : pystr)
    (rest : list (nat * pystr)) (acc : list nat) :
  is_malformed json_loads line = true →
  (max_errors ≤ Z.of_nat (length (acc ++ [i])))%Z →
  jsonl_loop json_loads max_errors ((i, line) :: rest) acc =
    ((acc ++ [i], Return tt),
     [(DEBUG, LineHasJsonError i JSONDecodeError);
      (WARNING, StoppedValidation max_errors)]).
Proof.
  intros [Hblank Hdec]%is_malformed_inv Hfull. simpl.
  rewrite Hblank, Hdec. simpl.
  destruct (Z.geb_spec (Z.of_nat (length (acc ++ [i]))) max_errors); [|lia].
  done.
Qed.

(** Within the budget, the loop records exactly the malformed lines. *)
Lemma jsonl_loop_within_budget (max_errors : Z)
    (lines : list (nat * pystr)) (acc : list nat) :
  Forall (scannable json_loads) lines →
  (Z.of_nat (length acc + length (malformed_numbers json_loads lines))
     ≤ max_errors)%Z →
  (jsonl_loop json_loads max_errors lines acc).1 =
    (acc ++ malformed_numbers json_loads lines, Return tt).
Proof.
  intros Hlines. revert acc.
  induction Hlines as [|[i line] rest Hline _ IH]; intros acc Hbudget.
  { simpl. by rewrite app_nil_r. }
  rewrite malformed_numbers_cons in Hbudget |- *.
  cbn [fst snd] in Hbudget, Hline |- *.
  destruct (is_malformed json_loads line) eqn:Hmal.
  - simpl in Hbudget.
    destruct (Z.lt_ge_cases (Z.of_nat (length (acc ++ [i]))) max_errors)
      as [Hroom|Hfull].
    + rewrite jsonl_loop_error_continue by done.
      specialize (IH (acc ++ [i])).
      destruct (jsonl_loop _ _ rest _) as [r l]; simpl in *.
      rewrite IH, <- app_assoc; [done|]. rewrite length_app; simpl. lia.
    + rewrite jsonl_loop_error_break by done. simpl.
      rewrite length_app in Hfull; simpl in Hfull.
      assert (malformed_numbers json_loads rest = []) as ->
        by (apply length_zero_iff_nil; lia).
      done.
  - rewrite jsonl_loop_skip; [by apply IH|].
    destruct Hline as [?|[?|?]]; simpl in *; [tauto|tauto|congruence].
Qed.

(** At the budget, the loop stops on the malformed line that fills it:
    nothing after that line is read. *)
Lemma jsonl_loop_stops_at_budget (max_errors : Z)
    (pre : list (nat * pystr)) (i : nat) (line : pystr)
    (rest : list (nat * pystr)) (acc : list nat) :
  Forall (scannable json_loads) pre →
  is_malformed json_loads line = true →
  (malformed_numbers json_loads pre = [] ∨
   Z.of_nat (length acc + length (malformed_numbers json_loads pre))
     < max_errors)%Z →
  (max_errors ≤
   Z.of_nat (length acc + length (malformed_numbers json_loads pre)) + 1)%Z →
  let run := jsonl_loop json_loads max_errors (pre ++ (i, line) :: rest) acc in
  run.1 = (acc ++ malformed_numbers json_loads pre ++ [i], Return tt) ∧
  stopped_early run.2 = true.
Proof.
  intros Hpre Hmal. revert acc.
  induction Hpre as [|[j l] pre' Hj _ IH]; intros acc Hroom Hfull;
    cbn zeta.
  { rewrite app_nil_l, jsonl_loop_error_break; [done|done|].
    rewrite length_app; simpl in *. lia. }
  rewrite malformed_numbers_cons in Hroom, Hfull |- *.
  cbn [fst snd] in Hroom, Hfull, Hj |- *.
  rewrite <- app_comm_cons.
  destruct (is_malformed json_loads l) eqn:Hl.
  - destruct Hroom as [?|Hroom]; [done|]. simpl in Hroom, Hfull.
    rewrite jsonl_loop_error_continue;
      [|done|rewrite length_app; simpl; lia].
    destruct (IH (acc ++ [j])) as [IH1 IH2].
    { right. rewrite length_app; simpl. lia. }
    { rewrite length_app; simpl. lia. }
    destruct (jsonl_loop _ _ (pre' ++ _) _) as [r lg]; simpl in *.
    rewrite IH1, <- app_assoc. done.
  - rewrite jsonl_loop_skip; [by apply IH|].
    destruct Hj as [?|[?|?]]; simpl in *; [tauto|tauto|congruence].
Qed.

End JsonlFacts.

Section JsonlProperties.

Context (json_loads : bool → pystr → outcome json) (w : world).

(** C2, as amended. [validate_jsonl_file] always returns a pair, and
    its boolean is true exactly when the file was scanned to the end
    without an exception and no line number was recorded.  For a file
    that is missing or whose reading fails the boolean is false even
    when the list is empty. *)
Theorem validate_jsonl_file_validity (path : pystr) (max_errors : Z) :
  ∃ (is_valid : bool) (error_lines : list nat),
    (validate_jsonl_file json_loads w path max_errors).1 =
      Return (is_valid, error_lines) ∧
    (is_valid = true ↔
     scan_completes json_loads w path max_errors ∧ error_lines = []).
Proof.
  unfold validate_jsonl_file, scan_completes.
  destruct (os_path_exists w path) eqn:Hexists; simpl.
  { destruct (open_read w path Ignore) as [text|e] eqn:Hread; simpl.
    - destruct (jsonl_loop _ _ _ _) as [[errs [[]|e]] lg] eqn:Hloop; simpl.
      + destruct errs as [|n errs]; simpl.
        * exists true, []. split; [done|]. split; [|done].
          intros _. split; [|done]. exists text. by rewrite Hloop.
        * exists false, (n :: errs). split; [done|].
          split; [done|]. by intros [_ ?].
      + exists false, errs. split; [done|]. split; [done|].
        intros [(text' & [= <-] & Hend) _]. by rewrite Hloop in Hend.
    - exists false, []. split; [done|]. split; [done|].
      by intros [(text & ? & _) _]. }
  exists false, []. split; [done|]. split; [done|].
  intros [(text & Hread & _) _].
  by rewrite missing_file_unreadable in Hread.
Qed.

(** C4, as amended. For a readable JSONL file in which every line is
    blank, accepted by the decoder, or rejected by it with a
    [JSONDecodeError] (no line makes the decoder raise anything else),
    with [K] malformed lines and [K ≤ max_errors],
    [validate_jsonl_file] returns [(K == 0, numbers)] where [numbers]
    are the 1-based numbers of the malformed lines in file order; the
    list has at most [max_errors] entries. *)
Theorem validate_jsonl_file_reports_malformed (path : pystr)
    (max_errors : Z) (text : pystr) :
  open_read w path Ignore = Return text →
  Forall (scannable json_loads) (enumerate 1 (readlines text)) →
  (Z.of_nat (length (malformed_numbers json_loads
                       (enumerate 1 (readlines text)))) ≤ max_errors)%Z →
  ∃ error_lines : list nat,
    (validate_jsonl_file json_loads w path max_errors).1 =
      Return (Nat.eqb (length error_lines) 0, error_lines) ∧
    error_lines =
      malformed_numbers json_loads (enumerate 1 (readlines text)) ∧
    (Z.of_nat (length error_lines) ≤ max_errors)%Z.
Proof.
  intros Hread Hlines Hbudget.
  exists (malformed_numbers json_loads (enumerate 1 (readlines text))).
  split; [|done].
  unfold validate_jsonl_file.
  rewrite (open_read_exists _ _ _ _ Hread), Hread. simpl.
  pose proof (jsonl_loop_within_budget json_loads max_errors _ []
                Hlines Hbudget) as Hloop.
  destruct (jsonl_loop _ _ _ _) as [[errs ended] lg].
  simpl in Hloop. injection Hloop as -> ->. simpl.
  by destruct (malformed_numbers _ _).
Qed.

(** C5, as amended. When the malformed line [line], numbered [i],
    brings the number of recorded lines to the budget (to one for a
    budget below one), and the lines before it are blank, accepted, or
    rejected with a [JSONDecodeError], the scan stops there: whatever
    follows in the file is not read.  The function raises nothing and
    returns the ordinary pair, with validity false and the numbers
    recorded so far, that of [line] last; that the scan was cut short
    is told by a warning in the log, and the pair has no component for
    it. *)
Theorem validate_jsonl_file_stops_at_budget (path : pystr)
    (max_errors : Z) (text : pystr) (pre : list (nat * pystr))
    (i : nat) (line : pystr) (rest : list (nat * pystr)) :
  open_read w path Ignore = Return text →
  enumerate 1 (readlines text) = pre ++ (i, line) :: rest →
  Forall (scannable json_loads) pre →
  is_malformed json_loads line = true →
  (Z.of_nat (length (malformed_numbers json_loads pre)) + 1
     = Z.max 1 max_errors)%Z →
  (validate_jsonl_file json_loads w path max_errors).1 =
    Return (false, malformed_numbers json_loads pre ++ [i]) ∧
  stopped_early (validate_jsonl_file json_loads w path max_errors).2 = true.
Proof.
  intros Hread Hsplit Hpre Hmal Hcount.
  unfold validate_jsonl_file.
  rewrite (open_read_exists _ _ _ _ Hread), Hread, Hsplit. simpl.
  destruct (jsonl_loop_stops_at_budget json_loads max_errors pre i line
              rest [] Hpre Hmal) as [Hrun Hlog].
  { destruct (malformed_numbers json_loads pre); [by left|right].
    simpl in *. lia. }
  { simpl. lia. }
  destruct (jsonl_loop _ _ _ _) as [[errs ended] lg].
  simpl in Hrun, Hlog. injection Hrun as -> ->. simpl.
  assert (length (malformed_numbers json_loads pre ++ [i]) ≠ 0%nat) as Hne
    by (rewrite length_app; simpl; lia).
  apply Nat.eqb_neq in Hne. rewrite Hne. simpl.
  split; [done|].
  unfold stopped_early in *. rewrite !existsb_app, Hlog. done.
Qed.

End JsonlProperties.

(** The run of [verify_fix.py]: lines 2 and 4 are reported. *)
Example validate_jsonl_file_mixed :
  (validate_jsonl_file loads100 (one_file (py "t.jsonl") mixed_jsonl)
     (py "t.jsonl") 10).1 = Return (false, [2; 4]%nat).
Proof. vm_compute. reflexivity. Qed.

Lemma validate_jsonl_file_reports_malformed_witness :
  open_read (one_file (py "t.jsonl") mixed_jsonl) (py "t.jsonl") Ignore =
    Return (decoded mixed_jsonl) ∧
  Forall (scannable loads100) (enumerate 1 (readlines (decoded mixed_jsonl))) ∧
  (Z.of_nat (length (malformed_numbers loads100
                       (enumerate 1 (readlines (decoded mixed_jsonl))))) ≤ 10)%Z ∧
  ∃ error_lines : list nat,
    (validate_jsonl_file loads100 (one_file (py "t.jsonl") mixed_jsonl)
       (py "t.jsonl") 10).1 =
      Return (Nat.eqb (length error_lines) 0, error_lines) ∧
    error_lines =
      malformed_numbers loads100
        (enumerate 1 (readlines (decoded mixed_jsonl))) ∧
    (Z.of_nat (length error_lines) ≤ 10)%Z.
Proof.
  assert (open_read (one_file (py "t.jsonl") mixed_jsonl) (py "t.jsonl") Ignore
          = Return (decoded mixed_jsonl)) as Hread
    by (vm_compute; reflexivity).
  assert (Forall (scannable loads100)
            (enumerate 1 (readlines (decoded mixed_jsonl)))) as Hlines
    by (apply Forall_scannable; vm_compute; reflexivity).
  assert (Z.of_nat (length (malformed_numbers loads100
            (enumerate 1 (readlines (decoded mixed_jsonl))))) ≤ 10)%Z as Hbudget
    by (vm_compute; discriminate).
  split; [exact Hread|]. split; [exact Hlines|]. split; [exact Hbudget|].
  exact (validate_jsonl_file_reports_malformed loads100 _ _ _ _
           Hread Hlines Hbudget).
Defined.

(** C2 fails as stated: for a missing file the list of line numbers is
    empty and yet the boolean is false. *)
Lemma validity_is_false_for_a_missing_file :
  ∃ (is_valid : bool) (error_lines : list nat),
    (validate_jsonl_file loads100 no_file (py "missing.jsonl") 10).1 =
      Return (is_valid, error_lines) ∧
    ¬ (is_valid = true ↔ error_lines = []).
Proof.
  exists false, []. split; [reflexivity|].
  intros [_ Hvalid]. discriminate (Hvalid eq_refl).
Qed.

(** C4 fails as stated.  The file [deep_jsonl] has three lines: [x],
    a line of 101 nested arrays, and [y].  Lines 1 and 3 are malformed,
    so that [K = 2], within the budget of 10, and line 2 is valid JSON:
    a decoder with room for its nesting accepts it.  The decoder of the
    run has room for a hundred containers and raises [RecursionError]
    on line 2, as the decoder of CPython does at its own limit.  The
    handler of [Exception] around the loop ends the scan there: the
    function returns [(False, [1])], not [(False, [1, 3])], and line 3
    is never read. *)
Lemma deep_line_ends_the_scan :
  let lines := enumerate 1 (readlines (decoded deep_jsonl)) in
  lines = [(1%nat, ascii_text "x" ++ [10]); (2%nat, deep_line);
           (3%nat, ascii_text "y" ++ [10])] ∧
  malformed_numbers loads100 lines = [1; 3]%nat ∧
  is_valid_json (PyJson.loads 101) deep_line = true ∧
  loads100 false deep_line = Raise RecursionError ∧
  validate_jsonl_file loads100 (one_file (py "d.jsonl") deep_jsonl)
    (py "d.jsonl") 10 =
    (Return (false, [1%nat]),
     [(DEBUG, LineHasJsonError 1 JSONDecodeError);
      (ERROR, ErrorReading (py "d.jsonl") RecursionError)]) ∧
  (validate_jsonl_file loads100 (one_file (py "d.jsonl") deep_jsonl)
     (py "d.jsonl") 10).1 ≠
    Return (Nat.eqb (length (malformed_numbers loads100 lines)) 0,
            malformed_numbers loads100 lines).
Proof.
  cbv zeta.
  split; [by vm_compute|]. split; [by vm_compute|]. split; [by vm_compute|].
  split; [by vm_compute|]. split; [by vm_compute|].
  intros Habs. vm_compute in Habs. discriminate Habs.
Qed.

(** C5 fails as stated, on both counts.  First, the scan need not stop
    at the budget: in [deep_jsonl] the malformed lines are 1 and 3, as
    many as a budget of 2, but line 2 makes the decoder raise a
    [RecursionError]; the scan ends there, the function returns
    [(False, [1])] and no stop is reported.  Second, when the scan does
    stop at the budget, the returned pair has no flag for it: with
    budget 1 the scan of [two_bad_lines] is cut short after line 1,
    with budget 2 the scan of [one_bad_line] reads the whole file, and
    both return [(False, [1])]; only the warning in the log differs.
    A caller can tell the two apart by comparing the length of the
    list with the budget it passed, not by the value alone. *)
Lemma budget_stop_is_neither_sure_nor_flagged :
  (let lines := enumerate 1 (readlines (decoded deep_jsonl)) in
   let run := validate_jsonl_file loads100
                (one_file (py "d.jsonl") deep_jsonl) (py "d.jsonl") 2 in
   malformed_numbers loads100 lines = [1; 3]%nat ∧
   run.1 = Return (false, [1%nat]) ∧ stopped_early run.2 = false) ∧
  (let cut := validate_jsonl_file loads100
                (one_file (py "t.jsonl") two_bad_lines) (py "t.jsonl") 1 in
   let whole := validate_jsonl_file loads100
                  (one_file (py "t.jsonl") one_bad_line) (py "t.jsonl") 2 in
   cut.1 = Return (false, [1%nat]) ∧ stopped_early cut.2 = true ∧
   whole.1 = Return (false, [1%nat]) ∧ stopped_early whole.2 = false).
Proof. split; by vm_compute. Qed.

Lemma validate_jsonl_file_stops_at_budget_witness :
  open_read (one_file (py "t.jsonl") mixed_jsonl) (py "t.jsonl") Ignore =
    Return (decoded mixed_jsonl) ∧
  enumerate 1 (readlines (decoded mixed_jsonl)) =
    [(1%nat, mixed_line1)] ++ (2%nat, mixed_line2) :: mixed_rest ∧
  Forall (scannable loads100) [(1%nat, mixed_line1)] ∧
  is_malformed loads100 mixed_line2 = true ∧
  (Z.of_nat (length (malformed_numbers loads100 [(1%nat, mixed_line1)])) + 1
     = Z.max 1 1)%Z ∧
  (validate_jsonl_file loads100 (one_file (py "t.jsonl") mixed_jsonl)
     (py "t.jsonl") 1).1 =
    Return (false,
            malformed_numbers loads100 [(1%nat, mixed_line1)] ++ [2%nat]) ∧
  stopped_early
    (validate_jsonl_file loads100 (one_file (py "t.jsonl") mixed_jsonl)
       (py "t.jsonl") 1).2 = true.
Proof.
  assert (open_read (one_file (py "t.jsonl") mixed_jsonl) (py "t.jsonl") Ignore
          = Return (decoded mixed_jsonl))
    as Hread by (vm_compute; reflexivity).
  assert (enumerate 1 (readlines (decoded mixed_jsonl)) =
            [(1%nat, mixed_line1)] ++ (2%nat, mixed_line2) :: mixed_rest)
    as Hsplit by (vm_compute; reflexivity).
  assert (Forall (scannable loads100) [(1%nat, mixed_line1)]) as Hpre
    by (apply Forall_scannable; vm_compute; reflexivity).
  assert (is_malformed loads100 mixed_line2 = true) as Hmal
    by (vm_compute; reflexivity).
  assert (Z.of_nat (length (malformed_numbers loads100
                              [(1%nat, mixed_line1)])) + 1
          = Z.max 1 1)%Z as Hcount by (vm_compute; reflexivity).
  split; [exact Hread|]. split; [exact Hsplit|]. split; [exact Hpre|].
  split; [exact Hmal|]. split; [exact Hcount|].
  exact (validate_jsonl_file_stops_at_budget loads100
           (one_file (py "t.jsonl") mixed_jsonl) (py "t.jsonl") 1
           (decoded mixed_jsonl) [(1%nat, mixed_line1)] 2 mixed_line2
           mixed_rest Hread Hsplit Hpre Hmal Hcount).
Defined.

(** ** The directory report *)

Section DirectoryFacts.

Context (json_loads : bool → pystr → outcome json) (w : world).

Lemma validate_json_file_returns (path : pystr) :
  ∃ ok : bool, (validate_json_file json_loads w path).1 = Return ok.
Proof.
  unfold validate_json_file.
  destruct (os_path_exists w path); simpl; [|eauto].
  destruct (open_read w path Strict) as [s|e]; simpl.
  - destruct (json_loads true s) as [v|e]; simpl; [eauto|].
    destruct e; simpl; eauto.
  - destruct e; simpl; eauto.
Qed.

Lemma validate_jsonl_file_returns (path : pystr) (max_errors : Z) :
  ∃ (ok : bool) (error_lines : list nat),
    (validate_jsonl_file json_loads w path max_errors).1 =
      Return (ok, error_lines).
Proof.
  unfold validate_jsonl_file.
  destruct (os_path_exists w path); simpl; [|eauto].
  destruct (open_read w path Ignore) as [text|e]; simpl; [|eauto].
  destruct (jsonl_loop _ _ _ _) as [[errs [[]|e]] lg]; simpl; [|eauto].
  destruct errs; simpl; eauto.
Qed.

Lemma initial_results_consistent :
  results_consistent (Results true (FileStats 0 0 []) (FileStats 0 0 [])).
Proof. by repeat split. Qed.

(** One file keeps the report consistent, whatever its name. *)
Lemma visit_file_consistent (root file : pystr) (res : results) :
  results_consistent res →
  ∃ res', (visit_file json_loads w root file res).1 = Return res' ∧
          results_consistent res'.
Proof.
  intros (Hjs & Hjl & Hflag). unfold visit_file.
  destruct (endswith (py ".json") file).
  - destruct (validate_json_file_returns (os_path_join root file)) as [ok Hok].
    destruct (validate_json_file _ _ _) as [o lg]. simpl in Hok. subst o.
    destruct ok; simpl; eexists; (split; [done|]).
    + unfold results_consistent, stats_consistent in *; simpl. split; [lia|done].
    + unfold results_consistent, stats_consistent in *; simpl.
      rewrite length_app; simpl. split; [lia|]. split; [done|].
      split; [done|]. intros [Habs _]. by destruct (invalid (json_files res)).
  - destruct (endswith (py ".jsonl") file);
      [|simpl; exists res; split;
        [done|exact (conj Hjs (conj Hjl Hflag))]].
    destruct (validate_jsonl_file_returns (os_path_join root file)
                default_max_errors) as (ok & errs & Hok).
    destruct (validate_jsonl_file _ _ _ _) as [o lg]. simpl in Hok. subst o.
    destruct ok; simpl; eexists; (split; [done|]).
    + unfold results_consistent, stats_consistent in *; simpl.
      split; [done|]. split; [lia|done].
    + unfold results_consistent, stats_consistent in *; simpl.
      rewrite length_app; simpl. split; [done|]. split; [lia|].
      split; [done|]. intros [_ Habs]. by destruct (invalid (jsonl_files res)).
Qed.

Lemma visit_files_consistent (root : pystr) (files : list pystr)
    (res : results) :
  results_consistent res →
  ∃ res', (visit_files json_loads w root files res).1 = Return res' ∧
          results_consistent res'.
Proof.
  revert res. induction files as [|file rest IH]; intros res Hres; simpl.
  { eauto. }
  destruct (visit_file_consistent root file res Hres) as (res1 & Hrun & Hres1).
  destruct (visit_file _ _ _ _ _) as [o lg]. simpl in Hrun. subst o.
  destruct (IH res1 Hres1) as (res2 & Hrun & Hres2). simpl.
  destruct (visit_files _ _ _ _ _) as [o lg']. simpl in *. eauto.
Qed.

Lemma visit_dirs_consistent (walk : list (pystr * list pystr * list pystr))
    (res : results) :
  results_consistent res →
  ∃ res', (visit_dirs json_loads w walk res).1 = Return res' ∧
          results_consistent res'.
Proof.
  revert res.
  induction walk as [|[[root dirs] files] rest IH]; intros res Hres; simpl.
  { eauto. }
  destruct (visit_files_consistent root files res Hres)
    as (res1 & Hrun & Hres1).
  destruct (visit_files _ _ _ _ _) as [o lg]. simpl in Hrun. subst o.
  destruct (IH res1 Hres1) as (res2 & Hrun & Hres2). simpl.
  destruct (visit_dirs _ _ _ _) as [o lg']. simpl in *. eauto.
Qed.

(** C10. For an existing directory, [validate_data_directory] returns
    a report in which, for the [.json] files and for the [.jsonl]
    files, the total is the number of valid files plus the length of
    the list of invalid ones, and whose ["valid"] flag is true exactly
    when both lists are empty. *)
Theorem validate_data_directory_consistent (data_dir : pystr) :
  os_path_exists w data_dir = true →
  ∃ r : results,
    (validate_data_directory json_loads w data_dir).1 = Return (Report r) ∧
    total (json_files r) =
      (valid (json_files r) + length (invalid (json_files r)))%nat ∧
    total (jsonl_files r) =
      (valid (jsonl_files r) + length (invalid (jsonl_files r)))%nat ∧
    (results_valid r = true ↔
     invalid (json_files r) = [] ∧ invalid (jsonl_files r) = []).
Proof.
  intros Hexists. unfold validate_data_directory. rewrite Hexists. simpl.
  destruct (visit_dirs_consistent (os_walk w data_dir) _
              initial_results_consistent) as (r & Hrun & Hr).
  destruct (visit_dirs _ _ _ _) as [o lg]. simpl in Hrun. subst o.
  exists r. split; [done|]. exact Hr.
Qed.

End DirectoryFacts.

(** The report on [sample_tree]. *)
Example validate_data_directory_sample :
  (validate_data_directory loads100 sample_tree (py "data")).1 =
    Return (Report (Results false
      (FileStats 1 1 [])
      (FileStats 1 0 [(py "data/b.jsonl", [2%nat])]))).
Proof. vm_compute. reflexivity. Qed.

Lemma validate_data_directory_consistent_witness :
  os_path_exists sample_tree (py "data") = true ∧
  ∃ r : results,
    (validate_data_directory loads100 sample_tree (py "data")).1 =
      Return (Report r) ∧
    total (json_files r) =
      (valid (json_files r) + length (invalid (json_files r)))%nat ∧
    total (jsonl_files r) =
      (valid (jsonl_files r) + length (invalid (jsonl_files r)))%nat ∧
    (results_valid r = true ↔
     invalid (json_files r) = [] ∧ invalid (jsonl_files r) = []).
Proof.
  split; [reflexivity|].
  apply (validate_data_directory_consistent loads100 sample_tree (py "data")).
  reflexivity.
Defined.

(** ** The range filter *)

Section RangeFilterFacts.

Context (float_is_zero : pystr → bool).

Lemma filter_item_kept (start_date end_date : pystr) (item : pystr * json)
    (acc : gmap pystr json) :
  (in_range start_date end_date item.1 = true → has_len item.2 = true) →
  filter_item start_date end_date item acc =
    Return (if decide (kept start_date end_date item)
            then <[item.1 := item.2]> acc else acc).
Proof.
  destruct item as [key value]. unfold filter_item.
  fold (in_range start_date end_date key). cbn [fst snd]. intros Hlen.
  destruct (decide (kept start_date end_date (key, value)))
    as [[Hin Hne]|Hnot]; cbn [fst snd] in *.
  - rewrite Hin. unfold non_empty in Hne.
    destruct (py_len value) as [n|e]; [|done]. simpl. by rewrite Hne.
  - destruct (in_range start_date end_date key) eqn:Hin; [|done].
    specialize (Hlen eq_refl). unfold has_len in Hlen.
    destruct (py_len value) as [n|e] eqn:Hn; [|done]. simpl.
    destruct (Nat.ltb 0 n) eqn:Hpos; [|done].
    exfalso. apply Hnot. split; [done|]. unfold non_empty.
    cbn [fst snd]. by rewrite Hn.
Qed.

(** The loop over the items builds the filtered mapping on top of what
    it starts from. *)
Lemma filter_items_spec (start_date end_date : pystr)
    (items : list (pystr * json)) (acc : gmap pystr json) :
  NoDup items.*1 →
  (∀ item, item ∈ items →
     in_range start_date end_date item.1 = true → has_len item.2 = true) →
  filter_items start_date end_date items acc =
    Return (list_to_map (filter (kept start_date end_date) items) ∪ acc).
Proof.
  revert acc.
  induction items as [|[key value] rest IH]; intros acc Hnodup Hlen.
  { simpl. by rewrite (left_id_L ∅ (∪)). }
  rewrite fmap_cons in Hnodup. apply NoDup_cons in Hnodup as [Hfresh Hnodup].
  cbn [filter_items].
  rewrite (filter_item_kept _ _ (key, value)) by (apply Hlen; left).
  cbn [mbind outcome_bind fst snd].
  rewrite IH; [|done|by intros; apply Hlen; [right|]].
  f_equal. rewrite filter_cons.
  destruct (decide (kept start_date end_date (key, value))); [|done].
  rewrite list_to_map_cons, <- insert_union_l.
  symmetry. apply insert_union_r.
  apply not_elem_of_list_to_map_1. intros Hin. apply Hfresh.
  apply list_elem_of_fmap in Hin as (item' & Hkey & Hin').
  apply list_elem_of_fmap. exists item'. split; [done|].
  by apply list_elem_of_filter in Hin' as [_ ?].
Qed.

(** C7, as amended. For every mapping in which the values whose key
    lies in the range have a length (strings, lists, mappings), the
    range filter of [get_data_in_range] returns exactly the entries
    whose key [k] satisfies [start <= k <= end] as strings and whose
    value is not empty; on the mapping of the specification, with start
    2024-01-01 and end 2024-02-15, the result is the single entry
    2024-01-01 with value [[1]]. *)
Theorem filter_in_range_spec (data_path : pystr) (m : gmap pystr json)
    (start_date end_date : pystr) :
  (∀ key value, m !! key = Some value →
     in_range start_date end_date key = true → has_len value = true) →
  (filter_in_range float_is_zero data_path (JDict m) start_date end_date).1
    = Return (filter (kept start_date end_date) m) ∧
  (filter_in_range float_is_zero data_path (JDict dated_lists)
     (py "2024-01-01") (py "2024-02-15")).1
    = Return {[ py "2024-01-01" := JList [JInt 1] ]}.
Proof.
  intros Hlen. split; [|by vm_compute].
  unfold filter_in_range. simpl.
  destruct (decide (m = ∅)) as [->|Hne].
  - rewrite bool_decide_eq_true_2 by done. simpl.
    by rewrite map_filter_empty.
  - rewrite bool_decide_eq_false_2 by done. simpl.
    rewrite filter_items_spec.
    + by rewrite (right_id_L ∅ (∪)), <- map_filter_alt.
    + apply NoDup_fst_map_to_list.
    + intros [key value] Hin%elem_of_map_to_list. by apply Hlen.
Qed.

End RangeFilterFacts.

(** C7 fails as stated on a mapping whose in-range value has no length:
    [len(1)] raises [TypeError], and nothing is returned. *)
Lemma filter_in_range_raises_on_a_number :
  (filter_in_range zero_mantissa (py "f.json") (JDict dated_number)
     (py "2024-01-01") (py "2024-12-31")).1 = Raise TypeError.
Proof. vm_compute. reflexivity. Qed.

Lemma filter_in_range_spec_witness :
  (∀ key value, dated_lists !! key = Some value →
     in_range (py "2024-01-01") (py "2024-02-15") key = true →
     has_len value = true) ∧
  (filter_in_range zero_mantissa (py "f.json") (JDict dated_lists)
     (py "2024-01-01") (py "2024-02-15")).1
    = Return (filter (kept (py "2024-01-01") (py "2024-02-15")) dated_lists) ∧
  (filter_in_range zero_mantissa (py "f.json") (JDict dated_lists)
     (py "2024-01-01") (py "2024-02-15")).1
    = Return {[ py "2024-01-01" := JList [JInt 1] ]}.
Proof.
  assert (∀ key value, dated_lists !! key = Some value →
            in_range (py "2024-01-01") (py "2024-02-15") key = true →
            has_len value = true) as Hlen.
  { intros key value Hlookup _. unfold dated_lists in Hlookup.
    repeat (apply lookup_insert_Some in Hlookup as [[_ <-]|[_ Hlookup]];
            [reflexivity|]).
    by rewrite lookup_empty in Hlookup. }
  split; [exact Hlen|].
  exact (filter_in_range_spec zero_mantissa (py "f.json") dated_lists
           (py "2024-01-01") (py "2024-02-15") Hlen).
Defined.

(** The same filter from the file on disk, through the loader. *)
Example get_data_in_range_news :
  (get_data_in_range loads100 finnhub_tree zero_mantissa (py "AAPL")
     (py "2024-01-01") (py "2024-02-15") (py "news_data") (py "data") None).1
    = Return {[ py "2024-01-01" := JList [JInt 1] ]}.
Proof. vm_compute. reflexivity. Qed.

(** Without a file there is no data, and the result is empty. *)
Example get_data_in_range_missing :
  get_data_in_range loads100 no_file zero_mantissa (py "TEST")
    (py "2024-01-01") (py "2024-12-31") (py "news_data")
    (py "/nonexistent/path") None
    = (Return ∅,
       [(WARNING,
         FileNotFound
           (py "/nonexistent/path/finnhub_data/news_data/TEST_data_formatted.json"));
        (WARNING,
         NoDataLoaded
           (py "/nonexistent/path/finnhub_data/news_data/TEST_data_formatted.json"))]).
Proof. vm_compute. reflexivity. Qed.

(** * Further properties *)

(** ** The sanitizer, further *)

(** X1. The sanitizer leaves a text unchanged exactly when the text has no NUL. *)
Theorem sanitize_json_string_fixpoint (s : pystr) :
  sanitize_json_string s = s ↔ 0 ∉ s.
Proof.
  split.
  - intros <-. apply sanitize_json_string_no_nul.
  - apply str_replace_absent.
Qed.

(** Sanitizing a text piece by piece is sanitizing the whole. *)
Lemma sanitize_json_string_app (a b : pystr) :
  sanitize_json_string (a ++ b) =
    sanitize_json_string a ++ sanitize_json_string b.
Proof.
  unfold sanitize_json_string.
  induction a as [|c a IH]; simpl; [done|].
  destruct (c =? 0); simpl; by rewrite IH.
Qed.

(** X2. The sanitizer removes the NULs and nothing else. *)
Theorem sanitize_json_string_filter (s : pystr) :
  sanitize_json_string s = filter (λ c, c ≠ 0) s.
Proof.
  unfold sanitize_json_string.
  induction s as [|c s IH]; simpl; [done|].
  rewrite filter_cons. destruct (decide (c ≠ 0)) as [Hne|Heq].
  - apply N.eqb_neq in Hne as ->. by rewrite IH.
  - apply dec_stable in Heq as ->. by rewrite IH.
Qed.

(** ** The codec under the permissive handlers *)

Lemma utf8_decode_strict_raises_aux (n : nat) :
  ∀ bs e, (length bs ≤ n)%nat →
    utf8_decode Strict bs = Raise e → e = UnicodeDecodeError.
Proof.
  induction n as [|n IH]; intros bs e Hlen;
    (destruct bs as [|x0 r0]; [done|]); [simpl in Hlen; lia|].
  cbn [utf8_decode]. cbn zeta.
  repeat case_match; simplify_eq;
    unfold undecodable, emit; cbn [fmap outcome_fmap]; intros Hrun;
    lazymatch type of Hrun with
    | context [utf8_decode Strict ?x] =>
      destruct (utf8_decode Strict x) as [t'|e'] eqn:Hrec;
        [discriminate Hrun|];
        apply IH in Hrec; [|simpl in Hlen |- *; lia];
        simpl in Hrun; congruence
    | _ => simpl in Hrun; congruence
    end.
Qed.

Lemma utf8_decode_strict_raises (bs : list byte) (e : exn) :
  utf8_decode Strict bs = Raise e → e = UnicodeDecodeError.
Proof. by apply (utf8_decode_strict_raises_aux (length bs)). Qed.

Lemma utf8_decode_lenient_aux (mode : errors) (n : nat) :
  mode ≠ Strict →
  ∀ bs, (length bs ≤ n)%nat → ∃ t, utf8_decode mode bs = Return t.
Proof.
  intros Hmode. induction n as [|n IH]; intros bs Hlen;
    (destruct bs as [|x0 r0]; [by exists []|]); [simpl in Hlen; lia|].
  cbn [utf8_decode]. cbn zeta.
  repeat case_match; simplify_eq;
    unfold undecodable, emit; destruct mode; try done;
    cbn [fmap outcome_fmap];
    lazymatch goal with
    | |- context [utf8_decode ?m ?x] =>
      let H := fresh in
      destruct (IH x) as [t' H]; [simpl in Hlen |- *; lia|];
      rewrite H; eauto
    | _ => eauto
    end.
Qed.

Lemma utf8_decode_ignore (bs : list byte) :
  ∃ t, utf8_decode Ignore bs = Return t.
Proof. by apply (utf8_decode_lenient_aux Ignore (length bs)). Qed.

Lemma utf8_decode_replace (bs : list byte) :
  ∃ t, utf8_decode Replace bs = Return t.
Proof. by apply (utf8_decode_lenient_aux Replace (length bs)). Qed.

Lemma open_read_ignore (w : world) (path : pystr) (content : list byte) :
  fs w path = Some (RegularFile true content) →
  open_read w path Ignore = Return (decoded content).
Proof.
  intros Hfile. unfold open_read, decoded. rewrite Hfile.
  by destruct (utf8_decode_ignore content) as [t ->].
Qed.

(** ** The single-shot validator and the loader, further *)

Section LoaderFurther.

Context (json_loads : bool → pystr → outcome json) (w : world).

(** X3. [validate_json_file] never raises, and it answers [True] exactly when
    the file can be read as strict UTF-8 and the decoder accepts its text
    in strict mode. *)
Theorem validate_json_file_spec (path : pystr) :
  ∃ ok : bool,
    (validate_json_file json_loads w path).1 = Return ok ∧
    (ok = true ↔
     ∃ s v, open_read w path Strict = Return s ∧
            json_loads true s = Return v).
Proof.
  unfold validate_json_file.
  destruct (os_path_exists w path) eqn:Hexists; simpl.
  - destruct (open_read w path Strict) as [s|e] eqn:Hread; simpl.
    + destruct (json_loads true s) as [v|e] eqn:Hdec; simpl.
      * exists true. split; [done|]. split; [eauto|done].
      * exists false. destruct e; simpl; (split; [done|]);
          (split; [done|]); intros (s' & v & [= <-] & Hv); congruence.
    + exists false. destruct e; simpl; (split; [done|]);
        (split; [done|]); by intros (s' & v & ? & _).
  - exists false. split; [done|]. split; [done|].
    intros (s & v & Hread & _).
    by rewrite missing_file_unreadable in Hread.
Qed.

(** X4. When every strategy fails on a readable UTF-8 file, the loader
    returns the default and logs the two warnings and the final error. *)
Theorem load_json_safe_all_fail (path : pystr) (default : json)
    (s : pystr) (e e' : exn) :
  open_read w path Strict = Return s →
  json_loads false s = Raise e →
  json_loads false (sanitize_json_string s) = Raise e' →
  load_json_safe json_loads w path default =
    (Return default,
     [(WARNING,
       if isinstance e JSONDecodeErrorClass
       then JsonDecodeErrorIn path e else ErrorLoading path e);
      (WARNING, IgnoreStrategyFailed e);
      (ERROR, AllStrategiesFailed path e')]).
Proof.
  intros Hread Hdec Hsan.
  unfold load_json_safe, load_strategy_2, load_strategy_3.
  rewrite (open_read_exists _ _ _ _ Hread), Hread.
  rewrite (open_read_strict _ _ Ignore _ Hread).
  rewrite (open_read_strict _ _ Replace _ Hread). simpl.
  rewrite Hdec, Hsan. by destruct e.
Qed.


(** X6. A file that is not valid UTF-8 fails the first strategy with a
    [UnicodeDecodeError]; when the text left after dropping the
    undecodable bytes is accepted, the second strategy returns its
    document after that single warning. *)
Theorem load_json_safe_invalid_utf8 (path : pystr) (default : json)
    (content : list byte) (e : exn) (t : pystr) (d : json) :
  fs w path = Some (RegularFile true content) →
  utf8_decode Strict content = Raise e →
  utf8_decode Ignore content = Return t →
  json_loads false (universal_newlines t) = Return d →
  load_json_safe json_loads w path default =
    (Return d, [(WARNING, ErrorLoading path UnicodeDecodeError)]).
Proof.
  intros Hfile Hstrict Hignore Hdec.
  apply utf8_decode_strict_raises in Hstrict as Hclass. subst e.
  unfold load_json_safe, load_strategy_2, os_path_exists, open_read.
  rewrite Hfile, Hstrict, Hignore. simpl. by rewrite Hdec.
Qed.

(** X7. For a path that exists the loader returns the document of the
    first strategy that succeeds, in the order strict reading, reading
    with undecodable bytes dropped, reading with replacement and
    sanitizing; the default is returned only when all three fail.  No
    exception of a strategy decides otherwise: each handler catches
    them all. *)
Theorem load_json_safe_first_success (path : pystr) (default : json) :
  os_path_exists w path = true →
  (load_json_safe json_loads w path default).1 =
    Return (match strategy_1 json_loads w path with
            | Return d => d
            | Raise _ =>
              match strategy_2 json_loads w path with
              | Return d => d
              | Raise _ =>
                match strategy_3 json_loads w path with
                | Return d => d
                | Raise _ => default
                end
              end
            end).
Proof.
  intros Hexists.
  unfold load_json_safe, load_strategy_2, load_strategy_3,
    strategy_1, strategy_2, strategy_3.
  rewrite Hexists. simpl.
  destruct (mbind _ (open_read w path Strict)) as [d1|e1]; simpl; [done|].
  destruct (mbind _ (open_read w path Ignore)) as [d2|e2]; simpl.
  { by destruct e1. }
  destruct (mbind _ (open_read w path Replace)) as [d3|e3]; simpl;
    by destruct e1.
Qed.

(** X8. The loader logs an error exactly when the file exists and all three
    strategies fail; in every other case it logs warnings at most. *)
Theorem load_json_safe_logs_error (path : pystr) (default : json) :
  logs_error (load_json_safe json_loads w path default).2 = true ↔
  os_path_exists w path = true ∧
  raises (strategy_1 json_loads w path) ∧
  raises (strategy_2 json_loads w path) ∧
  raises (strategy_3 json_loads w path).
Proof.
  unfold load_json_safe, load_strategy_2, load_strategy_3,
    strategy_1, strategy_2, strategy_3, logs_error.
  destruct (os_path_exists w path); simpl; [|by split; [|intros [? _]]].
  destruct (mbind _ (open_read w path Strict)) as [d1|e1]; simpl.
  { split; [done|]. by intros (_ & [] & _). }
  destruct (mbind _ (open_read w path Ignore)) as [d2|e2]; simpl.
  { destruct e1; simpl; (split; [done|]); by intros (_ & _ & [] & _). }
  destruct (mbind _ (open_read w path Replace)) as [d3|e3]; simpl.
  { destruct e1; simpl; (split; [done|]); by intros (_ & _ & _ & []). }
  by destruct e1.
Qed.

End LoaderFurther.

(** X9. A file that [validate_json_file] accepts is loaded by the first
    strategy of [load_json_safe], without any log record, as the
    document the strict decoder gives. *)
Theorem validated_file_loads (limit : nat) (w : world) (path : pystr)
    (default : json) :
  (validate_json_file (PyJson.loads limit) w path).1 = Return true →
  ∃ s d, open_read w path Strict = Return s ∧
         PyJson.loads limit true s = Return d ∧
         load_json_safe (PyJson.loads limit) w path default = (Return d, []).
Proof.
  intros Hvalid. unfold validate_json_file in Hvalid.
  destruct (os_path_exists w path); [|done].
  destruct (open_read w path Strict) as [s|e] eqn:Hread.
  - destruct (PyJson.loads limit true s) as [d|e] eqn:Hdec.
    + exists s, d. split; [done|]. split; [done|].
      unfold load_json_safe.
      rewrite (open_read_exists _ _ _ _ Hread), Hread. simpl.
      by rewrite (loads_strict _ _ _ Hdec).
    + cbn [mbind outcome_bind] in Hvalid. rewrite Hdec in Hvalid.
      by destruct e.
  - by destruct e.
Qed.

(** ** The JSONL validator, further *)

Section JsonlFurther.

Context (json_loads : bool → pystr → outcome json) (w : world).

(** The kinds of line: the scan goes on, records the line, or leaves the
    loop by an exception. *)
Lemma line_kinds (line : pystr) :
  (is_blank line = true ∨ is_valid_json json_loads line = true)
  ∨ is_malformed json_loads line = true
  ∨ (is_malformed json_loads line = false ∧
     ∃ e, str_truthy (strip line) = true ∧
          json_loads false line = Raise e ∧
          isinstance e JSONDecodeErrorClass = false).
Proof.
  unfold is_blank, is_valid_json, is_malformed, is_blank.
  destruct (str_truthy (strip line)); simpl; [|by left; left].
  destruct (json_loads false line) as [v|e]; [by left; right|].
  destruct (isinstance e JSONDecodeErrorClass) eqn:He; [by right; left|].
  right; right. eauto.
Qed.

Lemma jsonl_loop_raise (max_errors : Z) (i : nat) (line : pystr)
    (rest : list (nat * pystr)) (acc : list nat) (e : exn) :
  str_truthy (strip line) = true →
  json_loads false line = Raise e →
  isinstance e JSONDecodeErrorClass = false →
  jsonl_loop json_loads max_errors ((i, line) :: rest) acc =
    ((acc, Raise e), []).
Proof.
  intros Hblank Hdec He. cbn [jsonl_loop]. rewrite Hblank, Hdec.
  cbn [negb]. by rewrite He.
Qed.

(** What the loop records is what it started from followed by the
    numbers of the first malformed lines. *)
Lemma jsonl_loop_records_prefix (max_errors : Z)
    (lines : list (nat * pystr)) (acc : list nat) :
  ∃ k, (jsonl_loop json_loads max_errors lines acc).1.1 =
         acc ++ take k (malformed_numbers json_loads lines).
Proof.
  revert acc. induction lines as [|[i line] rest IH]; intros acc.
  { exists 0%nat. simpl. by rewrite app_nil_r. }
  rewrite malformed_numbers_cons. cbn [fst snd].
  destruct (line_kinds line) as [Hskip|[Hmal|(Hnot & e & Hb & Hdec & He)]].
  - rewrite jsonl_loop_skip by done.
    pose proof (not_malformed json_loads (i, line) Hskip) as Hnot.
    cbn [snd] in Hnot. rewrite Hnot. apply IH.
  - rewrite Hmal.
    destruct (Z.lt_ge_cases (Z.of_nat (length (acc ++ [i]))) max_errors).
    + rewrite jsonl_loop_error_continue by done.
      destruct (IH (acc ++ [i])) as [k Hk].
      destruct (jsonl_loop _ _ rest _) as [[errs ended] lg]. simpl in *.
      exists (S k). by rewrite Hk, <- app_assoc.
    + rewrite jsonl_loop_error_break by done. by exists 1%nat.
  - rewrite (jsonl_loop_raise _ _ _ _ _ e), Hnot by done.
    exists 0%nat. simpl. by rewrite app_nil_r.
Qed.

Lemma jsonl_loop_cap (max_errors : Z) (lines : list (nat * pystr))
    (acc : list nat) :
  (length acc < line_cap max_errors)%nat →
  (length (jsonl_loop json_loads max_errors lines acc).1.1
     ≤ line_cap max_errors)%nat.
Proof.
  unfold line_cap. revert acc.
  induction lines as [|[i line] rest IH]; intros acc Hacc; [simpl; lia|].
  destruct (line_kinds line) as [Hskip|[Hmal|(Hnot & e & Hb & Hdec & He)]].
  - rewrite jsonl_loop_skip by done. by apply IH.
  - destruct (Z.lt_ge_cases (Z.of_nat (length (acc ++ [i]))) max_errors)
      as [Hroom|Hfull].
    + rewrite jsonl_loop_error_continue by done.
      specialize (IH (acc ++ [i])).
      destruct (jsonl_loop _ _ rest _) as [[errs ended] lg]. simpl in *.
      apply IH. lia.
    + rewrite jsonl_loop_error_break by done. simpl.
      rewrite length_app. simpl. lia.
  - rewrite (jsonl_loop_raise _ _ _ _ _ e) by done. simpl. lia.
Qed.

Lemma jsonl_loop_extends (max_errors : Z) (lines : list (nat * pystr))
    (acc : list nat) :
  acc `prefix_of` (jsonl_loop json_loads max_errors lines acc).1.1.
Proof.
  destruct (jsonl_loop_records_prefix max_errors lines acc) as [k ->].
  by apply prefix_app_r.
Qed.

Lemma jsonl_loop_budget_mono (m m' : Z) (lines : list (nat * pystr))
    (acc : list nat) :
  (m ≤ m')%Z →
  (jsonl_loop json_loads m lines acc).1.1
    `prefix_of` (jsonl_loop json_loads m' lines acc).1.1.
Proof.
  intros Hle. revert acc.
  induction lines as [|[i line] rest IH]; intros acc; [done|].
  destruct (line_kinds line) as [Hskip|[Hmal|(Hnot & e & Hb & Hdec & He)]].
  - rewrite !jsonl_loop_skip by done. apply IH.
  - destruct (Z.lt_ge_cases (Z.of_nat (length (acc ++ [i]))) m)
      as [Hroom|Hfull].
    + rewrite !jsonl_loop_error_continue by (done || lia).
      specialize (IH (acc ++ [i])).
      destruct (jsonl_loop _ m rest _) as [[errs ended] lg].
      by destruct (jsonl_loop _ m' rest _) as [[errs' ended'] lg'].
    + rewrite (jsonl_loop_error_break _ m) by done.
      destruct (Z.lt_ge_cases (Z.of_nat (length (acc ++ [i]))) m')
        as [Hroom'|Hfull'].
      * rewrite jsonl_loop_error_continue by done.
        pose proof (jsonl_loop_extends m' rest (acc ++ [i])) as Hext.
        by destruct (jsonl_loop _ m' rest _) as [[errs' ended'] lg'].
      * by rewrite jsonl_loop_error_break.
  - by rewrite !(jsonl_loop_raise _ _ _ _ _ e).
Qed.

(** On lines that raise nothing but decode errors, the loop records the
    malformed lines up to the cap. *)
Lemma jsonl_loop_scannable (max_errors : Z) (lines : list (nat * pystr))
    (acc : list nat) :
  Forall (scannable json_loads) lines →
  (length acc < line_cap max_errors)%nat →
  (jsonl_loop json_loads max_errors lines acc).1 =
    (acc ++ take (line_cap max_errors - length acc)
              (malformed_numbers json_loads lines), Return tt).
Proof.
  unfold line_cap. intros Hlines. revert acc.
  induction Hlines as [|[i line] rest Hline _ IH]; intros acc Hacc.
  { change (malformed_numbers json_loads []) with (@nil nat).
    by rewrite take_nil, app_nil_r. }
  rewrite malformed_numbers_cons. cbn [fst snd] in Hline |- *.
  destruct (is_malformed json_loads line) eqn:Hmal.
  - destruct (Z.lt_ge_cases (Z.of_nat (length (acc ++ [i]))) max_errors)
      as [Hroom|Hfull].
    + rewrite jsonl_loop_error_continue by done.
      rewrite length_app in Hroom. cbn [length] in Hroom.
      specialize (IH (acc ++ [i])). rewrite length_app in IH.
      cbn [length] in IH.
      destruct (jsonl_loop _ _ rest _) as [r lg]. cbn [fst] in IH |- *.
      cbn [mbind Logged_bind logger fst]. rewrite IH by lia.
      rewrite <- app_assoc. cbn [app].
      replace (Z.to_nat (1 `max` max_errors) - length acc)%nat
        with (S (Z.to_nat (1 `max` max_errors) - (length acc + 1)))
        by lia.
      done.
    + rewrite jsonl_loop_error_break by done.
      rewrite length_app in Hfull. cbn [length] in Hfull. cbn [fst].
      replace (Z.to_nat (1 `max` max_errors) - length acc)%nat
        with 1%nat by lia.
      cbn [take]. by rewrite take_0.
  - rewrite jsonl_loop_skip; [by apply IH|].
    destruct Hline as [?|[?|?]]; simpl in *; [tauto|tauto|congruence].
Qed.

Lemma StronglySorted_take (l : list nat) (k : nat) :
  StronglySorted lt l → StronglySorted lt (take k l).
Proof.
  intros Hl. revert k. induction Hl as [|x l Hl IH Hx]; intros [|k];
    simpl; try constructor; [apply IH|].
  by apply Forall_take.
Qed.

(** X10. Every number [validate_jsonl_file] returns is the 1-based number of a
    line of the file that is not blank and that the decoder rejects with
    a decode error, and the numbers come in increasing order; a blank
    line is never reported, whatever the file, the decoder and the
    budget. *)
Theorem validate_jsonl_file_sound (path : pystr) (max_errors : Z) :
  ∃ (is_valid : bool) (error_lines : list nat),
    (validate_jsonl_file json_loads w path max_errors).1 =
      Return (is_valid, error_lines) ∧
    StronglySorted lt error_lines ∧
    ∀ n, n ∈ error_lines →
      ∃ text line,
        open_read w path Ignore = Return text ∧
        (1 ≤ n)%nat ∧ readlines text !! (n - 1)%nat = Some line ∧
        is_blank line = false ∧
        json_loads false line = Raise JSONDecodeError.
Proof.
  unfold validate_jsonl_file.
  destruct (os_path_exists w path); simpl; cycle 1.
  { exists false, []. split; [done|]. split; [constructor|].
    by intros n ?%elem_of_nil. }
  destruct (open_read w path Ignore) as [text|e] eqn:Hread; simpl; cycle 1.
  { exists false, []. destruct e; simpl; (split; [done|]);
      (split; [constructor|]); by intros n ?%elem_of_nil. }
  destruct (jsonl_loop_records_prefix max_errors
              (enumerate 1 (readlines text)) []) as [k Hk].
  destruct (jsonl_loop _ _ _ _) as [[errs ended] lg]. simpl in Hk. subst errs.
  assert (StronglySorted lt
            (take k (malformed_numbers json_loads
                       (enumerate 1 (readlines text))))) as Hsorted.
  { apply StronglySorted_take, malformed_numbers_increasing. }
  assert (∀ n, n ∈ take k (malformed_numbers json_loads
                             (enumerate 1 (readlines text))) →
            ∃ text' line,
              Return text = Return text' ∧ (1 ≤ n)%nat ∧
              readlines text' !! (n - 1)%nat = Some line ∧
              is_blank line = false ∧
              json_loads false line = Raise JSONDecodeError) as Hmem.
  { intros n Hn%subseteq_take.
    apply elem_of_malformed_numbers in Hn as (Hle & line & Hline & Hmal).
    exists text, line. apply is_malformed_inv in Hmal as [Hb Hdec].
    unfold is_blank. by rewrite Hb. }
  revert Hsorted Hmem.
  generalize (take k (malformed_numbers json_loads
                        (enumerate 1 (readlines text)))).
  intros errs Hsorted Hmem.
  destruct ended as [[]|e]; simpl.
  - exists (Nat.eqb (length errs) 0), errs.
    split; [by destruct errs|done].
  - exists false, errs. by destruct e.
Qed.

(** X11. The list [validate_jsonl_file] returns never has more entries than
    the budget, one entry being allowed when the budget is below one. *)
Theorem validate_jsonl_file_capped (path : pystr) (max_errors : Z) :
  ∃ (is_valid : bool) (error_lines : list nat),
    (validate_jsonl_file json_loads w path max_errors).1 =
      Return (is_valid, error_lines) ∧
    (length error_lines ≤ line_cap max_errors)%nat.
Proof.
  assert (0 < line_cap max_errors)%nat as Hpos by (unfold line_cap; lia).
  unfold validate_jsonl_file.
  destruct (os_path_exists w path); simpl; cycle 1.
  { exists false, []. split; [done|simpl; lia]. }
  destruct (open_read w path Ignore) as [text|e] eqn:Hread; simpl; cycle 1.
  { exists false, []. destruct e; simpl; (split; [done|simpl; lia]). }
  pose proof (jsonl_loop_cap max_errors (enumerate 1 (readlines text)) []
                Hpos) as Hcap.
  destruct (jsonl_loop _ _ _ _) as [[errs ended] lg]. simpl in Hcap.
  destruct ended as [[]|e]; simpl.
  - exists (Nat.eqb (length errs) 0), errs. split; [by destruct errs|done].
  - exists false, errs. by destruct e.
Qed.

(** X12. Raising the budget only lengthens the report: the list returned
    under a budget is a prefix of the list returned under any larger
    budget. *)
Theorem validate_jsonl_file_budget_mono (path : pystr) (m m' : Z) :
  (m ≤ m')%Z →
  ∃ (v v' : bool) (errs errs' : list nat),
    (validate_jsonl_file json_loads w path m).1 = Return (v, errs) ∧
    (validate_jsonl_file json_loads w path m').1 = Return (v', errs') ∧
    errs `prefix_of` errs'.
Proof.
  intros Hle. unfold validate_jsonl_file.
  destruct (os_path_exists w path); simpl; cycle 1.
  { by exists false, false, [], []. }
  destruct (open_read w path Ignore) as [text|e] eqn:Hread; simpl; cycle 1.
  { exists false, false, [], []. by destruct e. }
  pose proof (jsonl_loop_budget_mono m m' (enumerate 1 (readlines text)) []
                Hle) as Hmono.
  destruct (jsonl_loop _ m _ _) as [[errs ended] lg].
  destruct (jsonl_loop _ m' _ _) as [[errs' ended'] lg']. simpl in Hmono.
  assert (∀ (budget : Z) (l : list nat) (o : outcome unit) (lg0 : list record),
            ∃ v, (let '(b, l2) :=
                    match o with
                    | Return _ =>
                      (if negb (length l =? 0)%nat
                       then logger WARNING (FoundInvalidLines (length l) path)
                       else mret tt) ;; mret (Return ((length l =? 0)%nat, l))
                    | Raise e =>
                      if isinstance e ExceptionClass
                      then logger ERROR (ErrorReading path e) ;;
                           mret (Return (false, l))
                      else mret (Raise e)
                    end in (b, lg0 ++ l2)).1 = Return (v, l)) as Hshape.
  { intros _ l [[]|e] lg0; simpl.
    - exists (Nat.eqb (length l) 0). by destruct l.
    - exists false. by destruct e. }
  destruct (Hshape m errs ended lg) as [v Hv].
  destruct (Hshape m' errs' ended' lg') as [v' Hv'].
  exists v, v', errs, errs'. done.
Qed.

(** X13. For a readable file, whatever its bytes, whose lines raise nothing
    but decode errors, [validate_jsonl_file] returns the numbers of the
    malformed lines up to the cap, and validity tells whether that list
    is empty. *)
Theorem validate_jsonl_file_exact (path : pystr) (max_errors : Z)
    (content : list byte) :
  fs w path = Some (RegularFile true content) →
  Forall (scannable json_loads) (enumerate 1 (readlines (decoded content))) →
  ∃ error_lines : list nat,
    (validate_jsonl_file json_loads w path max_errors).1 =
      Return (Nat.eqb (length error_lines) 0, error_lines) ∧
    error_lines =
      take (line_cap max_errors)
        (malformed_numbers json_loads
           (enumerate 1 (readlines (decoded content)))).
Proof.
  intros Hfile Hlines. pose proof (open_read_ignore _ _ _ Hfile) as Hread.
  assert (0 < line_cap max_errors)%nat as Hpos by (unfold line_cap; lia).
  exists (take (line_cap max_errors)
            (malformed_numbers json_loads
               (enumerate 1 (readlines (decoded content))))).
  split; [|done].
  unfold validate_jsonl_file.
  rewrite (open_read_exists _ _ _ _ Hread), Hread. simpl.
  pose proof (jsonl_loop_scannable max_errors _ [] Hlines Hpos) as Hloop.
  destruct (jsonl_loop _ _ _ _) as [[errs ended] lg].
  simpl in Hloop. rewrite Nat.sub_0_r in Hloop.
  injection Hloop as -> ->. simpl.
  by destruct (take _ _).
Qed.

(** The log of the loop holds the warning of the stop exactly when the
    list it leaves is not empty and has reached the budget. *)
Lemma jsonl_loop_stop_iff (max_errors : Z) (lines : list (nat * pystr))
    (acc : list nat) :
  acc = [] ∨ (Z.of_nat (length acc) < max_errors)%Z →
  stopped_early (jsonl_loop json_loads max_errors lines acc).2 = true ↔
  (jsonl_loop json_loads max_errors lines acc).1.1 ≠ [] ∧
  (max_errors ≤
   Z.of_nat (length (jsonl_loop json_loads max_errors lines acc).1.1))%Z.
Proof.
  revert acc.
  induction lines as [|[i line] rest IH]; intros acc Hacc.
  { simpl. split; [done|]. intros [Hne Hfull].
    destruct Hacc as [->|Hroom]; [done|lia]. }
  destruct (line_kinds line) as [Hskip|[Hmal|(Hnot & e & Hb & Hdec & He)]].
  - rewrite jsonl_loop_skip by done. by apply IH.
  - destruct (Z.lt_ge_cases (Z.of_nat (length (acc ++ [i]))) max_errors)
      as [Hroom|Hfull].
    + rewrite jsonl_loop_error_continue by done.
      specialize (IH (acc ++ [i]) (or_intror Hroom)).
      destruct (jsonl_loop _ _ rest _) as [[errs ended] lg]. simpl in *.
      exact IH.
    + rewrite jsonl_loop_error_break by done. simpl.
      split; [|done]. intros _. split; [|done].
      by destruct acc.
  - rewrite (jsonl_loop_raise _ _ _ _ _ e) by done. simpl.
    split; [done|]. intros [Hne Hfull].
    destruct Hacc as [->|Hroom]; [done|lia].
Qed.

(** X22. [validate_jsonl_file] logs the warning that it stopped at the
    budget exactly when the list it returns is not empty and has at
    least [max_errors] entries: the pair has no flag for the stop, and
    a caller that knows the budget it passed can still tell the stop
    from the length of the list.  This holds for every file, decoder
    and budget. *)
Theorem validate_jsonl_file_stop_told_by_length (path : pystr)
    (max_errors : Z) :
  ∃ (is_valid : bool) (error_lines : list nat),
    (validate_jsonl_file json_loads w path max_errors).1 =
      Return (is_valid, error_lines) ∧
    (stopped_early (validate_jsonl_file json_loads w path max_errors).2
       = true ↔
     error_lines ≠ [] ∧ (max_errors ≤ Z.of_nat (length error_lines))%Z).
Proof.
  unfold validate_jsonl_file.
  destruct (os_path_exists w path); simpl; cycle 1.
  { exists false, []. split; [done|]. split; [done|]. by intros [? _]. }
  destruct (open_read w path Ignore) as [text|e] eqn:Hread; simpl; cycle 1.
  { exists false, []. destruct e; simpl; (split; [done|]);
      (split; [done|]); by intros [? _]. }
  pose proof (jsonl_loop_stop_iff max_errors (enumerate 1 (readlines text)) []
                (or_introl eq_refl)) as Hstop.
  destruct (jsonl_loop _ _ _ _) as [[errs ended] lg]. simpl in Hstop.
  destruct ended as [[]|e]; simpl.
  - exists (Nat.eqb (length errs) 0), errs. split; [by destruct errs|].
    unfold stopped_early in *.
    destruct errs; simpl; rewrite existsb_app; simpl;
      rewrite orb_false_r; exact Hstop.
  - exists false, errs. destruct e; simpl; (split; [done|]);
      unfold stopped_early in *; rewrite existsb_app; simpl;
      rewrite orb_false_r; exact Hstop.
Qed.

End JsonlFurther.

(** ** The directory report, further *)

Section DirectoryFurther.

Context (json_loads : bool → pystr → outcome json) (w : world).

Lemma endswith_json_not_jsonl (file : pystr) :
  endswith (py ".json") file = true → endswith (py ".jsonl") file = false.
Proof.
  unfold endswith.
  let x := eval vm_compute in (rev (py ".json")) in
  change (rev (py ".json")) with x.
  let x := eval vm_compute in (rev (py ".jsonl")) in
  change (rev (py ".jsonl")) with x.
  destruct (rev file) as [|c r]; [done|]. cbn [startswith].
  destruct (N.eqb_spec 110 c) as [<-|]; [done|done].
Qed.

Lemma report_adds_nil (res : results) : report_adds json_loads w res res [].
Proof.
  unfold report_adds, json_failures, jsonl_failures, json_named, jsonl_named.
  cbn. rewrite !Nat.add_0_r, !app_nil_r. done.
Qed.

Lemma report_adds_app (r1 r2 r3 : results) (a b : list (pystr * pystr)) :
  report_adds json_loads w r1 r2 a → report_adds json_loads w r2 r3 b →
  report_adds json_loads w r1 r3 (a ++ b).
Proof.
  unfold report_adds, json_failures, jsonl_failures, json_named, jsonl_named.
  intros (Ha1 & Ha2 & Ha3 & Ha4) (Hb1 & Hb2 & Hb3 & Hb4).
  rewrite !filter_app, !fmap_app, !omap_app, !length_app.
  rewrite Hb1, Hb2, Hb3, Hb4, Ha1, Ha2, Ha3, Ha4, <- !app_assoc.
  repeat split; try done; lia.
Qed.

Lemma visit_file_adds (root file : pystr) (res : results) :
  ∃ res', (visit_file json_loads w root file res).1 = Return res' ∧
          report_adds json_loads w res res' [(file, os_path_join root file)].
Proof.
  unfold report_adds, json_failures, jsonl_failures, json_named, jsonl_named.
  unfold visit_file. rewrite !filter_cons, !filter_nil. cbn [fst snd].
  destruct (endswith (py ".json") file) eqn:Hjson.
  - rewrite (endswith_json_not_jsonl _ Hjson).
    rewrite decide_True, decide_False by done.
    rewrite filter_cons, filter_nil. cbn [fst snd omap].
    destruct (validate_json_file_returns json_loads w (os_path_join root file))
      as [ok Hok].
    destruct (validate_json_file _ _ _) as [o lg]. simpl in Hok. subst o.
    destruct ok; simpl; eexists; (split; [done|]); simpl;
      rewrite ?app_nil_r, ?Nat.add_0_r; done.
  - rewrite decide_False by done. cbn [length fmap list_fmap filter].
    rewrite filter_nil. cbn [fmap list_fmap].
    destruct (endswith (py ".jsonl") file) eqn:Hjsonl.
    + rewrite decide_True by done. cbn [omap list_omap length fst snd].
      destruct (validate_jsonl_file_returns json_loads w
                  (os_path_join root file) default_max_errors)
        as (ok & errs & Hok).
      destruct (validate_jsonl_file _ _ _ _) as [o lg]. simpl in Hok. subst o.
      destruct ok; simpl; eexists; (split; [done|]); simpl;
        rewrite ?app_nil_r, ?Nat.add_0_r; done.
    + rewrite decide_False by done. cbn [omap list_omap length].
      exists res. rewrite !app_nil_r, !Nat.add_0_r. done.
Qed.

Lemma visit_files_adds (root : pystr) (files : list pystr) (res : results) :
  ∃ res', (visit_files json_loads w root files res).1 = Return res' ∧
          report_adds json_loads w res res'
            (map (λ file, (file, os_path_join root file)) files).
Proof.
  revert res. induction files as [|file rest IH]; intros res; simpl.
  { exists res. split; [done|apply report_adds_nil]. }
  destruct (visit_file_adds root file res) as (res1 & Hrun & Hadds).
  destruct (visit_file _ _ _ _ _) as [o lg]. simpl in Hrun. subst o.
  destruct (IH res1) as (res2 & Hrun & Hadds'). simpl.
  destruct (visit_files _ _ _ _ _) as [o lg']. simpl in *.
  exists res2. split; [done|].
  by apply (report_adds_app res res1 res2 [_]).
Qed.

Lemma visit_dirs_adds (walk : list (pystr * list pystr * list pystr))
    (res : results) :
  ∃ res', (visit_dirs json_loads w walk res).1 = Return res' ∧
          report_adds json_loads w res res' (walked_files walk).
Proof.
  revert res. induction walk as [|[[root dirs] files] rest IH]; intros res;
    simpl.
  { exists res. split; [done|apply report_adds_nil]. }
  destruct (visit_files_adds root files res) as (res1 & Hrun & Hadds).
  destruct (visit_files _ _ _ _ _) as [o lg]. simpl in Hrun. subst o.
  destruct (IH res1) as (res2 & Hrun & Hadds'). simpl.
  destruct (visit_dirs _ _ _ _) as [o lg']. simpl in *.
  exists res2. split; [done|].
  by apply (report_adds_app res res1 res2).
Qed.

(** X14. In the report on an existing directory, the total of a kind is the
    number of file names of the walk that end in [.json], respectively
    in [.jsonl]; a file of another kind is not counted. *)
Theorem validate_data_directory_totals (data_dir : pystr) :
  os_path_exists w data_dir = true →
  ∃ r : results,
    (validate_data_directory json_loads w data_dir).1 = Return (Report r) ∧
    total (json_files r) =
      length (json_named (walked_files (os_walk w data_dir))) ∧
    total (jsonl_files r) =
      length (jsonl_named (walked_files (os_walk w data_dir))).
Proof.
  intros Hexists. unfold validate_data_directory. rewrite Hexists. simpl.
  destruct (visit_dirs_adds (os_walk w data_dir)
              (Results true (FileStats 0 0 []) (FileStats 0 0 [])))
    as (r & Hrun & H1 & _ & H3 & _).
  destruct (visit_dirs _ _ _ _) as [o lg]. simpl in Hrun. subst o.
  exists r. by repeat split.
Qed.

(** X15. The list of invalid [.json] files of the report is the list of the
    paths, in the order of the walk, of the [.json] files that
    [validate_json_file] rejects; the list of invalid [.jsonl] files
    pairs each path that [validate_jsonl_file] rejects under the default
    budget with the line numbers it returned. *)
Theorem validate_data_directory_invalid (data_dir : pystr) :
  os_path_exists w data_dir = true →
  ∃ r : results,
    (validate_data_directory json_loads w data_dir).1 = Return (Report r) ∧
    invalid (json_files r) =
      json_failures json_loads w (walked_files (os_walk w data_dir)) ∧
    invalid (jsonl_files r) =
      jsonl_failures json_loads w (walked_files (os_walk w data_dir)).
Proof.
  intros Hexists. unfold validate_data_directory. rewrite Hexists. simpl.
  destruct (visit_dirs_adds (os_walk w data_dir)
              (Results true (FileStats 0 0 []) (FileStats 0 0 [])))
    as (r & Hrun & _ & H2 & _ & H4).
  destruct (visit_dirs _ _ _ _) as [o lg]. simpl in Hrun. subst o.
  exists r. by repeat split.
Qed.


End DirectoryFurther.

(** ** The range filter and [get_data_in_range], further *)

Section RangeFurther.

Context (float_is_zero : pystr → bool).

Lemma filter_item_outcome (start_date end_date : pystr) (item : pystr * json)
    (acc : gmap pystr json) :
  match filter_item start_date end_date item acc with
  | Return _ => in_range start_date end_date item.1 = true →
                has_len item.2 = true
  | Raise e => e = TypeError ∧ in_range start_date end_date item.1 = true ∧
               has_len item.2 = false
  end.
Proof.
  destruct item as [key value]. unfold filter_item.
  fold (in_range start_date end_date key). cbn [fst snd].
  destruct (in_range start_date end_date key); [|done].
  unfold has_len. destruct value; simpl; try done;
    by destruct (Nat.ltb _ _).
Qed.

(** The loop over the items raises only when [len] does. *)
Lemma filter_items_raises (start_date end_date : pystr)
    (items : list (pystr * json)) (acc : gmap pystr json) (e : exn) :
  filter_items start_date end_date items acc = Raise e ↔
  e = TypeError ∧
  ∃ item, item ∈ items ∧ in_range start_date end_date item.1 = true ∧
          has_len item.2 = false.
Proof.
  revert acc. induction items as [|item rest IH]; intros acc.
  { simpl. split; [done|]. intros (_ & item & Hin & _).
    by apply elem_of_nil in Hin. }
  cbn [filter_items].
  pose proof (filter_item_outcome start_date end_date item acc) as Hitem.
  destruct (filter_item start_date end_date item acc) as [acc'|e'];
    cbn [mbind outcome_bind].
  - rewrite IH. split; intros (-> & item' & Hin & Hrange & Hlen);
      (split; [done|]); exists item'.
    + split; [by right|done].
    + apply elem_of_cons in Hin as [->|Hin]; [|done].
      rewrite (Hitem Hrange) in Hlen. done.
  - destruct Hitem as (-> & Hrange & Hlen). split.
    + intros [= <-]. split; [done|]. exists item. split; [by left|done].
    + by intros [-> _].
Qed.

Lemma filter_in_range_dict (data_path : pystr) (m : gmap pystr json)
    (start_date end_date : pystr) :
  (filter_in_range float_is_zero data_path (JDict m) start_date end_date).1 =
    filter_items start_date end_date (map_to_list m) ∅.
Proof.
  unfold filter_in_range. simpl.
  destruct (decide (m = ∅)) as [->|Hne].
  - rewrite bool_decide_eq_true_2 by done. simpl.
    by rewrite map_to_list_empty.
  - by rewrite bool_decide_eq_false_2 by done.
Qed.

(** X17. On a mapping the range filter raises nothing but [TypeError], and
    it raises it exactly when some value whose key lies in the range has
    no length (a number, a boolean or [None]); a value without a length
    whose key is out of the range does no harm. *)
Theorem filter_in_range_raises (data_path : pystr) (m : gmap pystr json)
    (start_date end_date : pystr) (e : exn) :
  (filter_in_range float_is_zero data_path (JDict m) start_date end_date).1
    = Raise e ↔
  e = TypeError ∧
  ∃ key value, m !! key = Some value ∧
               in_range start_date end_date key = true ∧
               has_len value = false.
Proof.
  rewrite filter_in_range_dict, filter_items_raises.
  split; intros [-> Hex]; (split; [done|]).
  - destruct Hex as ([key value] & Hin%elem_of_map_to_list & Hrange & Hlen).
    by exists key, value.
  - destruct Hex as (key & value & Hlookup & Hrange & Hlen).
    exists (key, value). by rewrite elem_of_map_to_list.
Qed.

Context (json_loads : bool → pystr → outcome json) (w : world).

Lemma get_data_in_range_path (ticker start_date end_date data_type
    data_dir : pystr) (period : option pystr) :
  get_data_in_range json_loads w float_is_zero ticker start_date end_date
    data_type data_dir period =
  (loaded ← load_json_safe json_loads w
              (finnhub_data_path data_dir data_type ticker period) (JDict ∅);
   match loaded with
   | Return data =>
       filter_in_range float_is_zero
         (finnhub_data_path data_dir data_type ticker period) data
         start_date end_date
   | Raise e => mret (Raise e)
   end).
Proof.
  unfold get_data_in_range, finnhub_data_path.
  destruct period as [p|]; [|done]. by destruct (str_truthy p).
Qed.

Lemma load_json_safe_returns (path : pystr) (default : json) :
  ∃ v, (load_json_safe json_loads w path default).1 = Return v.
Proof.
  destruct (load_strategy_2_returns json_loads w path default)
    as (v2 & H2 & _).
  unfold load_json_safe.
  destruct (os_path_exists w path); simpl; [|eauto].
  destruct (open_read w path Strict) as [s|e]; simpl.
  - destruct (json_loads false s) as [v|e]; simpl; [eauto|].
    destruct (load_strategy_2 _ _ _ _) as [o l].
    destruct e; simpl in *; eauto.
  - destruct (load_strategy_2 _ _ _ _) as [o l].
    destruct e; simpl in *; eauto.
Qed.

Lemma get_data_in_range_loaded (ticker start_date end_date data_type
    data_dir : pystr) (period : option pystr) :
  ∃ data,
    (load_json_safe json_loads w
       (finnhub_data_path data_dir data_type ticker period) (JDict ∅)).1
      = Return data ∧
    (get_data_in_range json_loads w float_is_zero ticker start_date end_date
       data_type data_dir period).1 =
    (filter_in_range float_is_zero
       (finnhub_data_path data_dir data_type ticker period) data
       start_date end_date).1.
Proof.
  rewrite get_data_in_range_path.
  destruct (load_json_safe_returns
              (finnhub_data_path data_dir data_type ticker period) (JDict ∅))
    as [data Hdata].
  exists data. split; [done|].
  destruct (load_json_safe _ _ _ _) as [o lg]. simpl in Hdata. subst o.
  simpl. by destruct (filter_in_range _ _ _ _ _).
Qed.

(** X18. Without a file at the path of the ticker, [get_data_in_range]
    returns the empty mapping, whatever the dates; the log holds the
    warning of the loader and the warning that no data was loaded. *)
Theorem get_data_in_range_missing_file (ticker start_date end_date data_type
    data_dir : pystr) (period : option pystr) :
  os_path_exists w (finnhub_data_path data_dir data_type ticker period)
    = false →
  get_data_in_range json_loads w float_is_zero ticker start_date end_date
    data_type data_dir period =
  (Return ∅,
   [(WARNING,
     FileNotFound (finnhub_data_path data_dir data_type ticker period));
    (WARNING,
     NoDataLoaded (finnhub_data_path data_dir data_type ticker period))]).
Proof.
  intros Hmissing. rewrite get_data_in_range_path.
  unfold load_json_safe. by rewrite Hmissing.
Qed.

(** X19. Whenever [get_data_in_range] returns, its result is determined by
    the document the loader gave: for a mapping, exactly the entries
    with a key in the range and a value that is not empty; for any
    other document, which is then a false one ([None], zero, an empty
    string or list), the empty mapping. *)
Theorem get_data_in_range_returns (ticker start_date end_date data_type
    data_dir : pystr) (period : option pystr) (r : gmap pystr json) :
  (get_data_in_range json_loads w float_is_zero ticker start_date end_date
     data_type data_dir period).1 = Return r →
  ∃ data,
    (load_json_safe json_loads w
       (finnhub_data_path data_dir data_type ticker period) (JDict ∅)).1
      = Return data ∧
    match data with
    | JDict m => r = filter (kept start_date end_date) m
    | _ => r = ∅ ∧ py_truthy float_is_zero data = false
    end.
Proof.
  destruct (get_data_in_range_loaded ticker start_date end_date data_type
              data_dir period) as (data & Hdata & ->).
  intros Hrun. exists data. split; [done|].
  destruct data as [|b|z|x|s|l|m];
    try (unfold filter_in_range in Hrun;
         destruct (py_truthy float_is_zero _); simpl in Hrun;
         [discriminate Hrun|by injection Hrun as <-]).
  rewrite filter_in_range_dict in Hrun.
  rewrite filter_items_spec in Hrun.
  - injection Hrun as <-.
    by rewrite (right_id_L ∅ (∪)), <- map_filter_alt.
  - apply NoDup_fst_map_to_list.
  - intros item Hin Hrange.
    destruct (has_len item.2) eqn:Hlen; [done|].
    assert (filter_items start_date end_date (map_to_list m) ∅
            = Raise TypeError) as Hraise.
    { apply filter_items_raises. split; [done|]. by exists item. }
    by rewrite Hraise in Hrun.
Qed.

(** X20. [get_data_in_range] raises in two cases only: an
    [AttributeError] when the loaded document is a true value that is
    not a mapping (a list, a string, a number), which has no [items];
    a [TypeError] when the loaded mapping has, under a key in the range,
    a value without a length. *)
Theorem get_data_in_range_raises (ticker start_date end_date data_type
    data_dir : pystr) (period : option pystr) (e : exn) :
  (get_data_in_range json_loads w float_is_zero ticker start_date end_date
     data_type data_dir period).1 = Raise e ↔
  ∃ data,
    (load_json_safe json_loads w
       (finnhub_data_path data_dir data_type ticker period) (JDict ∅)).1
      = Return data ∧
    match data with
    | JDict m =>
        e = TypeError ∧
        ∃ key value, m !! key = Some value ∧
                     in_range start_date end_date key = true ∧
                     has_len value = false
    | _ => e = AttributeError ∧ py_truthy float_is_zero data = true
    end.
Proof.
  destruct (get_data_in_range_loaded ticker start_date end_date data_type
              data_dir period) as (data & Hdata & ->).
  assert (∀ m, filter_items start_date end_date (map_to_list m) ∅ = Raise e ↔
               e = TypeError ∧
               ∃ key value, m !! key = Some value ∧
                            in_range start_date end_date key = true ∧
                            has_len value = false) as Hdict.
  { intros m. rewrite filter_items_raises.
    split; intros [-> Hex]; (split; [done|]).
    - destruct Hex as ([key value] & Hin%elem_of_map_to_list & Hrange & Hlen).
      by exists key, value.
    - destruct Hex as (key & value & Hlookup & Hrange & Hlen).
      exists (key, value). by rewrite elem_of_map_to_list. }
  split.
  - intros Hrun. exists data. split; [done|].
    destruct data as [|b|z|x|s|l|m];
      try (unfold filter_in_range in Hrun;
           destruct (py_truthy float_is_zero _); simpl in Hrun;
           [by injection Hrun as <-|discriminate Hrun]).
    rewrite filter_in_range_dict in Hrun. by apply Hdict.
  - intros (data' & Hdata' & Hcase).
    rewrite Hdata in Hdata'. injection Hdata' as <-.
    destruct data as [|b|z|x|s|l|m];
      try (destruct Hcase as [-> Htrue]; unfold filter_in_range;
           by rewrite Htrue).
    rewrite filter_in_range_dict. by apply Hdict.
Qed.

End RangeFurther.

(** X21. For a file at the path of the ticker whose bytes are the UTF-8
    encoding of a text the standard decoder accepts as a mapping, in
    which every value under a key in the range has a length,
    [get_data_in_range] returns exactly the entries of that mapping with
    a key in the range and a value that is not empty; the loader logs
    nothing, and the only record is the warning for an empty mapping. *)
Theorem get_data_in_range_valid_file (limit : nat) (w : world)
    (float_is_zero : pystr → bool)
    (ticker start_date end_date data_type data_dir : pystr)
    (period : option pystr) (content : list byte) (t : pystr)
    (m : gmap pystr json) :
  fs w (finnhub_data_path data_dir data_type ticker period)
    = Some (RegularFile true content) →
  utf8_decode Strict content = Return t →
  PyJson.loads limit true t = Return (JDict m) →
  (∀ key value, m !! key = Some value →
     in_range start_date end_date key = true → has_len value = true) →
  get_data_in_range (PyJson.loads limit) w float_is_zero ticker start_date
    end_date data_type data_dir period =
  (Return (filter (kept start_date end_date) m),
   if decide (m = ∅)
   then [(WARNING,
          NoDataLoaded (finnhub_data_path data_dir data_type ticker period))]
   else []).
Proof.
  intros Hfile Hutf8 Hjson Hlen.
  pose proof (open_read_file _ _ _ _ Hfile Hutf8) as Hread.
  rewrite get_data_in_range_path. unfold load_json_safe.
  rewrite (open_read_exists _ _ _ _ Hread), Hread. simpl.
  rewrite (loads_strict _ _ _ (loads_nl _ _ _ Hjson)).
  unfold filter_in_range. simpl.
  destruct (decide (m = ∅)) as [->|Hne].
  - rewrite bool_decide_eq_true_2 by done. simpl.
    by rewrite map_filter_empty.
  - rewrite bool_decide_eq_false_2 by done. simpl.
    rewrite filter_items_spec.
    + by rewrite (right_id_L ∅ (∪)), <- map_filter_alt.
    + apply NoDup_fst_map_to_list.
    + intros [key value] Hin%elem_of_map_to_list. by apply Hlen.
Qed.

(** ** The further properties on sample files *)

Lemma load_json_safe_all_fail_witness :
  open_read (one_file (py "bad.json") malformed_json) (py "bad.json") Strict =
    Return (ascii_text "{'invalid': json content}") ∧
  loads100 false (ascii_text "{'invalid': json content}") =
    Raise JSONDecodeError ∧
  loads100 false (sanitize_json_string
                    (ascii_text "{'invalid': json content}")) =
    Raise JSONDecodeError ∧
  load_json_safe loads100 (one_file (py "bad.json") malformed_json)
    (py "bad.json") (JBool true) =
    (Return (JBool true),
     [(WARNING,
       if isinstance JSONDecodeError JSONDecodeErrorClass
       then JsonDecodeErrorIn (py "bad.json") JSONDecodeError
       else ErrorLoading (py "bad.json") JSONDecodeError);
      (WARNING, IgnoreStrategyFailed JSONDecodeError);
      (ERROR, AllStrategiesFailed (py "bad.json") JSONDecodeError)]).
Proof.
  assert (open_read (one_file (py "bad.json") malformed_json) (py "bad.json")
            Strict = Return (ascii_text "{'invalid': json content}"))
    as Hread by (vm_compute; reflexivity).
  assert (loads100 false (ascii_text "{'invalid': json content}") =
            Raise JSONDecodeError) as Hdec by (vm_compute; reflexivity).
  assert (loads100 false (sanitize_json_string
                            (ascii_text "{'invalid': json content}")) =
            Raise JSONDecodeError) as Hsan by (vm_compute; reflexivity).
  split; [exact Hread|]. split; [exact Hdec|]. split; [exact Hsan|].
  exact (load_json_safe_all_fail loads100 _ (py "bad.json") (JBool true) _
           JSONDecodeError JSONDecodeError Hread Hdec Hsan).
Defined.


Lemma load_json_safe_invalid_utf8_witness :
  fs (one_file (py "s.json") stray_byte_json) (py "s.json") =
    Some (RegularFile true stray_byte_json) ∧
  utf8_decode Strict stray_byte_json = Raise UnicodeDecodeError ∧
  utf8_decode Ignore stray_byte_json = Return (ascii_text "{'k': 'ab'}") ∧
  loads100 false (universal_newlines (ascii_text "{'k': 'ab'}")) =
    Return (JDict {[ py "k" := JStr (py "ab") ]}) ∧
  load_json_safe loads100 (one_file (py "s.json") stray_byte_json)
    (py "s.json") JNull =
    (Return (JDict {[ py "k" := JStr (py "ab") ]}),
     [(WARNING, ErrorLoading (py "s.json") UnicodeDecodeError)]).
Proof.
  assert (fs (one_file (py "s.json") stray_byte_json) (py "s.json") =
            Some (RegularFile true stray_byte_json))
    as Hfile by (vm_compute; reflexivity).
  assert (utf8_decode Strict stray_byte_json = Raise UnicodeDecodeError)
    as Hstrict by (vm_compute; reflexivity).
  assert (utf8_decode Ignore stray_byte_json =
            Return (ascii_text "{'k': 'ab'}"))
    as Hignore by (vm_compute; reflexivity).
  assert (loads100 false (universal_newlines (ascii_text "{'k': 'ab'}")) =
            Return (JDict {[ py "k" := JStr (py "ab") ]}))
    as Hdec by (vm_compute; reflexivity).
  split; [exact Hfile|]. split; [exact Hstrict|]. split; [exact Hignore|].
  split; [exact Hdec|].
  exact (load_json_safe_invalid_utf8 loads100 _ (py "s.json") JNull _ _ _ _
           Hfile Hstrict Hignore Hdec).
Defined.

Lemma load_json_safe_first_success_witness :
  os_path_exists (one_file (py "n.json") nul_between_tokens) (py "n.json")
    = true ∧
  (load_json_safe loads100 (one_file (py "n.json") nul_between_tokens)
     (py "n.json") JNull).1 =
    Return (match strategy_1 loads100
                    (one_file (py "n.json") nul_between_tokens) (py "n.json")
            with
            | Return d => d
            | Raise _ =>
              match strategy_2 loads100
                      (one_file (py "n.json") nul_between_tokens)
                      (py "n.json")
              with
              | Return d => d
              | Raise _ =>
                match strategy_3 loads100
                        (one_file (py "n.json") nul_between_tokens)
                        (py "n.json")
                with
                | Return d => d
                | Raise _ => JNull
                end
              end
            end).
Proof.
  assert (os_path_exists (one_file (py "n.json") nul_between_tokens)
            (py "n.json") = true) as Hexists by (vm_compute; reflexivity).
  split; [exact Hexists|].
  exact (load_json_safe_first_success loads100 _ (py "n.json") JNull Hexists).
Defined.

Lemma validated_file_loads_witness :
  (validate_json_file (PyJson.loads 100) (one_file (py "a.json") small_json)
     (py "a.json")).1 = Return true ∧
  ∃ s d,
    open_read (one_file (py "a.json") small_json) (py "a.json") Strict =
      Return s ∧
    PyJson.loads 100 true s = Return d ∧
    load_json_safe (PyJson.loads 100) (one_file (py "a.json") small_json)
      (py "a.json") JNull = (Return d, []).
Proof.
  assert ((validate_json_file (PyJson.loads 100)
             (one_file (py "a.json") small_json) (py "a.json")).1 =
            Return true) as Hvalid by (vm_compute; reflexivity).
  split; [exact Hvalid|].
  exact (validated_file_loads 100 _ (py "a.json") JNull Hvalid).
Defined.

Lemma validate_jsonl_file_budget_mono_witness :
  (1 ≤ 2)%Z ∧
  ∃ (v v' : bool) (errs errs' : list nat),
    (validate_jsonl_file loads100 (one_file (py "t.jsonl") two_bad_lines)
       (py "t.jsonl") 1).1 = Return (v, errs) ∧
    (validate_jsonl_file loads100 (one_file (py "t.jsonl") two_bad_lines)
       (py "t.jsonl") 2).1 = Return (v', errs') ∧
    errs `prefix_of` errs'.
Proof.
  assert (1 ≤ 2)%Z as Hle by lia.
  split; [exact Hle|].
  exact (validate_jsonl_file_budget_mono loads100
           (one_file (py "t.jsonl") two_bad_lines) (py "t.jsonl") 1 2 Hle).
Defined.

Lemma validate_jsonl_file_exact_witness :
  fs (one_file (py "t.jsonl") mixed_jsonl) (py "t.jsonl") =
    Some (RegularFile true mixed_jsonl) ∧
  Forall (scannable loads100)
    (enumerate 1 (readlines (decoded mixed_jsonl))) ∧
  ∃ error_lines : list nat,
    (validate_jsonl_file loads100 (one_file (py "t.jsonl") mixed_jsonl)
       (py "t.jsonl") 1).1 =
      Return (Nat.eqb (length error_lines) 0, error_lines) ∧
    error_lines =
      take (line_cap 1)
        (malformed_numbers loads100
           (enumerate 1 (readlines (decoded mixed_jsonl)))).
Proof.
  assert (fs (one_file (py "t.jsonl") mixed_jsonl) (py "t.jsonl") =
            Some (RegularFile true mixed_jsonl))
    as Hfile by (vm_compute; reflexivity).
  assert (Forall (scannable loads100)
            (enumerate 1 (readlines (decoded mixed_jsonl)))) as Hlines
    by (apply Forall_scannable; vm_compute; reflexivity).
  split; [exact Hfile|]. split; [exact Hlines|].
  exact (validate_jsonl_file_exact loads100 _ (py "t.jsonl") 1 mixed_jsonl
           Hfile Hlines).
Defined.

Lemma validate_data_directory_totals_witness :
  os_path_exists sample_tree (py "data") = true ∧
  ∃ r : results,
    (validate_data_directory loads100 sample_tree (py "data")).1 =
      Return (Report r) ∧
    total (json_files r) =
      length (json_named (walked_files (os_walk sample_tree (py "data")))) ∧
    total (jsonl_files r) =
      length (jsonl_named (walked_files (os_walk sample_tree (py "data")))).
Proof.
  assert (os_path_exists sample_tree (py "data") = true) as Hexists
    by reflexivity.
  split; [exact Hexists|].
  exact (validate_data_directory_totals loads100 sample_tree (py "data")
           Hexists).
Defined.

Lemma validate_data_directory_invalid_witness :
  os_path_exists sample_tree (py "data") = true ∧
  ∃ r : results,
    (validate_data_directory loads100 sample_tree (py "data")).1 =
      Return (Report r) ∧
    invalid (json_files r) =
      json_failures loads100 sample_tree
        (walked_files (os_walk sample_tree (py "data"))) ∧
    invalid (jsonl_files r) =
      jsonl_failures loads100 sample_tree
        (walked_files (os_walk sample_tree (py "data"))).
Proof.
  assert (os_path_exists sample_tree (py "data") = true) as Hexists
    by reflexivity.
  split; [exact Hexists|].
  exact (validate_data_directory_invalid loads100 sample_tree (py "data")
           Hexists).
Defined.

Lemma get_data_in_range_missing_file_witness :
  os_path_exists no_file
    (finnhub_data_path (py "/nonexistent/path") (py "news_data") (py "TEST")
       None) = false ∧
  get_data_in_range loads100 no_file zero_mantissa (py "TEST")
    (py "2024-01-01") (py "2024-12-31") (py "news_data")
    (py "/nonexistent/path") None =
  (Return ∅,
   [(WARNING,
     FileNotFound
       (finnhub_data_path (py "/nonexistent/path") (py "news_data")
          (py "TEST") None));
    (WARNING,
     NoDataLoaded
       (finnhub_data_path (py "/nonexistent/path") (py "news_data")
          (py "TEST") None))]).
Proof.
  assert (os_path_exists no_file
            (finnhub_data_path (py "/nonexistent/path") (py "news_data")
               (py "TEST") None) = false) as Hmissing by reflexivity.
  split; [exact Hmissing|].
  exact (get_data_in_range_missing_file zero_mantissa loads100 no_file
           (py "TEST") (py "2024-01-01") (py "2024-12-31") (py "news_data")
           (py "/nonexistent/path") None Hmissing).
Defined.

Lemma get_data_in_range_returns_witness :
  (get_data_in_range loads100 finnhub_tree zero_mantissa (py "AAPL")
     (py "2024-01-01") (py "2024-02-15") (py "news_data") (py "data") None).1
    = Return {[ py "2024-01-01" := JList [JInt 1] ]} ∧
  ∃ data,
    (load_json_safe loads100 finnhub_tree
       (finnhub_data_path (py "data") (py "news_data") (py "AAPL") None)
       (JDict ∅)).1 = Return data ∧
    match data with
    | JDict m =>
        {[ py "2024-01-01" := JList [JInt 1] ]} =
          filter (kept (py "2024-01-01") (py "2024-02-15")) m
    | _ => ({[ py "2024-01-01" := JList [JInt 1] ]} : gmap pystr json) = ∅ ∧
           py_truthy zero_mantissa data = false
    end.
Proof.
  assert ((get_data_in_range loads100 finnhub_tree zero_mantissa (py "AAPL")
             (py "2024-01-01") (py "2024-02-15") (py "news_data") (py "data")
             None).1
          = Return {[ py "2024-01-01" := JList [JInt 1] ]}) as Hrun
    by (vm_compute; reflexivity).
  split; [exact Hrun|].
  exact (get_data_in_range_returns zero_mantissa loads100 finnhub_tree
           (py "AAPL") (py "2024-01-01") (py "2024-02-15") (py "news_data")
           (py "data") None _ Hrun).
Defined.

Lemma get_data_in_range_valid_file_witness :
  fs finnhub_tree
    (finnhub_data_path (py "data") (py "news_data") (py "AAPL") None) =
    Some (RegularFile true news_bytes) ∧
  utf8_decode Strict news_bytes =
    Return (ascii_text
              "{'2024-01-01': [1], '2024-02-01': [], '2024-03-01': [2]}") ∧
  PyJson.loads 100 true
    (ascii_text "{'2024-01-01': [1], '2024-02-01': [], '2024-03-01': [2]}") =
    Return (JDict dated_lists) ∧
  (∀ key value, dated_lists !! key = Some value →
     in_range (py "2024-01-01") (py "2024-02-15") key = true →
     has_len value = true) ∧
  get_data_in_range (PyJson.loads 100) finnhub_tree zero_mantissa (py "AAPL")
    (py "2024-01-01") (py "2024-02-15") (py "news_data") (py "data") None =
  (Return (filter (kept (py "2024-01-01") (py "2024-02-15")) dated_lists),
   if decide (dated_lists = ∅)
   then [(WARNING,
          NoDataLoaded
            (finnhub_data_path (py "data") (py "news_data") (py "AAPL")
               None))]
   else []).
Proof.
  assert (fs finnhub_tree
            (finnhub_data_path (py "data") (py "news_data") (py "AAPL") None) =
            Some (RegularFile true news_bytes))
    as Hfile by (vm_compute; reflexivity).
  assert (utf8_decode Strict news_bytes =
            Return (ascii_text
              "{'2024-01-01': [1], '2024-02-01': [], '2024-03-01': [2]}"))
    as Hutf8 by (vm_compute; reflexivity).
  assert (PyJson.loads 100 true
            (ascii_text
               "{'2024-01-01': [1], '2024-02-01': [], '2024-03-01': [2]}") =
            Return (JDict dated_lists)) as Hjson by (vm_compute; reflexivity).
  assert (∀ key value, dated_lists !! key = Some value →
            in_range (py "2024-01-01") (py "2024-02-15") key = true →
            has_len value = true) as Hlen.
  { intros key value Hlookup _. unfold dated_lists in Hlookup.
    repeat (apply lookup_insert_Some in Hlookup as [[_ <-]|[_ Hlookup]];
            [reflexivity|]).
    by rewrite lookup_empty in Hlookup. }
  split; [exact Hfile|]. split; [exact Hutf8|]. split; [exact Hjson|].
  split; [exact Hlen|].
  exact (get_data_in_range_valid_file 100 finnhub_tree zero_mantissa
           (py "AAPL") (py "2024-01-01") (py "2024-02-15") (py "news_data")
           (py "data") None news_bytes _ dated_lists Hfile Hutf8 Hjson Hlen).
Defined.
